(** * mysterio-cli: configuration resolution and synchronisation

    A shallow embedding of [src/index.mjs] (the command functions behind
    [mysterio get | set | env | aws]) together with the properties of the
    specification that are settled against it.

    Conventions of the embedding.
    - JavaScript strings are [string]s (byte strings); the case mapping is
      the ASCII one.
    - A JavaScript object is the list of its own enumerable properties in
      the order the engine enumerates them: array-index keys first, in
      ascending order, then the other keys in insertion order.  Property
      names are ordinary data-property names (the inherited accessor
      [__proto__] is outside the model).
    - JSON numbers are taken in the integers; JavaScript prints those of
      magnitude below 10^21 in plain decimal, as [Str.of_Z] does.
    - [JSON.parse] is a parameter of the commands.
    - The file system (directories of files, addressed by the directory
      path and the file name), the secret store, the console and the
      answers of the user form an explicit [world]; every command is a
      function from a world to an outcome and a new world.  Environment
      names are single path segments.
    - The secret store is AWS Secrets Manager as far as the commands rely
      on it: a secret is active, scheduled for deletion, or absent;
      creating an existing secret and updating, reading or deleting an
      absent one are refused with the exceptions the source tests for.
      Descriptions, ARNs and version ids of secrets are left out. *)

From Stdlib Require Import ZArith NArith Ascii String List Bool Lia DecimalString.
From Stdlib Require DecimalPos.
From stdpp Require Import base option gmap strings list.

Set Warnings "-register-all,-notation-for-abbreviation".

Local Open Scope string_scope.

(* ===================================================================== *)
(** ** Strings: the [String.prototype] methods the source calls          *)
(* ===================================================================== *)

Module Str.

Definition quote : ascii := "034"%char.
Definition newline : ascii := "010"%char.
Definition NL : string := String newline "".

Definition is_upper (c : ascii) : bool :=
  Nat.leb 65 (nat_of_ascii c) && Nat.leb (nat_of_ascii c) 90.

Definition is_lower (c : ascii) : bool :=
  Nat.leb 97 (nat_of_ascii c) && Nat.leb (nat_of_ascii c) 122.

Definition upper_char (c : ascii) : ascii :=
  if is_lower c then ascii_of_nat (nat_of_ascii c - 32) else c.

(** [s.toUpperCase()] *)
Fixpoint toUpperCase (s : string) : string :=
  match s with
  | "" => ""
  | String c s' => String (upper_char c) (toUpperCase s')
  end.

(** [s.startsWith(p)] *)
Definition startsWith (p s : string) : bool := String.prefix p s.

(** [s.endsWith(suf)]: some tail of [s] is [suf]. *)
Fixpoint endsWith (suf s : string) : bool :=
  String.eqb suf s ||
  match s with
  | "" => false
  | String _ s' => endsWith suf s'
  end.

Fixpoint drop (n : nat) (s : string) : string :=
  match n, s with
  | 0, _ => s
  | S _, "" => ""
  | S n', String _ s' => drop n' s'
  end.

(** [s.replace(pat, rep)] with a string pattern: only the first
    occurrence is replaced ([rep] holds no [$] pattern in the source). *)
Fixpoint replace (pat rep s : string) : string :=
  if String.prefix pat s then rep +:+ drop (String.length pat) s
  else match s with
       | "" => ""
       | String c s' => String c (replace pat rep s')
       end.

(** [s.replace(/([A-Z])/g, "_$1")]: every match of the class is replaced
    by an underscore followed by the matched letter. *)
Fixpoint replace_upper (s : string) : string :=
  match s with
  | "" => ""
  | String c s' =>
      if is_upper c then String "_" (String c (replace_upper s'))
      else String c (replace_upper s')
  end.

(** [ls.join(sep)] *)
Definition join (sep : string) (ls : list string) : string :=
  String.concat sep ls.

(** [String(n)] for an integer [n]. *)
Definition of_Z (n : Z) : string := NilZero.string_of_int (Z.to_int n).

End Str.

(* ===================================================================== *)
(** ** JSON values and JavaScript objects                                *)
(* ===================================================================== *)

Inductive json : Type :=
| JNull
| JBool (b : bool)
| JNum (n : Z)
| JStr (s : string)
| JArr (items : list json)
| JObj (props : list (string * json)).

(** The own enumerable properties of an object, in enumeration order. *)
Notation obj := (list (string * json)).

Module Obj.

(** Value of a run of decimal digits. *)
Fixpoint digits (s : string) (acc : N) : option N :=
  match s with
  | "" => Some acc
  | String c s' =>
      let d := nat_of_ascii c in
      if Nat.leb 48 d && Nat.leb d 57
      then digits s' (acc * 10 + N.of_nat (d - 48))%N
      else None
  end.

(** A property key is an array index when it is the canonical decimal
    text of an integer below [2^32 - 1]. *)
Definition array_index (k : string) : option N :=
  match k with
  | "" => None
  | String c rest =>
      if Ascii.eqb c "0" && negb (String.eqb rest "") then None
      else match digits k 0 with
           | Some i => if (i <? 4294967295)%N then Some i else None
           | None => None
           end
  end.

(** [o[k]] for an own property. *)
Fixpoint get (k : string) (o : obj) : option json :=
  match o with
  | [] => None
  | (k', v) :: o' => if String.eqb k k' then Some v else get k o'
  end.

Definition has (k : string) (o : obj) : bool :=
  match get k o with Some _ => true | None => false end.

(** Overwriting an existing property keeps its position. *)
Fixpoint update (k : string) (v : json) (o : obj) : obj :=
  match o with
  | [] => []
  | (k', v') :: o' =>
      if String.eqb k k' then (k', v) :: o' else (k', v') :: update k v o'
  end.

(** A new array-index key goes after the smaller indices. *)
Fixpoint insert_index (i : N) (k : string) (v : json) (o : obj) : obj :=
  match o with
  | [] => [(k, v)]
  | (k', v') :: o' =>
      match array_index k' with
      | Some j =>
          if (j <? i)%N then (k', v') :: insert_index i k v o'
          else (k, v) :: o
      | None => (k, v) :: o
      end
  end.

(** Defining the data property [k] of [o] with value [v]. *)
Definition set (k : string) (v : json) (o : obj) : obj :=
  if has k o then update k v o
  else match array_index k with
       | Some i => insert_index i k v o
       | None => o ++ [(k, v)]
       end.

Definition keys (o : obj) : list string := map fst o.

Fixpoint distinct (ks : list string) : bool :=
  match ks with
  | [] => true
  | k :: ks' => negb (existsb (String.eqb k) ks') && distinct ks'
  end.

(** An object has no key twice. *)
Definition wf (o : obj) : Prop := distinct (keys o) = true.

Fixpoint index_from (i : nat) (l : list json) : obj :=
  match l with
  | [] => []
  | v :: l' => (Str.of_Z (Z.of_nat i), v) :: index_from (S i) l'
  end.

Fixpoint chars_from (i : nat) (s : string) : obj :=
  match s with
  | "" => []
  | String c s' =>
      (Str.of_Z (Z.of_nat i), JStr (String c "")) :: chars_from (S i) s'
  end.

(** [Object.entries(v)], which is also what a spread [...v] copies:
    the properties of an object, the elements of an array under their
    indices, the characters of a string, nothing for the other values. *)
Definition entries (v : json) : obj :=
  match v with
  | JObj o => o
  | JArr l => index_from 0 l
  | JStr s => chars_from 0 s
  | JNull | JBool _ | JNum _ => []
  end.

(** [{ ...target, ...v }] adds the entries of [v] one by one. *)
Definition spread (target : obj) (v : json) : obj :=
  fold_left (fun acc kv => set (fst kv) (snd kv) acc) (entries v) target.

(** Two objects are the same mapping when they agree on every key. *)
Definition same_mapping (o1 o2 : obj) : Prop :=
  forall k, get k o1 = get k o2.

End Obj.

(* ===================================================================== *)
(** ** [JSON.stringify]                                                  *)
(* ===================================================================== *)

Module Json.

Definition hex_digit (n : nat) : ascii :=
  if Nat.ltb n 10 then ascii_of_nat (48 + n) else ascii_of_nat (87 + n).

(** Escape of one character inside a JSON string literal. *)
Definition escape_char (c : ascii) : string :=
  let n := nat_of_ascii c in
  if Ascii.eqb c Str.quote then String "\" (String Str.quote "")
  else if Ascii.eqb c "\" then "\\"
  else if Nat.eqb n 8 then "\b"
  else if Nat.eqb n 9 then "\t"
  else if Nat.eqb n 10 then "\n"
  else if Nat.eqb n 12 then "\f"
  else if Nat.eqb n 13 then "\r"
  else if Nat.ltb n 32
       then "\u00" +:+ String (hex_digit (n / 16)) (String (hex_digit (n mod 16)) "")
       else String c "".

Fixpoint escape (s : string) : string :=
  match s with
  | "" => ""
  | String c s' => escape_char c +:+ escape s'
  end.

Definition quoted (s : string) : string :=
  String Str.quote (escape s) +:+ String Str.quote "".

(** [JSON.stringify(v)]: the compact encoding. *)
Fixpoint stringify (v : json) : string :=
  match v with
  | JNull => "null"
  | JBool b => if b then "true" else "false"
  | JNum n => Str.of_Z n
  | JStr s => quoted s
  | JArr l =>
      "[" +:+
      (fix items (l : list json) : string :=
         match l with
         | [] => ""
         | x :: l' =>
             match l' with
             | [] => stringify x
             | _ :: _ => stringify x +:+ "," +:+ items l'
             end
         end) l +:+ "]"
  | JObj o =>
      "{" +:+
      (fix props (o : obj) : string :=
         match o with
         | [] => ""
         | (k, x) :: o' =>
             match o' with
             | [] => quoted k +:+ ":" +:+ stringify x
             | _ :: _ => quoted k +:+ ":" +:+ stringify x +:+ "," +:+ props o'
             end
         end) o +:+ "}"
  end.

(** [JSON.stringify(v, null, 2)]: [ind] is the indentation of the line
    on which [v] starts. *)
Fixpoint stringify_at (ind : string) (v : json) : string :=
  let ind' := ind +:+ "  " in
  match v with
  | JNull | JBool _ | JNum _ | JStr _ => stringify v
  | JArr [] => "[]"
  | JArr l =>
      "[" +:+ Str.NL +:+
      (fix items (l : list json) : string :=
         match l with
         | [] => ""
         | x :: l' =>
             match l' with
             | [] => ind' +:+ stringify_at ind' x
             | _ :: _ =>
                 ind' +:+ stringify_at ind' x +:+ "," +:+ Str.NL +:+ items l'
             end
         end) l +:+ Str.NL +:+ ind +:+ "]"
  | JObj [] => "{}"
  | JObj o =>
      "{" +:+ Str.NL +:+
      (fix props (o : obj) : string :=
         match o with
         | [] => ""
         | (k, x) :: o' =>
             match o' with
             | [] => ind' +:+ quoted k +:+ ": " +:+ stringify_at ind' x
             | _ :: _ =>
                 ind' +:+ quoted k +:+ ": " +:+ stringify_at ind' x
                      +:+ "," +:+ Str.NL +:+ props o'
             end
         end) o +:+ Str.NL +:+ ind +:+ "}"
  end.

Definition pretty (v : json) : string := stringify_at "" v.

(** [typeof v === "object"] *)
Definition typeof_object (v : json) : bool :=
  match v with
  | JNull | JArr _ | JObj _ => true
  | JBool _ | JNum _ | JStr _ => false
  end.

(** A primitive interpolated in a template literal. *)
Definition to_text (v : json) : string :=
  match v with
  | JStr s => s
  | JNum n => Str.of_Z n
  | JBool b => if b then "true" else "false"
  | JNull => "null"
  | JArr _ | JObj _ => stringify v
  end.

End Json.

(* ===================================================================== *)
(** ** A reader for JSON texts                                           *)
(* ===================================================================== *)

(** [JSON.parse] belongs to the platform and the commands below take it
    as a parameter.  The examples instantiate that parameter with this
    reader, which accepts the JSON texts made of objects, arrays, strings
    with ASCII escapes, integers, [true], [false] and [null], and refuses
    every other text. *)
Module Reader.

Definition is_space (c : ascii) : bool :=
  let n := nat_of_ascii c in
  Nat.eqb n 32 || Nat.eqb n 9 || Nat.eqb n 10 || Nat.eqb n 13.

Definition is_digit (c : ascii) : bool :=
  Nat.leb 48 (nat_of_ascii c) && Nat.leb (nat_of_ascii c) 57.

Fixpoint skip (s : string) : string :=
  match s with
  | String c s' => if is_space c then skip s' else s
  | "" => ""
  end.

Definition hex_value (c : ascii) : option nat :=
  let n := nat_of_ascii c in
  if is_digit c then Some (n - 48)
  else if Nat.leb 97 n && Nat.leb n 102 then Some (n - 87)
  else if Nat.leb 65 n && Nat.leb n 70 then Some (n - 55)
  else None.

Definition unescape (c : ascii) : option ascii :=
  if Ascii.eqb c Str.quote then Some Str.quote else
  match c with
  | "\"%char => Some "\"%char
  | "/"%char => Some "/"%char
  | "b"%char => Some (ascii_of_nat 8)
  | "t"%char => Some (ascii_of_nat 9)
  | "n"%char => Some (ascii_of_nat 10)
  | "f"%char => Some (ascii_of_nat 12)
  | "r"%char => Some (ascii_of_nat 13)
  | _ => None
  end.

(** The characters of a string literal after its opening quote. *)
Fixpoint literal (s : string) : option (string * string) :=
  match s with
  | "" => None
  | String c r =>
      if Ascii.eqb c Str.quote then Some ("", r)
      else if Ascii.eqb c "\" then
        match r with
        | String "u" (String a (String b (String x (String y r')))) =>
            match hex_value a, hex_value b, hex_value x, hex_value y with
            | Some 0, Some 0, Some h, Some l =>
                if Nat.ltb (16 * h + l) 128 then
                  match literal r' with
                  | Some (t, rest) => Some (String (ascii_of_nat (16 * h + l)) t, rest)
                  | None => None
                  end
                else None
            | _, _, _, _ => None
            end
        | String e r' =>
            match unescape e, literal r' with
            | Some ch, Some (t, rest) => Some (String ch t, rest)
            | _, _ => None
            end
        | "" => None
        end
      else if Nat.ltb (nat_of_ascii c) 32 then None
      else match literal r with
           | Some (t, rest) => Some (String c t, rest)
           | None => None
           end
  end.

Fixpoint digits (s : string) (acc : Z) : Z * string :=
  match s with
  | String c s' =>
      if is_digit c then digits s' (acc * 10 + Z.of_nat (nat_of_ascii c - 48))%Z
      else (acc, s)
  | "" => (acc, "")
  end.

(** An integer that a JavaScript number holds exactly: no leading zero,
    no fraction, no exponent, at most [2^53 - 1]. *)
Definition integer (s : string) : option (Z * string) :=
  match s with
  | String c s' =>
      if is_digit c then
        let '(n, rest) := digits s 0 in
        let plain :=
          match rest with
          | String d _ =>
              negb (Ascii.eqb d "." || Ascii.eqb d "e" || Ascii.eqb d "E")
          | "" => true
          end in
        let canonical :=
          negb (Ascii.eqb c "0") ||
          match s' with
          | String d _ => negb (is_digit d)
          | "" => true
          end in
        if plain && canonical then Some (n, rest) else None
      else None
  | "" => None
  end.

Fixpoint value (fuel : nat) (s : string) : option (json * string) :=
  match fuel with
  | 0 => None
  | S fuel' =>
      match skip s with
      | String "{" r =>
          match skip r with
          | String "}" rest => Some (JObj [], rest)
          | r' => members fuel' r' []
          end
      | String "[" r =>
          match skip r with
          | String "]" rest => Some (JArr [], rest)
          | r' => elements fuel' r' []
          end
      | String "n" (String "u" (String "l" (String "l" rest))) => Some (JNull, rest)
      | String "t" (String "r" (String "u" (String "e" rest))) => Some (JBool true, rest)
      | String "f" (String "a" (String "l" (String "s" (String "e" rest)))) =>
          Some (JBool false, rest)
      | String "-" r =>
          match integer r with
          | Some (n, rest) => Some (JNum (- n), rest)
          | None => None
          end
      | String c r =>
          if Ascii.eqb c Str.quote then
            match literal r with
            | Some (t, rest) => Some (JStr t, rest)
            | None => None
            end
          else match integer (String c r) with
               | Some (n, rest) => Some (JNum n, rest)
               | None => None
               end
      | "" => None
      end
  end

with elements (fuel : nat) (s : string) (acc : list json) : option (json * string) :=
  match fuel with
  | 0 => None
  | S fuel' =>
      match value fuel' s with
      | Some (v, rest) =>
          match skip rest with
          | String "," rest' => elements fuel' rest' (acc ++ [v])
          | String "]" rest' => Some (JArr (acc ++ [v]), rest')
          | _ => None
          end
      | None => None
      end
  end

with members (fuel : nat) (s : string) (acc : obj) : option (json * string) :=
  match fuel with
  | 0 => None
  | S fuel' =>
      match skip s with
      | String c r =>
          if Ascii.eqb c Str.quote then
            match literal r with
            | Some (k, rest) =>
                match skip rest with
                | String ":" rest' =>
                    match value fuel' rest' with
                    | Some (v, rest'') =>
                        match skip rest'' with
                        | String "," more => members fuel' more (Obj.set k v acc)
                        | String "}" more => Some (JObj (Obj.set k v acc), more)
                        | _ => None
                        end
                    | None => None
                    end
                | _ => None
                end
            | None => None
            end
          else None
      | "" => None
      end
  end.

Definition read (s : string) : option json :=
  match value (2 * String.length s + 2) s with
  | Some (v, rest) =>
      match skip rest with
      | "" => Some v
      | String _ _ => None
      end
  | None => None
  end.

End Reader.

(* ===================================================================== *)
(** ** The world a command runs in                                       *)
(* ===================================================================== *)

(** What a command can throw.  The first group is raised by the source
    itself ([throw new Error(...)]), the second by the platform and by the
    AWS SDK. *)
Inductive error : Type :=
| OutsideModel                  (* see [assign] below *)
| PackageNameNotProvided        (* 'Package name not provided' *)
| PackageNameRequired           (* 'Package name required for AWS operations...' *)
| InvalidRecoveryWindow         (* 'Invalid recovery window' *)
| TemplateNotFound              (* 'Template not found' *)
| KeyRequired                   (* 'Key is required' *)
| UnknownAction (action : string)
| InvalidFormat (format : string)
| ENOENT (dir file : string)    (* no such file or directory *)
| SyntaxError                   (* JSON.parse *)
| TypeError
| ResourceExistsException
| ResourceNotFoundException
| InvalidRequestException
| CredentialsProviderError.

(** A secret of the store: its payload and, once deletion is scheduled,
    the date at which it is purged.  A purged secret is no longer in the
    store. *)
Record secret : Type := Secret {
  SecretString : string;
  DeletionDate : option Z
}.

Inductive lifecycle : Type :=
| ACTIVE
| PENDING_DELETION (deadline : Z)
| DELETED.

Inductive delete_mode : Type :=
| ForceDeleteWithoutRecovery
| RecoveryWindowInDays (days : option Z).

(** The commands [client.send] transmits. *)
Inductive command : Type :=
| CreateSecretCommand (Name SecretString : string)
| UpdateSecretCommand (SecretId SecretString : string)
| DeleteSecretCommand (SecretId : string) (mode : delete_mode).

(** What reaches the secret store: a read by the [mysterio] secrets
    client, or a command sent by a [SecretsManagerClient]; each carries
    the region of its client. *)
Inductive request : Type :=
| Fetch (region SecretId : string)
| Send (region : string) (c : command).

(** The questions put to the user through [@inquirer/prompts]. *)
Inductive question : Type :=
| AskDeleteSecret (secretName : string)
| AskForceDeletion
| AskOverrideSecret (secretName : string)
| AskOverrideLocal (environment : string)
| AskDeleteEnvironment (name : string)
| AskDeleteEnvironmentLegacy (name : string).

Inductive text_question : Type :=
| AskEnvironmentName
| AskEnvironmentToDelete
| AskEnvironmentNameLegacy
| AskEnvironmentToDeleteLegacy.

(** Reports written to the console, by the statements that print them;
    the lines of one report are one message.  [debug] lines are left out. *)
Inductive message : Type :=
| ErrPackageNameRequired
| LogOperationCancelled
| ErrInvalidRecoveryWindow
| LogDeletionInitiated (secretName : string)
| LogScheduledDeletion (date : Z)
| LogDeletedImmediately
| ErrSecretNotFound (secretName : string)
| ErrFailedToDelete (e : error)
| LogCredentialsHelp
| ErrLocalConfigNotFound (dir file : string)
| LogPushed (secretName : string)
| LogUpdatedExisting
| LogPulled (dir file : string)
| ErrFailedToPull (e : error)
| LogSyncing (prefer : string)
| LogNoLocalConfig
| LogNoAwsSecret
| LogSynced (dir file secretName : string)
| ErrAwsOperationFailed (e : error)
| ErrEnvironmentExists (name : string)
| LogUsingTemplate (from : string)
| ErrTemplateNotFound (from : string)
| LogCreatedEnvironment (name : string)
| LogSecretNameNote (secretName : string)
| LogEnvironments
| LogEnvironment (name : string) (aws : option bool)
| LogCancelled
| LogDeletedEnvironment (name : string)
| ErrUnknownAction (action : string)
| ErrEnvironmentOperationFailed (e : error)
| ErrFailedToManageEnvironment (e : error)
| LogConfigurationUpdated (environment : string)
| ErrFailedToSet (e : error).

(** Answers of the user: [confirm] prompts, free-text prompts, the
    recovery window typed at the prompt that only accepts texts whose
    [parseInt] is between 7 and 30, and the key/value pairs typed in the
    interactive mode of [set]. *)
Record user : Type := User {
  answer : question -> bool;
  typed : text_question -> string;
  typed_days : Z;
  typed_entries : list (string * string)
}.

(** The process configuration of [config.mjs] and [process.env]. *)
Record rc : Type := Rc {
  rc_packageName : option string;
  rc_configDirPath : option string;
  rc_awsRegion : option string;
  NODE_ENV : option string
}.

Record world : Type := World {
  files : gmap string (gmap string string);   (* directory, file name *)
  secrets : gmap (string * string) secret;    (* region, secret name *)
  credentials : bool;
  clock : Z;                                  (* milliseconds *)
  sent : list request;                        (* in the order sent *)
  console : list message                      (* in the order printed *)
}.

(** The errors that come from the secret store. *)
Definition store_error (e : error) : bool :=
  match e with
  | ResourceExistsException | ResourceNotFoundException
  | InvalidRequestException | CredentialsProviderError => true
  | _ => false
  end.

Definition state_of (w : world) (region name : string) : lifecycle :=
  match secrets w !! (region, name) with
  | None => DELETED
  | Some s =>
      match DeletionDate s with
      | None => ACTIVE
      | Some d => PENDING_DELETION d
      end
  end.

(** *** Commands: state and exceptions *)

Definition M (A : Type) : Type := world -> (error + A) * world.

Definition ret {A : Type} (a : A) : M A := fun w => (inr a, w).

Definition bind {A B : Type} (m : M A) (k : A -> M B) : M B := fun w =>
  match m w with
  | (inl e, w') => (inl e, w')
  | (inr a, w') => k a w'
  end.

Declare Scope cmd_scope.
Delimit Scope cmd_scope with cmd.
Notation "x ← y ; z" := (bind y (fun x => z))
  (at level 20, y at level 100, z at level 200, only parsing) : cmd_scope.
Notation "x ;; z" := (bind x (fun _ => z))
  (at level 100, z at level 200, only parsing, right associativity) : cmd_scope.
Local Open Scope cmd_scope.

Definition throw {A : Type} (e : error) : M A := fun w => (inl e, w).

(** [try { m } catch (e) { h e }] *)
Definition try_catch {A : Type} (m : M A) (h : error -> M A) : M A := fun w =>
  match m w with
  | (inl e, w') => h e w'
  | (inr a, w') => (inr a, w')
  end.

Definition print (msg : message) : M unit := fun w =>
  (inr tt, World (files w) (secrets w) (credentials w) (clock w) (sent w)
                 (console w ++ [msg])).

Definition set_files (f : gmap string (gmap string string)) : M unit := fun w =>
  (inr tt, World f (secrets w) (credentials w) (clock w) (sent w) (console w)).

Definition set_secrets (s : gmap (string * string) secret) : M unit := fun w =>
  (inr tt, World (files w) s (credentials w) (clock w) (sent w) (console w)).

Definition record (r : request) : M unit := fun w =>
  (inr tt, World (files w) (secrets w) (credentials w) (clock w)
                 (sent w ++ [r]) (console w)).

Definition get_world : M world := fun w => (inr w, w).

(** *** [node:fs/promises] *)

Definition readFile (dir file : string) : M string :=
  w ← get_world;
  match files w !! dir with
  | Some d => match d !! file with
              | Some content => ret content
              | None => throw (ENOENT dir file)
              end
  | None => throw (ENOENT dir file)
  end.

Definition access (dir file : string) : M unit :=
  readFile dir file;; ret tt.

Definition writeFile (dir file content : string) : M unit :=
  w ← get_world;
  match files w !! dir with
  | Some d => set_files (<[dir := <[file := content]> d]> (files w))
  | None => throw (ENOENT dir file)
  end.

(** [fs.mkdir(dir, { recursive: true })] *)
Definition mkdir (dir : string) : M unit :=
  w ← get_world;
  match files w !! dir with
  | Some _ => ret tt
  | None => set_files (<[dir := ∅]> (files w))
  end.

Definition readdir (dir : string) : M (list string) :=
  w ← get_world;
  match files w !! dir with
  | Some d => ret (map fst (map_to_list d))
  | None => throw (ENOENT dir "")
  end.

Definition unlink (dir file : string) : M unit :=
  w ← get_world;
  match files w !! dir with
  | Some d => match d !! file with
              | Some _ => set_files (<[dir := delete file d]> (files w))
              | None => throw (ENOENT dir file)
              end
  | None => throw (ENOENT dir file)
  end.

(** *** The secret store behind [client.send] *)

(** A recovery window of [n] days ends [n * day_ms] milliseconds after the
    request; the store applies 30 days when the request names none. *)
Definition day_ms : Z := 86400000.

(** Every request is transmitted, then answered by the store: without
    credentials it is refused; a secret scheduled for deletion accepts no
    request. *)
Definition transmit (r : request) : M unit :=
  record r;;
  w ← get_world;
  if credentials w then ret tt else throw CredentialsProviderError.

(** [GetSecretValue], as issued by the secrets client. *)
Definition fetch (region name : string) : M string :=
  transmit (Fetch region name);;
  w ← get_world;
  match secrets w !! (region, name) with
  | Some (Secret payload None) => ret payload
  | Some (Secret _ (Some _)) => throw InvalidRequestException
  | None => throw ResourceNotFoundException
  end.

(** [new SecretsManagerClient({ region }).send(c)]; the answer is the
    [DeletionDate] of the response, when it has one. *)
Definition send (region : string) (c : command) : M (option Z) :=
  transmit (Send region c);;
  w ← get_world;
  match c with
  | CreateSecretCommand name payload =>
      match state_of w region name with
      | ACTIVE => throw ResourceExistsException
      | PENDING_DELETION _ => throw InvalidRequestException
      | DELETED =>
          set_secrets (<[(region, name) := Secret payload None]> (secrets w));;
          ret None
      end
  | UpdateSecretCommand name payload =>
      match state_of w region name with
      | ACTIVE =>
          set_secrets (<[(region, name) := Secret payload None]> (secrets w));;
          ret None
      | PENDING_DELETION _ => throw InvalidRequestException
      | DELETED => throw ResourceNotFoundException
      end
  | DeleteSecretCommand name mode =>
      match secrets w !! (region, name) with
      | Some (Secret payload None) =>
          match mode with
          | ForceDeleteWithoutRecovery =>
              set_secrets (delete (region, name) (secrets w));;
              ret None
          | RecoveryWindowInDays days =>
              let deadline := (clock w + default 30 days * day_ms)%Z in
              set_secrets
                (<[(region, name) := Secret payload (Some deadline)]> (secrets w));;
              ret (Some deadline)
          end
      | Some (Secret _ (Some _)) => throw InvalidRequestException
      | None => throw ResourceNotFoundException
      end
  end.

(* ===================================================================== *)
(** ** The commands of [src/index.mjs]                                   *)
(* ===================================================================== *)

(** [a || b] on optional strings: the empty string is falsy. *)
Definition truthy (a : option string) : option string :=
  match a with
  | Some "" => None
  | _ => a
  end.

Definition or_else (a b : option string) : option string :=
  match truthy a with
  | Some s => Some s
  | None => truthy b
  end.

Infix "|||" := or_else (at level 50, left associativity).

(** The options object of [mysterio aws <action>]. *)
Record aws_options : Type := AwsOptions {
  o_env : option string;
  o_packageName : option string;
  o_region : option string;
  o_configDir : option string;
  o_override : bool;
  o_prefer : option string;
  o_force : bool;
  o_days : option Z;
  o_confirm : option bool
}.

(** The options object of [mysterio env <action> [name]]. *)
Record env_options : Type := EnvOptions {
  e_configDir : option string;
  e_from : option string;
  e_withAws : bool;
  e_showAws : bool;
  e_force : bool;
  e_days : option Z
}.

(** The options object of the legacy [createEnvironment]. *)
Record legacy_options : Type := LegacyOptions {
  l_configDir : string;
  l_template : option string;
  l_withSecrets : bool
}.

(** The options object of [mysterio set <key> [value]]. *)
Record set_options : Type := SetOptions {
  s_env : option string;
  s_target : option string;
  s_configDir : option string;
  s_interactive : bool
}.

(** [for (const x of xs) { body x }] *)
Fixpoint for_each {A : Type} (xs : list A) (body : A -> M unit) : M unit :=
  match xs with
  | [] => ret tt
  | x :: xs' => body x;; for_each xs' body
  end.

(** The environments listed from the names in the configuration
    directory:
    [files.filter(f => f.endsWith('.json') && f !== 'default.json')
          .map(f => f.replace('.json', ''))]. *)
Definition environments_of (files : list string) : list string :=
  map (fun f => Str.replace ".json" "" f)
      (List.filter
         (fun f => Str.endsWith ".json" f && negb (String.eqb f "default.json"))
         files).

(** [envKey] and [envValue] of the [env] output format. *)
Definition envKey (key : string) : string :=
  Str.toUpperCase (Str.replace_upper key).

Definition envValue (value : json) : string :=
  Json.to_text (if Json.typeof_object value then JStr (Json.stringify value) else value).

(** The "Format output" switch of [getConfig], applied to the [result]
    the [mysterio] library returned. *)
Definition format_output (format : option string) (result : json) : error + string :=
  let format := default "json" (truthy format) in
  if String.eqb format "json" then inr (Json.pretty result)
  else if String.eqb format "env" then
    match result with
    | JNull => inl TypeError
    | _ =>
        inr (Str.join Str.NL
               (map (fun kv => envKey (fst kv) +:+ "=" +:+ envValue (snd kv))
                    (Obj.entries result)))
    end
  else inl (InvalidFormat format).

(** [target[key] = value] followed by a [JSON.stringify] of [target]: an
    [undefined] value leaves no property in the text.  The source is
    module code, where the assignment throws on [null] and on primitives.
    On an array the outcome depends on the conversion of [key] and
    [value] to numbers, which this embedding does not follow. *)
Definition assign (key : string) (value : option json) (target : json) : error + json :=
  match target with
  | JObj o =>
      inr (JObj match value with
                | Some v => Obj.set key v o
                | None => List.filter (fun kv => negb (String.eqb key (fst kv))) o
                end)
  | JArr _ => inl OutsideModel
  | JNull | JBool _ | JNum _ | JStr _ => inl TypeError
  end.

Definition lift {A : Type} (r : error + A) : M A :=
  match r with
  | inl e => throw e
  | inr a => ret a
  end.

Section Commands.

(** [JSON.parse] is the platform's; [None] stands for a [SyntaxError]. *)
Variable JSON_parse : string -> option json.
Variable config : rc.
Variable u : user.

Definition parse (text : string) : M json :=
  match JSON_parse text with
  | Some v => ret v
  | None => throw SyntaxError
  end.

(** [getSecretsClient({ region })(secretName)]: the secret, parsed. *)
Definition secretsClient (region secretName : string) : M json :=
  payload ← fetch region secretName;
  parse payload.

Definition confirm (q : question) : M bool := ret (answer u q).
Definition input (q : text_question) : M string := ret (typed u q).

Definition credentials_help (e : error) : M unit :=
  match e with
  | CredentialsProviderError => print LogCredentialsHelp
  | _ => ret tt
  end.

(** The names both [awsCommand] and [deleteSecret] resolve from their
    options, the process configuration and the built-in defaults. *)
Definition environment_of (options : aws_options) : string :=
  default "local" (o_env options ||| NODE_ENV config).

Definition packageName_of (options : aws_options) : option string :=
  o_packageName options ||| rc_packageName config.

Definition configDir_of (options : aws_options) : string :=
  default "./config" (o_configDir options ||| rc_configDirPath config).

Definition region_of (options : aws_options) : string :=
  default "us-east-1" (o_region options ||| rc_awsRegion config).

Definition secretName_of (packageName environment : string) : string :=
  packageName +:+ "/" +:+ environment.

(** *** [deleteSecret] *)

(** "Are you sure you want to delete secret ...?", skipped when the
    [confirm] option is [false]. *)
Definition delete_confirmation (secretName : string) (options : aws_options) : M bool :=
  match o_confirm options with
  | Some false => ret false
  | _ => confirm (AskDeleteSecret secretName)
  end.

(** [forceDelete] and [recoveryWindow], from the options or the prompts. *)
Definition deletion_choice (options : aws_options) : M (bool * option Z) :=
  match o_days options with
  | Some days =>
      if (days <? 7)%Z || (days >? 30)%Z
      then print ErrInvalidRecoveryWindow;; throw InvalidRecoveryWindow
      else ret (o_force options, Some days)
  | None =>
      if o_force options then ret (true, None)
      else
        forceDeletion ← confirm AskForceDeletion;
        if forceDeletion then ret (true, None)
        else ret (false, Some (typed_days u))
  end.

Definition deleteParams (secretName : string) (choice : bool * option Z) : command :=
  DeleteSecretCommand secretName
    (if fst choice then ForceDeleteWithoutRecovery
     else RecoveryWindowInDays (snd choice)).

Definition send_deletion (region secretName : string) (choice : bool * option Z) : M unit :=
  response ← send region (deleteParams secretName choice);
  print (LogDeletionInitiated secretName);;
  match response with
  | Some date => print (LogScheduledDeletion date)
  | None => print LogDeletedImmediately
  end.

(** The [catch] block of [deleteSecret]. *)
Definition delete_failed (secretName : string) (error : error) : M unit :=
  match error with
  | ResourceNotFoundException => print (ErrSecretNotFound secretName)
  | _ => print (ErrFailedToDelete error);; credentials_help error
  end;;
  throw error.

Definition deleteSecret (environment : string) (options : aws_options) : M unit :=
  match packageName_of options with
  | None => print ErrPackageNameRequired;; throw PackageNameNotProvided
  | Some packageName =>
      let secretName := secretName_of packageName environment in
      let region := region_of options in
      try_catch
        (deleteConfirmed ← delete_confirmation secretName options;
         if negb deleteConfirmed then print LogOperationCancelled
         else
           choice ← deletion_choice options;
           send_deletion region secretName choice)
        (delete_failed secretName)
  end.

(** *** [awsCommand] *)

Definition push (configDir environment region secretName : string)
    (options : aws_options) : M unit :=
  let file := environment +:+ ".json" in
  configData ←
    try_catch (readFile configDir file)
      (fun error => print (ErrLocalConfigNotFound configDir file);; throw error);
  try_catch
    (send region (CreateSecretCommand secretName configData);;
     print (LogPushed secretName))
    (fun error =>
       match error with
       | ResourceExistsException =>
           let update :=
             send region (UpdateSecretCommand secretName configData);;
             print LogUpdatedExisting in
           if negb (o_override options) then
             shouldOverride ← confirm (AskOverrideSecret secretName);
             if negb shouldOverride then print LogOperationCancelled
             else update
           else update
       | _ => throw error
       end).

Definition pull (configDir environment region secretName : string)
    (options : aws_options) : M unit :=
  let file := environment +:+ ".json" in
  try_catch
    (secrets ← secretsClient region secretName;
     let write :=
       writeFile configDir file (Json.pretty secrets);;
       print (LogPulled configDir file) in
     if negb (o_override options) then
       present ← try_catch (access configDir file;; ret true) (fun _ => ret false);
       if present then
         shouldOverride ← confirm (AskOverrideLocal environment);
         if negb shouldOverride then print LogOperationCancelled
         else write
       else write
     else write)
    (fun error => print (ErrFailedToPull error);; throw error).

(** [prefer === 'local' ? { ...awsConfig, ...localConfig }
                        : { ...localConfig, ...awsConfig }] *)
Definition merge (prefer : string) (localConfig awsConfig : json) : obj :=
  if String.eqb prefer "local"
  then Obj.spread (Obj.spread [] awsConfig) localConfig
  else Obj.spread (Obj.spread [] localConfig) awsConfig.

Definition sync (configDir environment region secretName : string)
    (options : aws_options) : M unit :=
  let prefer := default "local" (truthy (o_prefer options)) in
  let file := environment +:+ ".json" in
  print (LogSyncing prefer);;
  localConfig ←
    try_catch (content ← readFile configDir file; parse content)
      (fun _ => print LogNoLocalConfig;; ret (JObj []));
  awsConfig ←
    try_catch (secretsClient region secretName)
      (fun _ => print LogNoAwsSecret;; ret (JObj []));
  let merged := merge prefer localConfig awsConfig in
  writeFile configDir file (Json.pretty (JObj merged));;
  try_catch
    (send region (UpdateSecretCommand secretName (Json.stringify (JObj merged)));;
     ret tt)
    (fun error =>
       match error with
       | ResourceNotFoundException =>
           send region (CreateSecretCommand secretName (Json.stringify (JObj merged)));;
           ret tt
       | _ => throw error
       end);;
  print (LogSynced configDir file secretName).

Definition awsCommand (action : string) (options : aws_options) : M unit :=
  let environment := environment_of options in
  match packageName_of options with
  | None => print ErrPackageNameRequired;; throw PackageNameNotProvided
  | Some packageName =>
      let configDir := configDir_of options in
      let region := region_of options in
      let secretName := secretName_of packageName environment in
      try_catch
        (if String.eqb action "push"
         then push configDir environment region secretName options
         else if String.eqb action "pull"
         then pull configDir environment region secretName options
         else if String.eqb action "sync"
         then sync configDir environment region secretName options
         else if String.eqb action "delete"
         then deleteSecret environment options
         else throw (UnknownAction action))
        (fun error =>
           print (ErrAwsOperationFailed error);;
           credentials_help error;;
           throw error)
  end.

(** The options objects [envCommand] builds for its calls of
    [awsCommand]. *)
Definition push_options (name : string) : aws_options :=
  AwsOptions (Some name) None None None false None false None None.

Definition delete_options (name : string) (options : env_options) : aws_options :=
  AwsOptions (Some name) None None None false None
             (e_force options) (e_days options) None.

(** *** [envCommand] *)

Definition has_packageName : bool :=
  match truthy (rc_packageName config) with
  | Some _ => true
  | None => false
  end.

Definition env_create (configDir : string) (name : option string)
    (options : env_options) : M unit :=
  name ← match truthy name with
         | Some n => ret n
         | None => input AskEnvironmentName
         end;
  let file := name +:+ ".json" in
  present ← try_catch (access configDir file;; ret true) (fun _ => ret false);
  if present then print (ErrEnvironmentExists name)
  else
    configData ←
      match truthy (e_from options) with
      | Some from =>
          try_catch
            (templateContent ← readFile configDir (from +:+ ".json");
             template ← parse templateContent;
             print (LogUsingTemplate from);;
             ret (Obj.set "environment" (JStr name) (Obj.spread [] template)))
            (fun _ => print (ErrTemplateNotFound from);; throw TemplateNotFound)
      | None => ret [("environment", JStr name)]
      end;
    mkdir configDir;;
    writeFile configDir file (Json.pretty (JObj configData));;
    print (LogCreatedEnvironment name);;
    if e_withAws options && has_packageName
    then awsCommand "push" (push_options name)
    else ret tt.

Definition env_list (configDir : string) (options : env_options) : M unit :=
  files ← readdir configDir;
  let envs := environments_of files in
  print LogEnvironments;;
  for_each envs (fun env =>
    match truthy (rc_packageName config) with
    | Some packageName =>
        if e_showAws options then
          let secretName := secretName_of packageName env in
          let region := default "us-east-1" (truthy (rc_awsRegion config)) in
          found ← try_catch (secretsClient region secretName;; ret true)
                            (fun _ => ret false);
          print (LogEnvironment env (Some found))
        else print (LogEnvironment env None)
    | None => print (LogEnvironment env None)
    end).

Definition env_delete (configDir : string) (name : option string)
    (options : env_options) : M unit :=
  name ← match truthy name with
         | Some n => ret n
         | None => input AskEnvironmentToDelete
         end;
  confirmed ← confirm (AskDeleteEnvironment name);
  if negb confirmed then print LogCancelled
  else
    unlink configDir (name +:+ ".json");;
    print (LogDeletedEnvironment name);;
    if e_withAws options && has_packageName
    then awsCommand "delete" (delete_options name options)
    else ret tt.

Definition envCommand (action : string) (name : option string)
    (options : env_options) : M unit :=
  let configDir :=
    default "./config" (e_configDir options ||| rc_configDirPath config) in
  try_catch
    (if String.eqb action "create" then env_create configDir name options
     else if String.eqb action "list" then env_list configDir options
     else if String.eqb action "delete" then env_delete configDir name options
     else throw (UnknownAction action))
    (fun error => print (ErrEnvironmentOperationFailed error);; throw error).

(** *** [createEnvironment], the legacy form of [envCommand] *)

Definition createEnvironment (action : string) (name : option string)
    (options : legacy_options) : M unit :=
  let configDir := l_configDir options in
  try_catch
    (if String.eqb action "create" then
       name ← match truthy name with
              | Some n => ret n
              | None => input AskEnvironmentNameLegacy
              end;
       configData ←
         match truthy (l_template options) with
         | Some template =>
             templateData ← readFile configDir (template +:+ ".json");
             parsed ← parse templateData;
             ret (Obj.set "environment" (JStr name) (Obj.spread [] parsed))
         | None => ret [("environment", JStr name)]
         end;
       writeFile configDir (name +:+ ".json") (Json.pretty (JObj configData));;
       print (LogCreatedEnvironment name);;
       match truthy (rc_packageName config) with
       | Some packageName =>
           if l_withSecrets options
           then print (LogSecretNameNote (secretName_of packageName name))
           else ret tt
       | None => ret tt
       end
     else if String.eqb action "list" then
       files ← readdir configDir;
       let envs := environments_of files in
       print LogEnvironments;;
       for_each envs (fun env => print (LogEnvironment env None))
     else if String.eqb action "delete" then
       name ← match truthy name with
              | Some n => ret n
              | None => input AskEnvironmentToDeleteLegacy
              end;
       confirmed ← confirm (AskDeleteEnvironmentLegacy name);
       if confirmed then
         unlink configDir (name +:+ ".json");;
         print (LogDeletedEnvironment name)
       else ret tt
     else print (ErrUnknownAction action))
    (fun error => print (ErrFailedToManageEnvironment error);; throw error).

(** *** [setConfig] and [applyConfigValue] *)

(** "Parse value if it looks like JSON". *)
Definition parsedValue (value : option string) : option json :=
  match value with
  | None => None
  | Some s =>
      if negb (String.eqb s "") && (Str.startsWith "{" s || Str.startsWith "[" s)
      then match JSON_parse s with
           | Some v => Some v
           | None => Some (JStr s)
           end
      else Some (JStr s)
  end.

Definition applyConfigValue (key : string) (value : option string)
    (env target configDir : string) : M unit :=
  (if String.eqb target "local" || String.eqb target "both" then
     let file := env +:+ ".json" in
     configData ←
       try_catch (existing ← readFile configDir file; parse existing)
         (fun _ => ret (JObj []));
     configData ← lift (assign key (parsedValue value) configData);
     writeFile configDir file (Json.pretty configData)
   else ret tt);;
  (if String.eqb target "aws" || String.eqb target "both" then
     match truthy (rc_packageName config) with
     | None => throw PackageNameRequired
     | Some packageName =>
         let secretName := secretName_of packageName env in
         let region := default "us-east-1" (truthy (rc_awsRegion config)) in
         try_catch
           (existingSecrets ← secretsClient region secretName;
            existingSecrets ← lift (assign key (JStr <$> value) existingSecrets);
            send region (UpdateSecretCommand secretName (Json.stringify existingSecrets));;
            ret tt)
           (fun error =>
              match error with
              | ResourceNotFoundException =>
                  let fresh := match value with
                               | Some s => [(key, JStr s)]
                               | None => []
                               end in
                  send region (CreateSecretCommand secretName (Json.stringify (JObj fresh)));;
                  ret tt
              | _ => throw error
              end)
     end
   else ret tt).

(** The [configs] object filled by the interactive loop: it stops at
    the first empty key. *)
Fixpoint interactive_configs (typed : list (string * string)) (configs : obj) : obj :=
  match typed with
  | [] => configs
  | (k, v) :: typed' =>
      if String.eqb k "" then configs
      else interactive_configs typed' (Obj.set k (JStr v) configs)
  end.

Definition setConfig (key value : option string) (options : set_options) : M unit :=
  let env := default "local" (s_env options ||| NODE_ENV config) in
  let target := default "local" (truthy (s_target options)) in
  let configDir :=
    default "./config" (s_configDir options ||| rc_configDirPath config) in
  try_catch
    ((if s_interactive options then
        let configs := interactive_configs (typed_entries u) [] in
        for_each configs (fun kv =>
          applyConfigValue (fst kv) (Some (Json.to_text (snd kv))) env target configDir)
      else
        match truthy key with
        | None => throw KeyRequired
        | Some key => applyConfigValue key value env target configDir
        end);;
     print (LogConfigurationUpdated env))
    (fun error => print (ErrFailedToSet error);; throw error).

End Commands.

(* ===================================================================== *)
(** ** The vocabulary of the specification                               *)
(* ===================================================================== *)

(** The [KEY=value] projection in the words of the specification, with
    notions of its own: the letters are the fifty-two it lists, a number
    is written by its decimal digits, the lines are set one under the
    other.  Only the compact JSON text of a value that is not a scalar is
    the one of [Json.stringify]. *)
Module Projection.

Definition capitals : string := "ABCDEFGHIJKLMNOPQRSTUVWXYZ".
Definition smalls : string := "abcdefghijklmnopqrstuvwxyz".

Fixpoint among (c : ascii) (letters : string) : bool :=
  match letters with
  | "" => false
  | String a letters' => Ascii.eqb c a || among c letters'
  end.

(** The letter of [into] at the place [c] has in [from], or [c] itself. *)
Fixpoint paired (c : ascii) (from into : string) : ascii :=
  match from, into with
  | String a from', String b into' =>
      if Ascii.eqb c a then b else paired c from' into'
  | _, _ => c
  end.

Definition is_capital (c : ascii) : bool := among c capitals.
Definition to_capital (c : ascii) : ascii := paired c smalls capitals.

(** "Each uppercase letter of the key is prefixed with an underscore ..." *)
Fixpoint prefix_capitals (key : string) : string :=
  match key with
  | "" => ""
  | String c key' =>
      if is_capital c then String "_" (String c (prefix_capitals key'))
      else String c (prefix_capitals key')
  end.

(** "... before uppercasing the whole key." *)
Fixpoint uppercase (s : string) : string :=
  match s with
  | "" => ""
  | String c s' => String (to_capital c) (uppercase s')
  end.

Definition upper_snake_case (key : string) : string :=
  uppercase (prefix_capitals key).

(** The decimal numeral of a natural number, from its last digit to its
    first; [more] bounds the digits that may still come. *)
Definition digit (d : N) : ascii := ascii_of_N (48 + d).

Fixpoint numeral (more : nat) (n : N) (rest : string) : string :=
  let rest' := String (digit (n mod 10)) rest in
  match more with
  | 0 => rest'
  | S more' => if (n <? 10)%N then rest' else numeral more' (n / 10) rest'
  end.

Definition decimal (n : Z) : string :=
  if (n <? 0)%Z then String "-" (numeral 20 (Z.abs_N n) "")
  else numeral 20 (Z.abs_N n) "".

(** A text that starts with a character other than the digit zero. *)
Definition headed (s : string) : Prop :=
  exists c rest, s = String c rest /\ c <> "0"%char.

Definition is_scalar (v : json) : bool :=
  match v with
  | JArr _ | JObj _ => false
  | JNull | JBool _ | JNum _ | JStr _ => true
  end.

Definition literal (v : json) : string :=
  match v with
  | JNull => "null"
  | JBool true => "true"
  | JBool false => "false"
  | JNum n => decimal n
  | JStr s => s
  | JArr _ | JObj _ => ""
  end.

Definition line (kv : string * json) : string :=
  upper_snake_case (fst kv) +:+ "=" +:+
  (if is_scalar (snd kv) then literal (snd kv) else Json.stringify (snd kv)).

Definition newline : string := String "010"%char "".

Fixpoint lines (ls : list string) : string :=
  match ls with
  | [] => ""
  | l :: ls' =>
      match ls' with
      | [] => l
      | _ :: _ => l +:+ newline +:+ lines ls'
      end
  end.

Definition toEnvFormat (doc : obj) : string := lines (map line doc).

(** The documents the embedding follows the program on: keys of ASCII
    characters, where [toUpperCase] changes the letters a to z only, and
    integers every one of which is a number of the program and is printed
    by its digits. *)
Definition ascii_key (key : string) : bool :=
  forallb (fun c => Nat.ltb (nat_of_ascii c) 128) (list_ascii_of_string key).

Definition max_safe_integer : Z := 9007199254740991.

Fixpoint safe_numbers (v : json) : bool :=
  match v with
  | JNull | JBool _ | JStr _ => true
  | JNum n => (Z.abs n <=? max_safe_integer)%Z
  | JArr l =>
      (fix items (l : list json) : bool :=
         match l with
         | [] => true
         | x :: l' => safe_numbers x && items l'
         end) l
  | JObj o =>
      (fix props (o : obj) : bool :=
         match o with
         | [] => true
         | (_, x) :: o' => safe_numbers x && props o'
         end) o
  end.

Definition in_range (doc : obj) : bool :=
  forallb (fun kv => ascii_key (fst kv) && safe_numbers (snd kv)) doc.

End Projection.

(** [path.resolve(p)] on a POSIX system, in a process whose working
    directory is [cwd].  The commands look a directory up under the text
    they are given; [resolve] tells when two texts name one directory. *)
Module Path.

(** What stands between the slashes of a path. *)
Fixpoint segments_from (p : string) (current : string) : list string :=
  match p with
  | "" => [current]
  | String c p' =>
      if Ascii.eqb c "/" then current :: segments_from p' ""
      else segments_from p' (current +:+ String c "")
  end.

Definition segments (p : string) : list string := segments_from p "".

(** Empty segments and [.] are dropped, [..] drops the segment before it;
    [kept] holds the segments kept so far, the last one first. *)
Fixpoint normalize (segs kept : list string) : list string :=
  match segs with
  | [] => rev kept
  | seg :: segs' =>
      if String.eqb seg "" || String.eqb seg "." then normalize segs' kept
      else if String.eqb seg ".." then normalize segs' (tl kept)
      else normalize segs' (seg :: kept)
  end.

Definition absolute (p : string) : bool := Str.startsWith "/" p.

Definition resolve (cwd p : string) : string :=
  let full := if absolute p then p else cwd +:+ "/" +:+ p in
  "/" +:+ Str.join "/" (normalize (segments full) []).

End Path.

(* ===================================================================== *)
(** ** Running a command                                                 *)
(* ===================================================================== *)

(** [runs m w r w']: started in [w], the command [m] ends with the result
    [r] in the world [w']. *)
Definition runs {A : Type} (m : M A) (w : world) (r : error + A) (w' : world) : Prop :=
  m w = (r, w').

Definition with_files (f : gmap string (gmap string string)) (w : world) : world :=
  World f (secrets w) (credentials w) (clock w) (sent w) (console w).

Definition with_secrets (s : gmap (string * string) secret) (w : world) : world :=
  World (files w) s (credentials w) (clock w) (sent w) (console w).

Definition sending (r : request) (w : world) : world :=
  World (files w) (secrets w) (credentials w) (clock w) (sent w ++ [r]) (console w).

Definition printing (msg : message) (w : world) : world :=
  World (files w) (secrets w) (credentials w) (clock w) (sent w) (console w ++ [msg]).

(** The two documents a [sync] starts from: what the local file and the
    remote secret hold, each an empty mapping when it is absent or cannot
    be read as JSON. *)
Definition local_document (JSON_parse : string -> option json)
    (w : world) (dir file : string) : json :=
  match files w !! dir with
  | Some d =>
      match d !! file with
      | Some content => default (JObj []) (JSON_parse content)
      | None => JObj []
      end
  | None => JObj []
  end.

Definition remote_document (JSON_parse : string -> option json)
    (w : world) (region name : string) : json :=
  match secrets w !! (region, name) with
  | Some (Secret payload None) => default (JObj []) (JSON_parse payload)
  | _ => JObj []
  end.

(** [preserves f m]: the command [m] never changes the component [f] of
    the world, whatever its outcome. *)
Definition preserves {A X : Type} (f : world -> X) (m : M A) : Prop :=
  forall w, f (snd (m w)) = f w.

(** The environment names among the lines printed on the console. *)
Definition printed_environments (msgs : list message) : list string :=
  flat_map (fun msg => match msg with
                       | LogEnvironment name _ => [name]
                       | _ => []
                       end) msgs.

(** The names in the configuration directory of a world. *)
Definition directory_listing (w : world) (configDir : string) : list string :=
  match files w !! configDir with
  | Some d => map fst (map_to_list d)
  | None => []
  end.

(** The content of a file of the world, when the file exists. *)
Definition file_of (w : world) (dir file : string) : option string :=
  match files w !! dir with
  | Some d => d !! file
  | None => None
  end.

(** [s.includes(pat)]: [pat] starts at some position of [s]. *)
Fixpoint includes (pat s : string) : bool :=
  String.prefix pat s ||
  match s with
  | "" => false
  | String _ s' => includes pat s'
  end.

(** The order in which JavaScript enumerates the keys of an object: the
    array indices first, ascending, then the other keys. *)
Module Order.

Fixpoint pow10 (n : nat) : N :=
  match n with
  | 0 => 1
  | S n' => 10 * pow10 n'
  end.

(** [k'] may come somewhere after [k]. *)
Definition follows (k k' : string) : bool :=
  match Obj.array_index k, Obj.array_index k' with
  | Some i, Some j => (i <? j)%N
  | Some _, None => true
  | None, Some _ => false
  | None, None => true
  end.

Fixpoint ordered (ks : list string) : bool :=
  match ks with
  | [] => true
  | k :: ks' => forallb (follows k) ks' && ordered ks'
  end.

End Order.

(* ===================================================================== *)
(** ** The commands that report in words of their own                    *)
(* ===================================================================== *)

(** The output of [mergeConfigs], applied to the [merged] document the
    [mysterio] library returned: with [output === 'env'] one
    [KEY=<JSON text>] line per entry, the key uppercased as it is, and the
    indented JSON text otherwise. *)
Definition merged_output (output : option string) (merged : json) : error + string :=
  match output with
  | Some "env" =>
      match merged with
      | JNull => inl TypeError
      | _ =>
          inr (Str.join Str.NL
                 (map (fun kv => Str.toUpperCase (fst kv) +:+ "="
                                 +:+ Json.stringify (snd kv))
                      (Obj.entries merged)))
      end
  | _ => inr (Json.pretty merged)
  end.

(** [initMysterio] and [createSecret] print reports the commands above do
    not print, ask questions of their own and raise one more error.  They
    act on the same [world]; what they print goes to a log of their
    own. *)
Inductive failure : Type :=
| Thrown (e : error)
| InitialValuesNotJSON.          (* "Initial values must be valid JSON" *)

Inductive report : Type :=
| Said (m : message)             (* a report of the commands above *)
| LogInitialized (packageName configDir : string) (environments : list string)
| ErrFailedToInitialize (e : failure)
| LogUsingConfig (dir file : string)
| ErrInvalidInitialValues
| LogSecretCreated (secretName region : string)
| ErrSecretExists (secretName : string)
| LogSecretUpdated (secretName region : string)
| LogCreatedLocalConfig (dir file : string)
| ErrFailedToCreateSecret (e : failure).

Inductive prompt : Type :=
| AskUseConfig (environment : string)
| AskOverrideExisting (secretName : string)
| AskCreateLocalConfig (environment : string).

(** The answers at these prompts, and the package name entered at the
    prompt of [initMysterio]. *)
Record replies : Type := Replies {
  agrees : prompt -> bool;
  entered_packageName : string
}.

Module Told.

Definition scene : Type := world * list report.

Definition T (A : Type) : Type := scene -> (failure + A) * scene.

Definition ret {A : Type} (a : A) : T A := fun s => (inr a, s).

Definition bind {A B : Type} (m : T A) (k : A -> T B) : T B := fun s =>
  match m s with
  | (inl e, s') => (inl e, s')
  | (inr a, s') => k a s'
  end.

Definition throw {A : Type} (e : failure) : T A := fun s => (inl e, s).

Definition try_catch {A : Type} (m : T A) (h : failure -> T A) : T A := fun s =>
  match m s with
  | (inl e, s') => h e s'
  | (inr a, s') => (inr a, s')
  end.

Definition print (r : report) : T unit := fun s =>
  (inr tt, (fst s, snd s ++ [r])%list).

(** A call into the file system or the secret store. *)
Definition call {A : Type} (m : M A) : T A := fun s =>
  match m (fst s) with
  | (inl e, w) => (inl (Thrown e), (w, snd s))
  | (inr a, w) => (inr a, (w, snd s))
  end.

Fixpoint for_each {A : Type} (xs : list A) (body : A -> T unit) : T unit :=
  match xs with
  | [] => ret tt
  | x :: xs' => bind (body x) (fun _ => for_each xs' body)
  end.

End Told.

Declare Scope told_scope.
Delimit Scope told_scope with told.
Notation "x ← y ; z" := (Told.bind y (fun x => z))
  (at level 20, y at level 100, z at level 200, only parsing) : told_scope.
Notation "x ;; z" := (Told.bind x (fun _ => z))
  (at level 100, z at level 200, only parsing, right associativity) : told_scope.

(** The options of [mysterio init]. *)
Record init_options : Type := InitOptions {
  i_packageName : option string;
  i_configDir : string;
  i_environments : list string;
  i_awsRegion : option string
}.

(** The options of [createSecret]; [initialValues] is a text, as the
    command line gives it. *)
Record secret_options : Type := SecretOptions {
  c_packageName : option string;
  c_region : option string;
  c_configDir : option string;
  c_initialValues : option string;
  c_confirm : option bool
}.

(** An object literal whose [undefined] properties [JSON.stringify]
    leaves out. *)
Definition defined (props : list (string * option json)) : obj :=
  omap (fun kv => match snd kv with
                  | Some v => Some (fst kv, v)
                  | None => None
                  end) props.

(** The directory relative paths start from. *)
Definition cwd : string := ".".

Section Reporting.

Variable JSON_parse : string -> option json.
Variable config : rc.
Variable u : replies.

Local Open Scope told_scope.

Definition ask (q : prompt) : Told.T bool := Told.ret (agrees u q).

(** The document [initMysterio] writes for one environment. *)
Definition defaultConfig (env : string) : json :=
  JObj [("environment", JStr env); ("debug", JBool (String.eqb env "local"))].

Definition initMysterio (options : init_options) : Told.T unit :=
  let packageName :=
    match truthy (i_packageName options) with
    | Some p => p
    | None => entered_packageName u
    end in
  let configDir := i_configDir options in
  Told.try_catch
    (Told.call (mkdir configDir);;
     Told.for_each (i_environments options) (fun env =>
       Told.call (writeFile configDir (env +:+ ".json")
                    (Json.pretty (defaultConfig env))));;
     Told.call (writeFile configDir "default.json"
                  (Json.pretty
                     (JObj (defined [("packageName", Some (JStr packageName));
                                     ("region", JStr <$> i_awsRegion options)]))));;
     Told.call (writeFile cwd ".mysteriorc"
                  (Json.pretty
                     (JObj (defined [("packageName", Some (JStr packageName));
                                     ("configDirPath", Some (JStr configDir));
                                     ("awsRegion", JStr <$> i_awsRegion options)]))));;
     Told.print (LogInitialized packageName configDir (i_environments options)))
    (fun error => Told.print (ErrFailedToInitialize error);; Told.throw error).

(** The initial value of the secret: the [initialValues] option when it
    is JSON, and otherwise the local document when there is one and it is
    to be used. *)
Definition initial_value (environment configDir : string)
    (options : secret_options) : Told.T string :=
  let file := environment +:+ ".json" in
  match truthy (c_initialValues options) with
  | None =>
      Told.try_catch
        (Told.call (access configDir file);;
         useConfig ← match c_confirm options with
                     | Some false => Told.ret true
                     | _ => ask (AskUseConfig environment)
                     end;
         if (useConfig : bool) then
           configContent ← Told.call (readFile configDir file);
           Told.print (LogUsingConfig configDir file);;
           Told.ret configContent
         else Told.ret "{}")
        (fun _ => Told.ret "{}")
  | Some text =>
      match JSON_parse text with
      | Some _ => Told.ret text
      | None =>
          Told.print ErrInvalidInitialValues;;
          Told.throw InitialValuesNotJSON
      end
  end.

(** Creating the secret, or updating the one that exists; the answer is
    [false] when the command returns at the declined override. *)
Definition create_or_override (region secretName secretValue : string)
    (options : secret_options) : Told.T bool :=
  Told.try_catch
    (Told.call (send region (CreateSecretCommand secretName secretValue));;
     Told.print (LogSecretCreated secretName region);;
     Told.ret true)
    (fun error =>
       match error with
       | Thrown ResourceExistsException =>
           match c_confirm options with
           | Some false =>
               Told.print (ErrSecretExists secretName);;
               Told.throw error
           | _ =>
               override ← ask (AskOverrideExisting secretName);
               if negb override then
                 Told.print (Said LogOperationCancelled);;
                 Told.ret false
               else
                 Told.call (send region (UpdateSecretCommand secretName secretValue));;
                 Told.print (LogSecretUpdated secretName region);;
                 Told.ret true
           end
       | _ => Told.throw error
       end).

(** The local document offered once the secret is stored. *)
Definition offer_local_config (environment configDir : string)
    (options : secret_options) : Told.T unit :=
  let file := environment +:+ ".json" in
  Told.try_catch (Told.call (access configDir file))
    (fun _ =>
       match c_confirm options with
       | Some false => Told.ret tt
       | _ =>
           createConfig ← ask (AskCreateLocalConfig environment);
           if (createConfig : bool) then
             Told.call (mkdir configDir);;
             Told.call (writeFile configDir file
                          (Json.pretty (JObj [("environment", JStr environment)])));;
             Told.print (LogCreatedLocalConfig configDir file)
           else Told.ret tt
       end).

Definition createSecret (environment : string) (options : secret_options) : Told.T unit :=
  match c_packageName options ||| rc_packageName config with
  | None =>
      Told.print (Said ErrPackageNameRequired);;
      Told.throw (Thrown PackageNameNotProvided)
  | Some packageName =>
      let secretName := secretName_of packageName environment in
      let region := default "us-east-1" (c_region options ||| rc_awsRegion config) in
      let configDir :=
        default "./config" (c_configDir options ||| rc_configDirPath config) in
      Told.try_catch
        (secretValue ← initial_value environment configDir options;
         stored ← create_or_override region secretName secretValue options;
         if (stored : bool) then offer_local_config environment configDir options
         else Told.ret tt)
        (fun error =>
           match error with
           | Thrown ResourceExistsException => Told.ret tt
           | Thrown CredentialsProviderError =>
               Told.print (ErrFailedToCreateSecret error);;
               Told.print (Said LogCredentialsHelp)
           | _ => Told.print (ErrFailedToCreateSecret error)
           end;;
           Told.throw error)
  end.

End Reporting.

(** [tells m s r s']: started in the scene [s], the command [m] ends
    with the result [r] in the scene [s']. *)
Definition tells {A : Type} (m : Told.T A) (s : Told.scene)
    (r : failure + A) (s' : Told.scene) : Prop :=
  m s = (r, s').

(** The directory [d] once [initMysterio] has written the documents of
    the environments [envs] into it, in that order. *)
Definition environment_documents (envs : list string) (d : gmap string string)
    : gmap string string :=
  fold_left (fun d env => <[env +:+ ".json" := Json.pretty (defaultConfig env)]> d)
            envs d.

(* ===================================================================== *)
(** ** A small project, for the examples                                 *)
(* ===================================================================== *)

Module Example.

(** [.mysteriorc] names the package; everything else is defaulted. *)
Definition project : rc := Rc (Some "app") None None None.

Definition declines : user := User (fun _ => false) (fun _ => "qa") 7 [].
Definition accepts : user := User (fun _ => true) (fun _ => "qa") 7 [].

Definition local_doc : json := JObj [("x", JNum 1); ("y", JNum 2)].
Definition remote_doc : json := JObj [("y", JNum 9); ("z", JNum 3)].
Definition default_doc : json := JObj [("packageName", JStr "app")].

Definition config_dir : gmap string string :=
  {[ "default.json" := Json.pretty default_doc;
     "staging.json" := Json.pretty local_doc ]}.

(** [staging] exists on both sides, with different contents. *)
Definition diverged : world :=
  World {[ "./config" := config_dir ]}
        {[ ("us-east-1", "app/staging") := Secret (Json.stringify remote_doc) None ]}
        true 0 [] [].

Definition staging : aws_options :=
  AwsOptions (Some "staging") None None None false None false None None.

Definition plain : env_options := EnvOptions None None false false false None.

End Example.

(* ===================================================================== *)
(** ** Objects: lookup after assignment and spread                       *)
(* ===================================================================== *)

Module ObjFacts.
Import Obj.

Lemma has_true k o : has k o = true <-> exists v, get k o = Some v.
Proof.
  unfold has. destruct (get k o) as [v|]; split; eauto; try discriminate.
  intros [v Hv]; discriminate.
Qed.

Lemma has_false k o : has k o = false <-> get k o = None.
Proof. unfold has. destruct (get k o); split; congruence. Qed.

Lemma get_update_eq k v o : has k o = true -> get k (update k v o) = Some v.
Proof.
  unfold has. induction o as [|[k' v'] o IH]; simpl; [discriminate|].
  destruct (String.eqb_spec k k') as [->|Hne]; simpl.
  - now rewrite String.eqb_refl.
  - intros H. destruct (String.eqb_spec k k'); [contradiction|]. now apply IH.
Qed.

Lemma get_update_ne k k' v o : k' <> k -> get k' (update k v o) = get k' o.
Proof.
  intros Hne. induction o as [|[k0 v0] o IH]; simpl; [reflexivity|].
  destruct (String.eqb_spec k k0) as [->|Hk]; simpl.
  - destruct (String.eqb_spec k' k0); [contradiction | reflexivity].
  - now rewrite IH.
Qed.

Lemma get_insert_index_eq i k v o :
  get k o = None -> get k (insert_index i k v o) = Some v.
Proof.
  induction o as [|[k0 v0] o IH]; simpl.
  - now rewrite String.eqb_refl.
  - destruct (String.eqb_spec k k0) as [->|Hk]; [discriminate|]. intros Hget.
    destruct (array_index k0) as [j|]; [destruct (j <? i)%N|]; simpl;
      rewrite ?String.eqb_refl; try reflexivity.
    destruct (String.eqb_spec k k0); [contradiction | now apply IH].
Qed.

Lemma get_insert_index_ne i k k' v o :
  k' <> k -> get k' (insert_index i k v o) = get k' o.
Proof.
  intros Hne. induction o as [|[k0 v0] o IH]; simpl.
  - destruct (String.eqb_spec k' k); [contradiction | reflexivity].
  - destruct (array_index k0) as [j|]; [destruct (j <? i)%N|]; simpl;
      try (destruct (String.eqb_spec k' k); [contradiction | reflexivity]).
    now rewrite IH.
Qed.

Lemma get_snoc k k' v o :
  get k' (o ++ [(k, v)]) =
  match get k' o with
  | Some x => Some x
  | None => if String.eqb k' k then Some v else None
  end.
Proof.
  induction o as [|[k0 v0] o IH]; simpl; [reflexivity|].
  now destruct (String.eqb k' k0).
Qed.

(** Reading a property after an assignment. *)
Lemma get_set k k' v o :
  get k' (set k v o) = if String.eqb k' k then Some v else get k' o.
Proof.
  unfold set. destruct (has k o) eqn:Hhas.
  - destruct (String.eqb_spec k' k) as [->|Hne].
    + now apply get_update_eq.
    + now apply get_update_ne.
  - apply has_false in Hhas.
    destruct (String.eqb_spec k' k) as [->|Hne].
    + destruct (array_index k).
      * now apply get_insert_index_eq.
      * rewrite get_snoc, Hhas. now rewrite String.eqb_refl.
    + destruct (array_index k).
      * now apply get_insert_index_ne.
      * rewrite get_snoc. destruct (get k' o); [reflexivity|].
        destruct (String.eqb_spec k' k); [contradiction | reflexivity].
Qed.

Lemma get_set_eq k v o : get k (set k v o) = Some v.
Proof. rewrite get_set. now rewrite String.eqb_refl. Qed.

Lemma get_set_ne k k' v o : k' <> k -> get k' (set k v o) = get k' o.
Proof.
  intros Hne. rewrite get_set.
  destruct (String.eqb_spec k' k); [contradiction | reflexivity].
Qed.

Lemma get_not_key k o : existsb (String.eqb k) (keys o) = false -> get k o = None.
Proof.
  induction o as [|[k0 v0] o IH]; simpl; [reflexivity|].
  destruct (String.eqb k k0); simpl; [discriminate | exact IH].
Qed.

(** Adding the entries [es] one by one: each key of [es] ends with the
    value [es] gives it, every other key keeps the value of [target]. *)
Lemma get_fold_set k es : forall target,
  distinct (keys es) = true ->
  get k (fold_left (fun acc kv => set (fst kv) (snd kv) acc) es target) =
  match get k es with
  | Some x => Some x
  | None => get k target
  end.
Proof.
  induction es as [|[k0 v0] es IH]; intros target Hd; simpl in *; [reflexivity|].
  apply andb_prop in Hd as [Hfresh Hd]. apply negb_true_iff in Hfresh.
  rewrite IH by assumption. rewrite get_set.
  destruct (String.eqb_spec k k0) as [->|Hne].
  - now rewrite (get_not_key _ _ Hfresh).
  - reflexivity.
Qed.

Lemma has_fold_set k es : forall target,
  has k (fold_left (fun acc kv => set (fst kv) (snd kv) acc) es target) =
  has k es || has k target.
Proof.
  induction es as [|[k0 v0] es IH]; intros target; simpl; [reflexivity|].
  rewrite IH. unfold has at 2 3 4. rewrite get_set. simpl.
  destruct (String.eqb k k0); simpl.
  - now rewrite orb_true_r.
  - reflexivity.
Qed.

Lemma get_spread_object k target o :
  wf o ->
  get k (spread target (JObj o)) =
  match get k o with
  | Some x => Some x
  | None => get k target
  end.
Proof. intros Hwf. unfold spread. simpl. now apply get_fold_set. Qed.

Lemma has_spread k target v :
  has k (spread target v) = has k (entries v) || has k target.
Proof. unfold spread. apply has_fold_set. Qed.

End ObjFacts.

(* ===================================================================== *)
(** ** Strings: suffixes and first occurrences                           *)
(* ===================================================================== *)

Module StrFacts.
Import Str.

Lemma append_cons c s t : String c s +:+ t = String c (s +:+ t).
Proof. reflexivity. Qed.

Lemma append_nil t : "" +:+ t = t.
Proof. reflexivity. Qed.

Lemma prefix_drop : forall s p,
  String.prefix p s = true -> s = p +:+ drop (String.length p) s.
Proof.
  induction s as [|c s IH]; intros [|a p]; simpl; try reflexivity; try discriminate.
  destruct (ascii_dec a c) as [->|]; [|discriminate].
  intros H. rewrite append_cons. f_equal. now apply IH.
Qed.

Lemma replace_unfold pat rep s :
  replace pat rep s =
  if String.prefix pat s then rep +:+ drop (String.length pat) s
  else match s with
       | "" => ""
       | String c s' => String c (replace pat rep s')
       end.
Proof. destruct s; reflexivity. Qed.

(** Deleting the first occurrence of [pat]: either [s] splits around
    that occurrence, or [s] is returned as it is. *)
Lemma replace_delete pat : forall s,
  (exists pre post, s = pre +:+ pat +:+ post /\ replace pat "" s = pre +:+ post)
  \/ replace pat "" s = s.
Proof.
  induction s as [|c s IH].
  - simpl. destruct pat; simpl; [left; exists "", ""; split; reflexivity | now right].
  - rewrite (replace_unfold pat "" (String c s)).
    destruct (String.prefix pat (String c s)) eqn:Hp.
    + left. exists "", (drop (String.length pat) (String c s)). split.
      * rewrite append_nil. now apply prefix_drop.
      * reflexivity.
    + destruct IH as [(pre & post & Hs & Hr)|Hr].
      * left. exists (String c pre), post. rewrite !append_cons. split; congruence.
      * right. congruence.
Qed.

Lemma upper_char_upper c : is_upper c = true -> upper_char c = c.
Proof.
  unfold is_upper, upper_char, is_lower. intros H.
  apply andb_prop in H as [_ H]. apply Nat.leb_le in H.
  destruct (Nat.leb 97 (nat_of_ascii c)) eqn:E; [|reflexivity].
  apply Nat.leb_le in E. lia.
Qed.

End StrFacts.

(* ===================================================================== *)
(** ** The [env] output format                                           *)
(* ===================================================================== *)

Example env_format_sample :
  format_output (Some "env")
    (JObj [("apiUrl", JStr "https://api"); ("debug", JBool false);
           ("maxRetries", JNum 3); ("ports", JArr [JNum 80; JNum 443])])
  = inr ("API_URL=https://api" +:+ Str.NL +:+ "DEBUG=false" +:+ Str.NL +:+
         "MAX_RETRIES=3" +:+ Str.NL +:+ "PORTS=[80,443]").
Proof. vm_compute. reflexivity. Qed.

(* ===================================================================== *)
(** ** Listing environments                                              *)
(* ===================================================================== *)

Lemma default_never_listed (files : list string) :
  Forall (fun env => env <> "default") (environments_of files).
Proof.
  unfold environments_of. apply Forall_forall. intros env Hin.
  apply list_elem_of_In in Hin.
  apply in_map_iff in Hin as (f & Hrep & Hf).
  apply filter_In in Hf as [_ Hf]. apply andb_prop in Hf as [Hsuf Hne].
  intros ->.
  destruct (StrFacts.replace_delete ".json" f) as [(pre & post & Hsplit & Hr)|Hr].
  - rewrite Hrep in Hr. subst f.
    do 7 (destruct pre as [|? pre];
          [rewrite StrFacts.append_nil in Hr; subst post; discriminate
          | rewrite StrFacts.append_cons in Hr; injection Hr as <- Hr]).
    destruct pre; [|discriminate]. rewrite StrFacts.append_nil in Hr. subst post.
    discriminate.
  - rewrite Hrep in Hr. subst f. discriminate.
Qed.

Section Runs.
Context {A B : Type}.

Lemma runs_ret (a : A) w : runs (ret a) w (inr a) w.
Proof. reflexivity. Qed.

Lemma runs_throw (e : error) w : runs (throw (A := A) e) w (inl e) w.
Proof. reflexivity. Qed.

Lemma runs_bind (m : M A) (k : A -> M B) w a w1 r w2 :
  runs m w (inr a) w1 -> runs (k a) w1 r w2 -> runs (bind m k) w r w2.
Proof. unfold runs, bind. now intros ->. Qed.

Lemma runs_bind_throws (m : M A) (k : A -> M B) w e w1 :
  runs m w (inl e) w1 -> runs (bind m k) w (inl e) w1.
Proof. unfold runs, bind. now intros ->. Qed.

Lemma runs_try (m : M A) h w a w1 :
  runs m w (inr a) w1 -> runs (try_catch m h) w (inr a) w1.
Proof. unfold runs, try_catch. now intros ->. Qed.

Lemma runs_catch (m : M A) h w e w1 r w2 :
  runs m w (inl e) w1 -> runs (h e) w1 r w2 -> runs (try_catch m h) w r w2.
Proof. unfold runs, try_catch. now intros ->. Qed.

End Runs.

(** The primitives are proved by running them on a world given field by
    field, under the lookups assumed of that world. *)
Ltac run_primitive :=
  intros;
  match goal with
  | w : world |- _ => destruct w
  end;
  cbn [files secrets credentials clock sent console] in *;
  subst;
  unfold runs, readFile, writeFile, mkdir, readdir, unlink, fetch, send,
    transmit, record, state_of, set_files, set_secrets, get_world, bind, ret,
    throw, with_files, with_secrets, sending, printing;
  cbn [files secrets credentials clock sent console DeletionDate];
  repeat match goal with
         | H : _ !! _ = _ |- _ => rewrite H
         end;
  cbn [files secrets credentials clock sent console DeletionDate];
  reflexivity.

Lemma runs_print msg w : runs (print msg) w (inr tt) (printing msg w).
Proof. reflexivity. Qed.

Lemma runs_readFile dir file w d content :
  files w !! dir = Some d -> d !! file = Some content ->
  runs (readFile dir file) w (inr content) w.
Proof. run_primitive. Qed.

Lemma runs_readFile_missing dir file w d :
  files w !! dir = Some d -> d !! file = None ->
  runs (readFile dir file) w (inl (ENOENT dir file)) w.
Proof. run_primitive. Qed.

Lemma runs_readFile_no_dir dir file w :
  files w !! dir = None ->
  runs (readFile dir file) w (inl (ENOENT dir file)) w.
Proof. run_primitive. Qed.

Lemma runs_access dir file w d content :
  files w !! dir = Some d -> d !! file = Some content ->
  runs (access dir file) w (inr tt) w.
Proof.
  intros Hd Hf. unfold access.
  eapply runs_bind; [eapply runs_readFile; eassumption | apply runs_ret].
Qed.

Lemma runs_access_missing dir file w d :
  files w !! dir = Some d -> d !! file = None ->
  runs (access dir file) w (inl (ENOENT dir file)) w.
Proof.
  intros Hd Hf. unfold access.
  eapply runs_bind_throws. eapply runs_readFile_missing; eassumption.
Qed.

Lemma runs_writeFile dir file content w d :
  files w !! dir = Some d ->
  runs (writeFile dir file content) w (inr tt)
       (with_files (<[dir := <[file := content]> d]> (files w)) w).
Proof. run_primitive. Qed.

Lemma runs_mkdir dir w d :
  files w !! dir = Some d -> runs (mkdir dir) w (inr tt) w.
Proof. run_primitive. Qed.

Lemma runs_readdir dir w d :
  files w !! dir = Some d ->
  runs (readdir dir) w (inr (map fst (map_to_list d))) w.
Proof. run_primitive. Qed.

Lemma runs_readdir_missing dir w :
  files w !! dir = None ->
  runs (readdir dir) w (inl (ENOENT dir "")) w.
Proof. run_primitive. Qed.

Lemma runs_fetch region name w payload :
  credentials w = true ->
  secrets w !! (region, name) = Some (Secret payload None) ->
  runs (fetch region name) w (inr payload) (sending (Fetch region name) w).
Proof. run_primitive. Qed.

Lemma runs_fetch_absent region name w :
  credentials w = true ->
  secrets w !! (region, name) = None ->
  runs (fetch region name) w (inl ResourceNotFoundException) (sending (Fetch region name) w).
Proof. run_primitive. Qed.

Lemma runs_fetch_pending region name w payload deadline :
  credentials w = true ->
  secrets w !! (region, name) = Some (Secret payload (Some deadline)) ->
  runs (fetch region name) w (inl InvalidRequestException) (sending (Fetch region name) w).
Proof. run_primitive. Qed.

Lemma runs_create region name payload w :
  credentials w = true ->
  secrets w !! (region, name) = None ->
  runs (send region (CreateSecretCommand name payload)) w (inr None)
       (with_secrets (<[(region, name) := Secret payload None]> (secrets w))
          (sending (Send region (CreateSecretCommand name payload)) w)).
Proof. run_primitive. Qed.

Lemma runs_create_exists region name payload w old :
  credentials w = true ->
  secrets w !! (region, name) = Some (Secret old None) ->
  runs (send region (CreateSecretCommand name payload)) w (inl ResourceExistsException)
       (sending (Send region (CreateSecretCommand name payload)) w).
Proof. run_primitive. Qed.

Lemma runs_update region name payload w old :
  credentials w = true ->
  secrets w !! (region, name) = Some (Secret old None) ->
  runs (send region (UpdateSecretCommand name payload)) w (inr None)
       (with_secrets (<[(region, name) := Secret payload None]> (secrets w))
          (sending (Send region (UpdateSecretCommand name payload)) w)).
Proof. run_primitive. Qed.

Lemma runs_update_absent region name payload w :
  credentials w = true ->
  secrets w !! (region, name) = None ->
  runs (send region (UpdateSecretCommand name payload)) w (inl ResourceNotFoundException)
       (sending (Send region (UpdateSecretCommand name payload)) w).
Proof. run_primitive. Qed.

Lemma runs_delete_force region name w payload :
  credentials w = true ->
  secrets w !! (region, name) = Some (Secret payload None) ->
  runs (send region (DeleteSecretCommand name ForceDeleteWithoutRecovery)) w (inr None)
       (with_secrets (delete (region, name) (secrets w))
          (sending (Send region (DeleteSecretCommand name ForceDeleteWithoutRecovery)) w)).
Proof. run_primitive. Qed.

Lemma runs_delete_window region name days w payload :
  credentials w = true ->
  secrets w !! (region, name) = Some (Secret payload None) ->
  let deadline := (clock w + default 30 days * day_ms)%Z in
  runs (send region (DeleteSecretCommand name (RecoveryWindowInDays days))) w
       (inr (Some deadline))
       (with_secrets (<[(region, name) := Secret payload (Some deadline)]> (secrets w))
          (sending (Send region (DeleteSecretCommand name (RecoveryWindowInDays days))) w)).
Proof. run_primitive. Qed.

(* ===================================================================== *)
(** ** Creating an environment that already exists                       *)
(* ===================================================================== *)

(** C7, as the code has it.  When a local document for the name already
    exists, [envCommand create] prints the "already exists" report and
    returns without raising an error; nothing else changes: the files
    (the existing document included), the secrets and the requests sent
    are those of the initial world. *)
Theorem create_existing_reports_and_returns
    JSON_parse config u (name : option string) options w d content :
  let configDir :=
    default "./config" (e_configDir options ||| rc_configDirPath config) in
  let n := match truthy name with
           | Some n => n
           | None => typed u AskEnvironmentName
           end in
  files w !! configDir = Some d ->
  d !! (n +:+ ".json") = Some content ->
  envCommand JSON_parse config u "create" name options w =
  (inr tt, printing (ErrEnvironmentExists n) w).
Proof.
  intros configDir n Hd Hf.
  change (runs (envCommand JSON_parse config u "create" name options) w
               (inr tt) (printing (ErrEnvironmentExists n) w)).
  unfold envCommand. cbn [String.eqb Ascii.eqb Bool.eqb].
  fold configDir. apply runs_try. unfold env_create.
  eapply runs_bind with (a := n).
  { subst n. destruct (truthy name); apply runs_ret. }
  eapply runs_bind.
  { apply runs_try.
    eapply runs_bind; [eapply runs_access; eassumption | apply runs_ret]. }
  apply runs_print.
Qed.

Lemma create_existing_reports_and_returns_example :
  files Example.diverged !! "./config" = Some Example.config_dir
  /\ Example.config_dir !! "staging.json" = Some (Json.pretty Example.local_doc)
  /\ envCommand Reader.read Example.project Example.declines
       "create" (Some "staging") Example.plain Example.diverged
     = (inr tt, printing (ErrEnvironmentExists "staging") Example.diverged).
Proof.
  split; [reflexivity|]. split; [reflexivity|].
  apply (create_existing_reports_and_returns Reader.read Example.project
           Example.declines (Some "staging") Example.plain Example.diverged
           Example.config_dir (Json.pretty Example.local_doc));
    reflexivity.
Defined.

(** The existing [staging] is not overwritten, and the command does not
    fail: its outcome is a normal return. *)
Lemma create_existing_is_not_an_error :
  Example.config_dir !! "staging.json" = Some (Json.pretty Example.local_doc)
  /\ fst (envCommand Reader.read Example.project Example.declines
            "create" (Some "staging") Example.plain Example.diverged)
     = inr tt.
Proof. split; vm_compute; reflexivity. Qed.

(* ===================================================================== *)
(** ** Deleting a secret                                                 *)
(* ===================================================================== *)

Lemma deleteSecret_unconfirmed config u environment options w :
  o_confirm options = Some false ->
  deleteSecret config u environment options w =
  match packageName_of config options with
  | Some _ => (inr tt, printing LogOperationCancelled w)
  | None => (inl PackageNameNotProvided, printing ErrPackageNameRequired w)
  end.
Proof.
  intros Hflag. unfold deleteSecret.
  destruct (packageName_of config options) as [packageName|].
  - apply runs_try. unfold delete_confirmation. rewrite Hflag.
    eapply runs_bind; [apply runs_ret | apply runs_print].
  - eapply runs_bind; [apply runs_print | apply runs_throw].
Qed.

(** C9. With the confirmation flag explicitly [false], [deleteSecret]
    skips the prompt and is cancelled before anything is sent: it only
    prints "Operation cancelled" (or, when no package name is known,
    raises the package-name error before that), so neither the requests
    sent nor the secrets change; the same holds through
    [awsCommand delete]. *)
Theorem unattended_delete_is_cancelled
    JSON_parse config u environment options w :
  o_confirm options = Some false ->
  let r := deleteSecret config u environment options w in
  r = match packageName_of config options with
      | Some _ => (inr tt, printing LogOperationCancelled w)
      | None => (inl PackageNameNotProvided, printing ErrPackageNameRequired w)
      end
  /\ awsCommand JSON_parse config u "delete" options w
     = match packageName_of config options with
       | Some _ => (inr tt, printing LogOperationCancelled w)
       | None => (inl PackageNameNotProvided, printing ErrPackageNameRequired w)
       end
  /\ sent (snd r) = sent w
  /\ secrets (snd r) = secrets w
  /\ files (snd r) = files w.
Proof.
  intros Hflag r.
  pose proof (deleteSecret_unconfirmed config u environment options w Hflag) as Hr.
  pose proof (deleteSecret_unconfirmed config u (environment_of config options)
                options w Hflag) as Ha.
  fold r in Hr. split; [exact Hr|]. split.
  - unfold awsCommand. revert Ha.
    destruct (packageName_of config options) as [packageName|]; intros Ha.
    + apply runs_try. cbn [String.eqb Ascii.eqb Bool.eqb]. exact Ha.
    + eapply runs_bind; [apply runs_print | apply runs_throw].
  - rewrite Hr. destruct (packageName_of config options); repeat split.
Qed.

Lemma unattended_delete_is_cancelled_example :
  let options :=
    AwsOptions (Some "staging") None None None false None true (Some 7%Z) (Some false) in
  o_confirm options = Some false
  /\ deleteSecret Example.project Example.accepts "staging" options Example.diverged
     = (inr tt, printing LogOperationCancelled Example.diverged).
Proof.
  split; [reflexivity|].
  apply (unattended_delete_is_cancelled Reader.read Example.project Example.accepts
           "staging"
           (AwsOptions (Some "staging") None None None false None true
                       (Some 7%Z) (Some false))
           Example.diverged).
  reflexivity.
Defined.

(** Whatever the store answers, a command that is sent is recorded, and
    it touches neither the files nor the console; the store never answers
    with one of the errors the source raises itself, and a refused command
    leaves the secrets as they were. *)
Lemma send_effect region c w :
  let r := send region c w in
  sent (snd r) = (sent w ++ [Send region c])%list
  /\ files (snd r) = files w
  /\ console (snd r) = console w
  /\ match fst r with
     | inl e => store_error e = true /\ secrets (snd r) = secrets w
     | inr _ => True
     end.
Proof.
  destruct w as [f s cr t sn co].
  unfold send, transmit, record, bind, get_world, state_of, set_secrets, ret, throw.
  cbn [files secrets credentials clock sent console].
  destruct cr; cbn [fst snd files secrets credentials clock sent console];
    [|repeat split].
  destruct c as [name payload|name payload|name mode];
    destruct (s !! (region, name)) as [[p [dd|]]|];
    try destruct mode;
    cbn [fst snd files secrets credentials clock sent console DeletionDate];
    repeat split.
Qed.

Lemma delete_failed_effect secretName e w :
  let r := delete_failed secretName e w in
  fst r = inl e /\ sent (snd r) = sent w /\ secrets (snd r) = secrets w
  /\ files (snd r) = files w.
Proof. destruct e; repeat split. Qed.

Lemma send_deletion_effect region secretName choice w :
  let r := send_deletion region secretName choice w in
  sent (snd r) = (sent w ++ [Send region (deleteParams secretName choice)])%list
  /\ match fst r with
     | inl e => store_error e = true
     | inr _ => True
     end.
Proof.
  unfold send_deletion, bind.
  pose proof (send_effect region (deleteParams secretName choice) w) as H.
  destruct (send region (deleteParams secretName choice) w) as [[e|response] w1].
  - cbn [fst snd] in *. intuition.
  - cbn [fst snd] in *. destruct H as (Hsent & _).
    destruct response; cbn; auto.
Qed.

(** A confirmed deletion goes on to choose between the forced deletion
    and the recovery window. *)
Lemma deleteSecret_confirmed config u environment options w packageName :
  packageName_of config options = Some packageName ->
  o_confirm options <> Some false ->
  answer u (AskDeleteSecret (secretName_of packageName environment)) = true ->
  deleteSecret config u environment options w =
  try_catch
    (bind (deletion_choice u options)
          (send_deletion (region_of config options)
                         (secretName_of packageName environment)))
    (delete_failed (secretName_of packageName environment)) w.
Proof.
  intros Hpkg Hflag Hyes. unfold deleteSecret. rewrite Hpkg.
  assert (Hc : delete_confirmation u (secretName_of packageName environment)
                 options w = (inr true, w)).
  { unfold delete_confirmation, confirm. rewrite Hyes.
    destruct (o_confirm options) as [[|]|]; try congruence; reflexivity. }
  unfold try_catch. unfold bind at 1. now rewrite Hc.
Qed.

(** C3, as the code has it.  Once the deletion is confirmed at the prompt
    and a recovery window is given: the command fails with "Invalid
    recovery window", before anything is sent, exactly when the window is
    below 7 or above 30; a window within [7, 30] is, unless [force] is
    also set, the recovery window of the one delete request that is sent,
    and an active secret then enters PENDING_DELETION with the deadline
    [clock + days], which is reported to the caller. *)
Theorem delete_validates_recovery_window
    config u environment options w packageName days :
  packageName_of config options = Some packageName ->
  o_days options = Some days ->
  o_confirm options <> Some false ->
  answer u (AskDeleteSecret (secretName_of packageName environment)) = true ->
  let region := region_of config options in
  let secretName := secretName_of packageName environment in
  let r := deleteSecret config u environment options w in
  (fst r = inl InvalidRecoveryWindow <-> (days < 7 \/ 30 < days)%Z)
  /\ ((days < 7 \/ 30 < days)%Z ->
      r = (inl InvalidRecoveryWindow,
           printing (ErrFailedToDelete InvalidRecoveryWindow)
             (printing ErrInvalidRecoveryWindow w)))
  /\ ((7 <= days <= 30)%Z -> o_force options = false ->
      sent (snd r) =
      (sent w ++ [Send region (DeleteSecretCommand secretName
                                 (RecoveryWindowInDays (Some days)))])%list)
  /\ (forall payload,
      (7 <= days <= 30)%Z -> o_force options = false ->
      credentials w = true ->
      secrets w !! (region, secretName) = Some (Secret payload None) ->
      let deadline := (clock w + days * day_ms)%Z in
      fst r = inr tt
      /\ state_of (snd r) region secretName = PENDING_DELETION deadline
      /\ console (snd r) =
         (console w ++ [LogDeletionInitiated secretName;
                        LogScheduledDeletion deadline])%list).
Proof.
  intros Hpkg Hdays Hflag Hyes region secretName r.
  assert (Hr : r = try_catch (bind (deletion_choice u options)
                                   (send_deletion region secretName))
                             (delete_failed secretName) w)
    by now apply deleteSecret_confirmed.
  clearbody r. subst r. unfold deletion_choice. rewrite Hdays.
  destruct ((days <? 7)%Z || (days >? 30)%Z) eqn:Hout.
  - (* out of bounds: nothing is sent *)
    assert (Hd : (days < 7 \/ 30 < days)%Z).
    { apply orb_true_iff in Hout as [H|H];
        [left; now apply Z.ltb_lt | right; apply Z.gtb_gt in H; lia]. }
    repeat split; intros; try lia; try assumption.
  - (* within bounds: one delete request is sent *)
    assert (Hd : (7 <= days <= 30)%Z).
    { apply orb_false_iff in Hout as [H1 H2].
      apply Z.ltb_ge in H1. rewrite Z.gtb_ltb in H2. apply Z.ltb_ge in H2. lia. }
    change (try_catch (bind (ret (o_force options, Some days))
                            (send_deletion region secretName))
                      (delete_failed secretName) w)
      with (match send_deletion region secretName (o_force options, Some days) w with
            | (inl e, w') => delete_failed secretName e w'
            | (inr a, w') => (inr a, w')
            end).
    pose proof (send_deletion_effect region secretName (o_force options, Some days) w)
      as Hs.
    destruct (send_deletion region secretName (o_force options, Some days) w)
      as [[e|[]] w1] eqn:Hrun; cbn [fst snd] in Hs; destruct Hs as [Hsent Hres].
    + pose proof (delete_failed_effect secretName e w1) as Hf.
      destruct (delete_failed secretName e w1) as [res2 w2].
      cbn [fst snd] in *. destruct Hf as (-> & Hsent2 & _).
      split; [split; [intros [= ->]; discriminate | lia]|].
      split; [intros; lia|].
      split.
      * intros _ Hforce. cbn [fst snd]. rewrite Hsent2, Hsent. unfold deleteParams.
        cbn [fst snd]. now rewrite Hforce.
      * intros payload _ Hforce Hcred Hsecret. exfalso.
        unfold send_deletion, deleteParams in Hrun. cbn [fst snd] in Hrun.
        rewrite Hforce in Hrun. unfold bind in Hrun.
        rewrite (runs_delete_window region secretName (Some days) w payload
                   Hcred Hsecret) in Hrun.
        discriminate.
    + cbn [fst snd].
      split; [split; [discriminate | lia]|].
      split; [intros; lia|].
      split.
      * intros _ Hforce. rewrite Hsent. unfold deleteParams.
        cbn [fst snd]. now rewrite Hforce.
      * intros payload _ Hforce Hcred Hsecret.
        unfold send_deletion, deleteParams in Hrun. cbn [fst snd] in Hrun.
        rewrite Hforce in Hrun. unfold bind in Hrun.
        rewrite (runs_delete_window region secretName (Some days) w payload
                   Hcred Hsecret) in Hrun.
        injection Hrun as <-.
        unfold state_of, printing, with_secrets, sending.
        cbn [files secrets credentials clock sent console option.default
             DeletionDate].
        rewrite lookup_insert_eq. cbn [DeletionDate].
        repeat split. now rewrite <- app_assoc.
Qed.

Lemma delete_validates_recovery_window_example :
  let options :=
    AwsOptions (Some "staging") None None None false None false (Some 15%Z) None in
  let r := deleteSecret Example.project Example.accepts "staging" options
             Example.diverged in
  packageName_of Example.project options = Some "app"
  /\ o_days options = Some 15%Z
  /\ o_confirm options <> Some false
  /\ answer Example.accepts (AskDeleteSecret "app/staging") = true
  /\ sent (snd r) =
     [Send "us-east-1" (DeleteSecretCommand "app/staging"
                          (RecoveryWindowInDays (Some 15%Z)))]
  /\ state_of (snd r) "us-east-1" "app/staging" = PENDING_DELETION 1296000000.
Proof.
  intros options r.
  assert (H1 : packageName_of Example.project options = Some "app") by reflexivity.
  assert (H2 : o_days options = Some 15%Z) by reflexivity.
  assert (H3 : o_confirm options <> Some false) by discriminate.
  assert (H4 : answer Example.accepts
                 (AskDeleteSecret (secretName_of "app" "staging")) = true)
    by reflexivity.
  pose proof (delete_validates_recovery_window Example.project Example.accepts
                "staging" options Example.diverged "app" 15%Z H1 H2 H3 H4)
    as (_ & _ & Hsent & Hstate).
  split; [exact H1|]. split; [exact H2|]. split; [exact H3|]. split; [exact H4|].
  split.
  - apply Hsent; [lia | reflexivity].
  - apply (Hstate (Json.stringify Example.remote_doc)); [lia | reflexivity..].
Defined.

(** With [force] set as well, a window of 15 days is validated and then
    dropped: the request is a forced deletion and the secret is gone, not
    pending.  And a declined confirmation cancels the command before the
    window is looked at: a window of 5 days raises no error. *)
Lemma delete_window_is_not_always_used :
  let both :=
    AwsOptions (Some "staging") None None None false None true (Some 15%Z) None in
  let short :=
    AwsOptions (Some "staging") None None None false None false (Some 5%Z) None in
  let forced := deleteSecret Example.project Example.accepts "staging" both
                  Example.diverged in
  let declined := deleteSecret Example.project Example.declines "staging" short
                    Example.diverged in
  state_of Example.diverged "us-east-1" "app/staging" = ACTIVE
  /\ fst forced = inr tt
  /\ sent (snd forced) =
     [Send "us-east-1" (DeleteSecretCommand "app/staging" ForceDeleteWithoutRecovery)]
  /\ state_of (snd forced) "us-east-1" "app/staging" = DELETED
  /\ declined = (inr tt, printing LogOperationCancelled Example.diverged).
Proof. repeat split; vm_compute; reflexivity. Qed.

(* ===================================================================== *)
(** ** Push and pull                                                     *)
(* ===================================================================== *)

Section PushPull.

Variable JSON_parse : string -> option json.
Variable config : rc.
Variable u : user.
Variable options : aws_options.
Variable packageName : string.
Hypothesis Hpackage : packageName_of config options = Some packageName.

Let environment := environment_of config options.
Let configDir := configDir_of config options.
Let region := region_of config options.
Let secretName := secretName_of packageName environment.
Let file := environment +:+ ".json".

Lemma awsCommand_push w w' :
  runs (push u configDir environment region secretName options) w (inr tt) w' ->
  awsCommand JSON_parse config u "push" options w = (inr tt, w').
Proof.
  intros H. unfold awsCommand. rewrite Hpackage.
  apply runs_try. exact H.
Qed.

Lemma awsCommand_pull w w' :
  runs (pull JSON_parse u configDir environment region secretName options) w (inr tt) w' ->
  awsCommand JSON_parse config u "pull" options w = (inr tt, w').
Proof.
  intros H. unfold awsCommand. rewrite Hpackage.
  apply runs_try. exact H.
Qed.

(** Pushing when the secret does not exist yet creates it. *)
Lemma push_creates w d content :
  files w !! configDir = Some d -> d !! file = Some content ->
  credentials w = true ->
  secrets w !! (region, secretName) = None ->
  awsCommand JSON_parse config u "push" options w =
  (inr tt,
   printing (LogPushed secretName)
     (with_secrets (<[(region, secretName) := Secret content None]> (secrets w))
        (sending (Send region (CreateSecretCommand secretName content)) w))).
Proof.
  intros Hd Hf Hc Hs. apply awsCommand_push. unfold push.
  eapply runs_bind.
  { apply runs_try. eapply runs_readFile; eassumption. }
  apply runs_try.
  eapply runs_bind; [now apply runs_create | apply runs_print].
Qed.

(** Pushing onto an existing secret, without [override], asks; a declined
    confirmation ends the command. *)
Lemma push_declined w d content old :
  files w !! configDir = Some d -> d !! file = Some content ->
  credentials w = true ->
  secrets w !! (region, secretName) = Some (Secret old None) ->
  o_override options = false ->
  answer u (AskOverrideSecret secretName) = false ->
  awsCommand JSON_parse config u "push" options w =
  (inr tt,
   printing LogOperationCancelled
     (sending (Send region (CreateSecretCommand secretName content)) w)).
Proof.
  intros Hd Hf Hc Hs Hov Hno. apply awsCommand_push. unfold push.
  eapply runs_bind.
  { apply runs_try. eapply runs_readFile; eassumption. }
  eapply runs_catch.
  { eapply runs_bind_throws. eapply runs_create_exists; eassumption. }
  rewrite Hov. cbn [negb].
  eapply runs_bind; [apply runs_ret|].
  rewrite Hno. apply runs_print.
Qed.

(** With [override], or once the confirmation is given, the existing
    secret is updated. *)
Lemma push_updates w d content old :
  files w !! configDir = Some d -> d !! file = Some content ->
  credentials w = true ->
  secrets w !! (region, secretName) = Some (Secret old None) ->
  o_override options = true \/ answer u (AskOverrideSecret secretName) = true ->
  awsCommand JSON_parse config u "push" options w =
  (inr tt,
   printing LogUpdatedExisting
     (with_secrets (<[(region, secretName) := Secret content None]> (secrets w))
        (sending (Send region (UpdateSecretCommand secretName content))
           (sending (Send region (CreateSecretCommand secretName content)) w)))).
Proof.
  intros Hd Hf Hc Hs Hyes. apply awsCommand_push. unfold push.
  eapply runs_bind.
  { apply runs_try. eapply runs_readFile; eassumption. }
  eapply runs_catch.
  { eapply runs_bind_throws. eapply runs_create_exists; eassumption. }
  assert (Hupd :
    runs (bind (send region (UpdateSecretCommand secretName content))
               (fun _ => print LogUpdatedExisting))
         (sending (Send region (CreateSecretCommand secretName content)) w)
         (inr tt)
         (printing LogUpdatedExisting
            (with_secrets (<[(region, secretName) := Secret content None]> (secrets w))
               (sending (Send region (UpdateSecretCommand secretName content))
                  (sending (Send region (CreateSecretCommand secretName content)) w))))).
  { eapply runs_bind; [|apply runs_print].
    eapply (runs_update region secretName content
              (sending (Send region (CreateSecretCommand secretName content)) w) old);
      assumption. }
  destruct (o_override options) eqn:Hov; cbn [negb]; [exact Hupd|].
  destruct Hyes as [Hyes|Hyes]; [discriminate|].
  eapply runs_bind; [apply runs_ret|].
  rewrite Hyes. exact Hupd.
Qed.

(** Pulling onto an existing local document, without [override], asks; a
    declined confirmation ends the command after the one read. *)
Lemma pull_declined w d content payload secrets_doc :
  files w !! configDir = Some d -> d !! file = Some content ->
  credentials w = true ->
  secrets w !! (region, secretName) = Some (Secret payload None) ->
  JSON_parse payload = Some secrets_doc ->
  o_override options = false ->
  answer u (AskOverrideLocal environment) = false ->
  awsCommand JSON_parse config u "pull" options w =
  (inr tt, printing LogOperationCancelled (sending (Fetch region secretName) w)).
Proof.
  intros Hd Hf Hc Hs Hp Hov Hno. apply awsCommand_pull. unfold pull.
  apply runs_try.
  eapply runs_bind.
  { unfold secretsClient. eapply runs_bind; [eapply runs_fetch; eassumption|].
    unfold parse. rewrite Hp. apply runs_ret. }
  rewrite Hov. cbn [negb].
  eapply runs_bind.
  { apply runs_try. eapply runs_bind; [|apply runs_ret].
    eapply (runs_access configDir file (sending (Fetch region secretName) w));
      eassumption. }
  eapply runs_bind; [apply runs_ret|].
  rewrite Hno. apply runs_print.
Qed.

End PushPull.

(** C4. [push] writes the local document as the payload of the remote
    secret: a secret that does not exist is created; on an existing one,
    without [override], the user is asked, and a declined confirmation
    ends the command normally with "Operation cancelled" and no change to
    the files or the secrets; with [override], or once confirmed, the
    existing secret is updated with the local payload. *)
Theorem push_creates_asks_or_updates
    JSON_parse config u options packageName w d content :
  packageName_of config options = Some packageName ->
  let environment := environment_of config options in
  let region := region_of config options in
  let secretName := secretName_of packageName environment in
  files w !! configDir_of config options = Some d ->
  d !! (environment +:+ ".json") = Some content ->
  credentials w = true ->
  let r := awsCommand JSON_parse config u "push" options w in
  (secrets w !! (region, secretName) = None ->
   fst r = inr tt
   /\ secrets (snd r) = <[(region, secretName) := Secret content None]> (secrets w)
   /\ sent (snd r) = (sent w ++ [Send region (CreateSecretCommand secretName content)])%list
   /\ files (snd r) = files w)
  /\ (forall old,
      secrets w !! (region, secretName) = Some (Secret old None) ->
      o_override options = false ->
      answer u (AskOverrideSecret secretName) = false ->
      fst r = inr tt
      /\ console (snd r) = (console w ++ [LogOperationCancelled])%list
      /\ secrets (snd r) = secrets w
      /\ files (snd r) = files w)
  /\ (forall old,
      secrets w !! (region, secretName) = Some (Secret old None) ->
      o_override options = true \/ answer u (AskOverrideSecret secretName) = true ->
      fst r = inr tt
      /\ secrets (snd r) = <[(region, secretName) := Secret content None]> (secrets w)
      /\ sent (snd r) =
         (sent w ++ [Send region (CreateSecretCommand secretName content);
                     Send region (UpdateSecretCommand secretName content)])%list
      /\ files (snd r) = files w).
Proof.
  intros Hpkg environment region secretName Hd Hf Hc r. subst r.
  split; [|split].
  - intros Hs.
    rewrite (push_creates JSON_parse config u options packageName Hpkg w d content)
      by assumption.
    repeat split.
  - intros old Hs Hov Hno.
    rewrite (push_declined JSON_parse config u options packageName Hpkg w d content old)
      by assumption.
    repeat split.
  - intros old Hs Hyes.
    rewrite (push_updates JSON_parse config u options packageName Hpkg w d content old)
      by assumption.
    cbn [fst snd printing with_secrets sending
         files secrets credentials clock sent console].
    rewrite <- app_assoc. repeat split.
Qed.

Lemma push_creates_asks_or_updates_example :
  let r := awsCommand Reader.read Example.project Example.declines "push"
             Example.staging Example.diverged in
  packageName_of Example.project Example.staging = Some "app"
  /\ files Example.diverged !! "./config" = Some Example.config_dir
  /\ Example.config_dir !! "staging.json" = Some (Json.pretty Example.local_doc)
  /\ credentials Example.diverged = true
  /\ secrets Example.diverged !! ("us-east-1", "app/staging")
     = Some (Secret (Json.stringify Example.remote_doc) None)
  /\ o_override Example.staging = false
  /\ answer Example.declines (AskOverrideSecret "app/staging") = false
  /\ fst r = inr tt
  /\ console (snd r) = [LogOperationCancelled]
  /\ secrets (snd r) = secrets Example.diverged
  /\ files (snd r) = files Example.diverged.
Proof.
  intros r.
  assert (H1 : packageName_of Example.project Example.staging = Some "app")
    by reflexivity.
  assert (H2 : files Example.diverged !! configDir_of Example.project Example.staging
               = Some Example.config_dir) by reflexivity.
  assert (H3 : Example.config_dir
               !! (environment_of Example.project Example.staging +:+ ".json")
               = Some (Json.pretty Example.local_doc)) by reflexivity.
  assert (H4 : credentials Example.diverged = true) by reflexivity.
  pose proof (push_creates_asks_or_updates Reader.read Example.project
                Example.declines Example.staging "app" Example.diverged
                Example.config_dir (Json.pretty Example.local_doc) H1 H2 H3 H4)
    as (_ & Hdeclined & _).
  split; [exact H1|]. split; [exact H2|]. split; [exact H3|]. split; [exact H4|].
  split; [reflexivity|]. split; [reflexivity|]. split; [reflexivity|].
  apply (Hdeclined (Json.stringify Example.remote_doc)); reflexivity.
Defined.

(** C5. A declined confirmation leaves both stores as they were: a push
    onto an existing secret without [override] has only sent the refused
    create request, a pull onto an existing local document without
    [override] has only read the secret; in both cases the files and the
    secrets after the command are those before it. *)
Theorem declined_confirmation_changes_nothing
    JSON_parse config u options packageName w d content payload :
  packageName_of config options = Some packageName ->
  let environment := environment_of config options in
  let region := region_of config options in
  let secretName := secretName_of packageName environment in
  files w !! configDir_of config options = Some d ->
  d !! (environment +:+ ".json") = Some content ->
  credentials w = true ->
  secrets w !! (region, secretName) = Some (Secret payload None) ->
  o_override options = false ->
  (answer u (AskOverrideSecret secretName) = false ->
   let r := awsCommand JSON_parse config u "push" options w in
   fst r = inr tt
   /\ files (snd r) = files w
   /\ secrets (snd r) = secrets w
   /\ sent (snd r) = (sent w ++ [Send region (CreateSecretCommand secretName content)])%list)
  /\ (forall secrets_doc,
      JSON_parse payload = Some secrets_doc ->
      answer u (AskOverrideLocal environment) = false ->
      let r := awsCommand JSON_parse config u "pull" options w in
      fst r = inr tt
      /\ files (snd r) = files w
      /\ secrets (snd r) = secrets w
      /\ sent (snd r) = (sent w ++ [Fetch region secretName])%list).
Proof.
  intros Hpkg environment region secretName Hd Hf Hc Hs Hov. split.
  - intros Hno r. subst r.
    rewrite (push_declined JSON_parse config u options packageName Hpkg w d content payload)
      by assumption.
    repeat split.
  - intros secrets_doc Hp Hno r. subst r.
    rewrite (pull_declined JSON_parse config u options packageName Hpkg w d content
               payload secrets_doc) by assumption.
    repeat split.
Qed.

Lemma declined_confirmation_changes_nothing_example :
  let r := awsCommand Reader.read Example.project Example.declines "pull"
             Example.staging Example.diverged in
  packageName_of Example.project Example.staging = Some "app"
  /\ files Example.diverged !! "./config" = Some Example.config_dir
  /\ Example.config_dir !! "staging.json" = Some (Json.pretty Example.local_doc)
  /\ credentials Example.diverged = true
  /\ secrets Example.diverged !! ("us-east-1", "app/staging")
     = Some (Secret (Json.stringify Example.remote_doc) None)
  /\ o_override Example.staging = false
  /\ Reader.read (Json.stringify Example.remote_doc) = Some Example.remote_doc
  /\ answer Example.declines (AskOverrideLocal "staging") = false
  /\ fst r = inr tt
  /\ files (snd r) = files Example.diverged
  /\ secrets (snd r) = secrets Example.diverged
  /\ sent (snd r) = [Fetch "us-east-1" "app/staging"].
Proof.
  intros r.
  assert (H1 : packageName_of Example.project Example.staging = Some "app")
    by reflexivity.
  assert (H2 : files Example.diverged !! configDir_of Example.project Example.staging
               = Some Example.config_dir) by reflexivity.
  assert (H3 : Example.config_dir
               !! (environment_of Example.project Example.staging +:+ ".json")
               = Some (Json.pretty Example.local_doc)) by reflexivity.
  assert (H4 : credentials Example.diverged = true) by reflexivity.
  assert (H5 : secrets Example.diverged
               !! (region_of Example.project Example.staging,
                   secretName_of "app" (environment_of Example.project Example.staging))
               = Some (Secret (Json.stringify Example.remote_doc) None))
    by reflexivity.
  assert (H6 : o_override Example.staging = false) by reflexivity.
  assert (H7 : Reader.read (Json.stringify Example.remote_doc)
               = Some Example.remote_doc) by reflexivity.
  pose proof (declined_confirmation_changes_nothing Reader.read Example.project
                Example.declines Example.staging "app" Example.diverged
                Example.config_dir (Json.pretty Example.local_doc)
                (Json.stringify Example.remote_doc) H1 H2 H3 H4 H5 H6)
    as (_ & Hpull).
  split; [exact H1|]. split; [exact H2|]. split; [exact H3|]. split; [exact H4|].
  split; [exact H5|]. split; [exact H6|]. split; [exact H7|]. split; [reflexivity|].
  apply (Hpull Example.remote_doc); [exact H7 | reflexivity].
Defined.

(* ===================================================================== *)
(** ** Sync                                                              *)
(* ===================================================================== *)

Section Sync.

Variable JSON_parse : string -> option json.
Variable config : rc.
Variable u : user.
Variable options : aws_options.
Variable packageName : string.
Hypothesis Hpackage : packageName_of config options = Some packageName.

Let environment := environment_of config options.
Let configDir := configDir_of config options.
Let region := region_of config options.
Let secretName := secretName_of packageName environment.
Let file := environment +:+ ".json".
Let prefer := default "local" (truthy (o_prefer options)).

(** Reading the local side never fails and changes the console only. *)
Lemma sync_reads_local w :
  exists w1,
    runs (try_catch (bind (readFile configDir file) (parse JSON_parse))
            (fun _ => bind (print LogNoLocalConfig) (fun _ => ret (JObj []))))
         w (inr (local_document JSON_parse w configDir file)) w1
    /\ files w1 = files w /\ secrets w1 = secrets w
    /\ credentials w1 = credentials w /\ sent w1 = sent w.
Proof.
  unfold local_document.
  destruct (files w !! configDir) as [d|] eqn:Hd;
    [destruct (d !! file) as [content|] eqn:Hf;
     [destruct (JSON_parse content) as [v|] eqn:Hp|]|].
  - exists w. split; [|repeat split].
    apply runs_try. eapply runs_bind; [eapply runs_readFile; eassumption|].
    unfold parse. rewrite Hp. apply runs_ret.
  - exists (printing LogNoLocalConfig w). split; [|repeat split].
    eapply runs_catch.
    + eapply runs_bind; [eapply runs_readFile; eassumption|].
      unfold parse. rewrite Hp. apply runs_throw.
    + eapply runs_bind; [apply runs_print | apply runs_ret].
  - exists (printing LogNoLocalConfig w). split; [|repeat split].
    eapply runs_catch.
    + eapply runs_bind_throws. eapply runs_readFile_missing; eassumption.
    + eapply runs_bind; [apply runs_print | apply runs_ret].
  - exists (printing LogNoLocalConfig w). split; [|repeat split].
    eapply runs_catch.
    + eapply runs_bind_throws. eapply runs_readFile_no_dir; eassumption.
    + eapply runs_bind; [apply runs_print | apply runs_ret].
Qed.

(** Reading the remote side never fails either; it sends the one read. *)
Lemma sync_reads_remote w :
  credentials w = true ->
  exists w1,
    runs (try_catch (secretsClient JSON_parse region secretName)
            (fun _ => bind (print LogNoAwsSecret) (fun _ => ret (JObj []))))
         w (inr (remote_document JSON_parse w region secretName)) w1
    /\ files w1 = files w /\ secrets w1 = secrets w
    /\ credentials w1 = credentials w
    /\ sent w1 = (sent w ++ [Fetch region secretName])%list.
Proof.
  intros Hc. unfold remote_document, secretsClient.
  destruct (secrets w !! (region, secretName)) as [[payload [dd|]]|] eqn:Hs;
    [| destruct (JSON_parse payload) as [v|] eqn:Hp |].
  - exists (printing LogNoAwsSecret (sending (Fetch region secretName) w)).
    split; [|repeat split].
    eapply runs_catch.
    + eapply runs_bind_throws. eapply runs_fetch_pending; eassumption.
    + eapply runs_bind; [apply runs_print | apply runs_ret].
  - exists (sending (Fetch region secretName) w). split; [|repeat split].
    apply runs_try. eapply runs_bind; [eapply runs_fetch; eassumption|].
    unfold parse. rewrite Hp. apply runs_ret.
  - exists (printing LogNoAwsSecret (sending (Fetch region secretName) w)).
    split; [|repeat split].
    eapply runs_catch.
    + eapply runs_bind; [eapply runs_fetch; eassumption|].
      unfold parse. rewrite Hp. apply runs_throw.
    + eapply runs_bind; [apply runs_print | apply runs_ret].
  - exists (printing LogNoAwsSecret (sending (Fetch region secretName) w)).
    split; [|repeat split].
    eapply runs_catch.
    + eapply runs_bind_throws. eapply runs_fetch_absent; eassumption.
    + eapply runs_bind; [apply runs_print | apply runs_ret].
Qed.

(** Writing the remote side: an update, and a create when the update
    finds no secret. *)
Lemma sync_writes_remote payload w :
  credentials w = true ->
  state_of w region secretName = ACTIVE \/ state_of w region secretName = DELETED ->
  exists w1,
    runs (try_catch
            (bind (send region (UpdateSecretCommand secretName payload))
                  (fun _ => ret tt))
            (fun error =>
               match error with
               | ResourceNotFoundException =>
                   bind (send region (CreateSecretCommand secretName payload))
                        (fun _ => ret tt)
               | _ => throw error
               end))
         w (inr tt) w1
    /\ files w1 = files w
    /\ secrets w1 = <[(region, secretName) := Secret payload None]> (secrets w)
    /\ sent w1 =
       (sent w ++
        match secrets w !! (region, secretName) with
        | Some _ => [Send region (UpdateSecretCommand secretName payload)]
        | None => [Send region (UpdateSecretCommand secretName payload);
                   Send region (CreateSecretCommand secretName payload)]
        end)%list.
Proof.
  intros Hc Hstate. unfold state_of in Hstate.
  destruct (secrets w !! (region, secretName)) as [[old [dd|]]|] eqn:Hs;
    cbn [DeletionDate] in Hstate.
  - destruct Hstate; discriminate.
  - eexists. split.
    + apply runs_try.
      eapply runs_bind; [eapply runs_update; eassumption | apply runs_ret].
    + repeat split.
  - eexists. split.
    + eapply runs_catch.
      * eapply runs_bind_throws. eapply runs_update_absent; eassumption.
      * eapply runs_bind; [|apply runs_ret].
        eapply (runs_create region secretName payload
                  (sending (Send region (UpdateSecretCommand secretName payload)) w));
          assumption.
    + cbn [with_secrets sending files secrets credentials clock sent console].
      rewrite <- app_assoc. repeat split.
Qed.

(** What a sync leaves behind when the configuration directory exists,
    the store is reachable and the secret is not pending deletion. *)
Lemma sync_run w d :
  files w !! configDir = Some d ->
  credentials w = true ->
  state_of w region secretName = ACTIVE \/ state_of w region secretName = DELETED ->
  let merged :=
    merge prefer (local_document JSON_parse w configDir file)
                 (remote_document JSON_parse w region secretName) in
  let r := awsCommand JSON_parse config u "sync" options w in
  fst r = inr tt
  /\ files (snd r) = <[configDir := <[file := Json.pretty (JObj merged)]> d]> (files w)
  /\ secrets (snd r) =
     <[(region, secretName) := Secret (Json.stringify (JObj merged)) None]> (secrets w)
  /\ sent (snd r) =
     (sent w ++ Fetch region secretName ::
      match secrets w !! (region, secretName) with
      | Some _ => [Send region (UpdateSecretCommand secretName (Json.stringify (JObj merged)))]
      | None => [Send region (UpdateSecretCommand secretName (Json.stringify (JObj merged)));
                 Send region (CreateSecretCommand secretName (Json.stringify (JObj merged)))]
      end)%list.
Proof.
  intros Hd Hc Hstate merged r.
  set (w0 := printing (LogSyncing prefer) w).
  destruct (sync_reads_local w0) as (w1 & Hrun1 & Hf1 & Hs1 & Hc1 & Hn1).
  destruct (sync_reads_remote w1) as (w2 & Hrun2 & Hf2 & Hs2 & Hc2 & Hn2);
    [now rewrite Hc1|].
  assert (Hlocal : local_document JSON_parse w0 configDir file
                   = local_document JSON_parse w configDir file) by reflexivity.
  assert (Hremote : remote_document JSON_parse w1 region secretName
                    = remote_document JSON_parse w region secretName).
  { unfold remote_document. now rewrite Hs1. }
  rewrite Hlocal in Hrun1. rewrite Hremote in Hrun2.
  assert (Hd2 : files w2 !! configDir = Some d) by now rewrite Hf2, Hf1.
  set (w3 := with_files (<[configDir := <[file := Json.pretty (JObj merged)]> d]> (files w2)) w2).
  destruct (sync_writes_remote (Json.stringify (JObj merged)) w3)
    as (w4 & Hrun4 & Hf4 & Hs4 & Hn4).
  { subst w3. cbn. now rewrite Hc2, Hc1. }
  { subst w3. unfold state_of in *. cbn [with_files secrets].
    now rewrite Hs2, Hs1. }
  assert (Hr : r = (inr tt, printing (LogSynced configDir file secretName) w4)).
  { subst r. unfold awsCommand. rewrite Hpackage. apply runs_try.
    cbn [String.eqb Ascii.eqb Bool.eqb]. unfold sync.
    eapply runs_bind; [apply runs_print|].
    eapply runs_bind; [exact Hrun1|].
    eapply runs_bind; [exact Hrun2|].
    eapply runs_bind; [apply runs_writeFile; eassumption|].
    eapply runs_bind; [exact Hrun4 | apply runs_print]. }
  rewrite Hr. cbn [fst snd printing files secrets sent].
  rewrite Hf4, Hs4, Hn4. subst w3.
  cbn [with_files files secrets sent].
  rewrite Hf2, Hf1, Hs2, Hs1, Hn2, Hn1. subst w0.
  cbn [printing files secrets sent]. rewrite <- app_assoc.
  repeat split.
Qed.

End Sync.

(** [merge] key by key: the preferred side wins wherever it has the key,
    the other side supplies the rest. *)
Lemma merge_prefers prefer l a k :
  Obj.wf l -> Obj.wf a ->
  Obj.get k (merge prefer (JObj l) (JObj a)) =
  if String.eqb prefer "local"
  then match Obj.get k l with
       | Some v => Some v
       | None => Obj.get k a
       end
  else match Obj.get k a with
       | Some v => Some v
       | None => Obj.get k l
       end.
Proof.
  intros Hl Ha. unfold merge.
  destruct (String.eqb prefer "local");
    rewrite !ObjFacts.get_spread_object by assumption; simpl Obj.get.
  - now destruct (Obj.get k l), (Obj.get k a).
  - now destruct (Obj.get k a), (Obj.get k l).
Qed.

Lemma merge_keeps_every_key prefer localConfig awsConfig k :
  Obj.has k (merge prefer localConfig awsConfig) =
  Obj.has k (Obj.entries localConfig) || Obj.has k (Obj.entries awsConfig).
Proof.
  unfold merge. destruct (String.eqb prefer "local");
    rewrite !ObjFacts.has_spread; unfold Obj.has at 3; simpl Obj.get;
    rewrite orb_false_r; [reflexivity | apply orb_comm].
Qed.

(** Two literal objects are compared key by key. *)
Ltac by_key k keys :=
  lazymatch keys with
  | nil => simpl Obj.get;
           repeat match goal with
                  | H : k <> ?s |- context [String.eqb k ?s] =>
                      rewrite (proj2 (String.eqb_neq k s) H)
                  end;
           reflexivity
  | cons ?s ?rest =>
      destruct (String.eqb_spec k s) as [->|?];
      [vm_compute; reflexivity | by_key k rest]
  end.

Lemma example_merge_local :
  merge "local" Example.local_doc Example.remote_doc
  = [("y", JNum 2); ("z", JNum 3); ("x", JNum 1)].
Proof. vm_compute. reflexivity. Qed.

Lemma example_merge_remote :
  Obj.spread (Obj.spread [] Example.local_doc) Example.remote_doc
  = [("x", JNum 1); ("y", JNum 9); ("z", JNum 3)].
Proof. vm_compute. reflexivity. Qed.

(** C1. [sync] reads the local and the remote document (each an empty
    mapping when absent), merges them key by key with the preferred side
    winning every collision, and writes that one merged document to the
    local file and to the remote secret, which is updated when it exists
    and created when it does not.  On local [{x:1,y:2}] and remote
    [{y:9,z:3}] the merged mapping is [{x:1,y:2,z:3}] when local is
    preferred and [{x:1,y:9,z:3}] otherwise. *)
Theorem sync_writes_preferred_union
    JSON_parse config u options packageName w d :
  packageName_of config options = Some packageName ->
  let environment := environment_of config options in
  let configDir := configDir_of config options in
  let region := region_of config options in
  let secretName := secretName_of packageName environment in
  let file := environment +:+ ".json" in
  let prefer := default "local" (truthy (o_prefer options)) in
  files w !! configDir = Some d ->
  credentials w = true ->
  state_of w region secretName = ACTIVE \/ state_of w region secretName = DELETED ->
  let localConfig := local_document JSON_parse w configDir file in
  let awsConfig := remote_document JSON_parse w region secretName in
  let merged := merge prefer localConfig awsConfig in
  let r := awsCommand JSON_parse config u "sync" options w in
  fst r = inr tt
  /\ files (snd r) = <[configDir := <[file := Json.pretty (JObj merged)]> d]> (files w)
  /\ secrets (snd r) =
     <[(region, secretName) := Secret (Json.stringify (JObj merged)) None]> (secrets w)
  /\ sent (snd r) =
     (sent w ++ Fetch region secretName ::
      match secrets w !! (region, secretName) with
      | Some _ => [Send region (UpdateSecretCommand secretName (Json.stringify (JObj merged)))]
      | None => [Send region (UpdateSecretCommand secretName (Json.stringify (JObj merged)));
                 Send region (CreateSecretCommand secretName (Json.stringify (JObj merged)))]
      end)%list
  /\ (forall l a k,
      localConfig = JObj l -> awsConfig = JObj a -> Obj.wf l -> Obj.wf a ->
      Obj.get k merged =
      if String.eqb prefer "local"
      then match Obj.get k l with
           | Some v => Some v
           | None => Obj.get k a
           end
      else match Obj.get k a with
           | Some v => Some v
           | None => Obj.get k l
           end)
  /\ Obj.same_mapping
       (merge "local" Example.local_doc Example.remote_doc)
       [("x", JNum 1); ("y", JNum 2); ("z", JNum 3)]
  /\ (forall other, String.eqb other "local" = false ->
      Obj.same_mapping
        (merge other Example.local_doc Example.remote_doc)
        [("x", JNum 1); ("y", JNum 9); ("z", JNum 3)]).
Proof.
  intros Hpkg environment configDir region secretName file prefer Hd Hc Hstate
         localConfig awsConfig merged r.
  destruct (sync_run JSON_parse config u options packageName Hpkg w d Hd Hc Hstate)
    as (Hok & Hfiles & Hsecrets & Hsent).
  split; [exact Hok|]. split; [exact Hfiles|]. split; [exact Hsecrets|].
  split; [exact Hsent|]. split; [|split].
  - intros l a k Hl Ha Hwl Hwa. subst merged. rewrite Hl, Ha.
    now apply merge_prefers.
  - intros k. rewrite example_merge_local. by_key k ["y"; "z"; "x"].
  - intros other Hother k. unfold merge. rewrite Hother, example_merge_remote.
    reflexivity.
Qed.

Lemma sync_writes_preferred_union_example :
  let r := awsCommand Reader.read Example.project Example.declines "sync"
             Example.staging Example.diverged in
  let merged := [("y", JNum 2); ("z", JNum 3); ("x", JNum 1)] in
  packageName_of Example.project Example.staging = Some "app"
  /\ files Example.diverged !! "./config" = Some Example.config_dir
  /\ credentials Example.diverged = true
  /\ state_of Example.diverged "us-east-1" "app/staging" = ACTIVE
  /\ fst r = inr tt
  /\ files (snd r) =
     {[ "./config" := <["staging.json" := Json.pretty (JObj merged)]> Example.config_dir ]}
  /\ secrets (snd r) =
     {[ ("us-east-1", "app/staging") := Secret (Json.stringify (JObj merged)) None ]}.
Proof.
  intros r merged.
  assert (H1 : packageName_of Example.project Example.staging = Some "app")
    by reflexivity.
  assert (H2 : files Example.diverged !! configDir_of Example.project Example.staging
               = Some Example.config_dir) by reflexivity.
  assert (H3 : credentials Example.diverged = true) by reflexivity.
  assert (H4 : state_of Example.diverged "us-east-1" "app/staging" = ACTIVE)
    by reflexivity.
  pose proof (sync_writes_preferred_union Reader.read Example.project
                Example.declines Example.staging "app" Example.diverged
                Example.config_dir H1 H2 H3 (or_introl H4))
    as (Hok & Hfiles & Hsecrets & _).
  split; [exact H1|]. split; [exact H2|]. split; [exact H3|]. split; [exact H4|].
  split; [exact Hok|]. subst r merged. split.
  - rewrite Hfiles. vm_compute. reflexivity.
  - rewrite Hsecrets. vm_compute. reflexivity.
Defined.



(** Reading a document for a read-modify-write: an absent or unreadable
    file counts as the empty mapping, and nothing changes. *)
Lemma reads_document JSON_parse dir file w :
  runs (try_catch (bind (readFile dir file) (parse JSON_parse))
          (fun _ => ret (JObj [])))
       w (inr (local_document JSON_parse w dir file)) w.
Proof.
  unfold local_document.
  destruct (files w !! dir) as [d|] eqn:Hd;
    [destruct (d !! file) as [content|] eqn:Hf;
     [destruct (JSON_parse content) as [v|] eqn:Hp|]|].
  - apply runs_try. eapply runs_bind; [eapply runs_readFile; eassumption|].
    unfold parse. rewrite Hp. apply runs_ret.
  - eapply runs_catch; [|apply runs_ret].
    eapply runs_bind; [eapply runs_readFile; eassumption|].
    unfold parse. rewrite Hp. apply runs_throw.
  - eapply runs_catch; [|apply runs_ret].
    eapply runs_bind_throws. eapply runs_readFile_missing; eassumption.
  - eapply runs_catch; [|apply runs_ret].
    eapply runs_bind_throws. eapply runs_readFile_no_dir; eassumption.
Qed.

(* ===================================================================== *)
(** ** What a command leaves untouched                                   *)
(* ===================================================================== *)

Section Frame.

Context {X : Type} (f : world -> X).

Lemma preserves_ret {A} (a : A) : preserves f (ret a).
Proof. intros w. reflexivity. Qed.

Lemma preserves_throw {A} (e : error) : preserves f (throw (A := A) e).
Proof. intros w. reflexivity. Qed.

Lemma preserves_bind {A B} (m : M A) (k : A -> M B) :
  preserves f m -> (forall a, preserves f (k a)) -> preserves f (bind m k).
Proof.
  intros Hm Hk w. unfold bind. specialize (Hm w).
  destruct (m w) as [[e|a] w1]; cbn [snd] in *; [exact Hm|].
  now rewrite Hk.
Qed.

Lemma preserves_try_catch {A} (m : M A) (h : error -> M A) :
  preserves f m -> (forall e, preserves f (h e)) -> preserves f (try_catch m h).
Proof.
  intros Hm Hh w. unfold try_catch. specialize (Hm w).
  destruct (m w) as [[e|a] w1]; cbn [snd] in *; [|exact Hm].
  now rewrite Hh.
Qed.

Lemma preserves_lift {A} (r : error + A) : preserves f (lift r).
Proof. destruct r; intros w; reflexivity. Qed.

Lemma preserves_parse JSON_parse text : preserves f (parse JSON_parse text).
Proof. unfold parse. destruct (JSON_parse text); intros w; reflexivity. Qed.

End Frame.

Lemma print_preserves_files msg : preserves files (print msg).
Proof. intros w. reflexivity. Qed.

Lemma send_preserves_files region c : preserves files (send region c).
Proof. intros w. apply send_effect. Qed.

Lemma send_preserves_console region c : preserves console (send region c).
Proof. intros w. apply send_effect. Qed.

Lemma fetch_effect region name w :
  let r := fetch region name w in
  files (snd r) = files w /\ console (snd r) = console w
  /\ secrets (snd r) = secrets w.
Proof.
  destruct w as [f s cr t sn co].
  unfold fetch, transmit, record, bind, get_world, ret, throw.
  cbn [files secrets credentials clock sent console].
  destruct cr; cbn [fst snd files secrets credentials clock sent console];
    [|repeat split].
  destruct (s !! (region, name)) as [[p [dd|]]|]; repeat split.
Qed.

Lemma fetch_preserves_files region name : preserves files (fetch region name).
Proof. intros w. apply fetch_effect. Qed.

Lemma fetch_preserves_console region name : preserves console (fetch region name).
Proof. intros w. apply fetch_effect. Qed.

Lemma secretsClient_preserves_files JSON_parse region name :
  preserves files (secretsClient JSON_parse region name).
Proof.
  apply preserves_bind; [apply fetch_preserves_files|].
  intros payload. apply preserves_parse.
Qed.

Lemma secretsClient_preserves_console JSON_parse region name :
  preserves console (secretsClient JSON_parse region name).
Proof.
  apply preserves_bind; [apply fetch_preserves_console|].
  intros payload. apply preserves_parse.
Qed.

Create HintDb frame.
#[export] Hint Resolve preserves_ret preserves_throw preserves_lift preserves_parse
  print_preserves_files send_preserves_files send_preserves_console
  fetch_preserves_files fetch_preserves_console
  secretsClient_preserves_files secretsClient_preserves_console : frame.
#[export] Hint Extern 2 (preserves _ (bind _ _)) =>
  apply preserves_bind; [|intros ?] : frame.
#[export] Hint Extern 2 (preserves _ (try_catch _ _)) =>
  apply preserves_try_catch; [|intros ?] : frame.

(* ===================================================================== *)
(** ** Setting a value                                                   *)
(* ===================================================================== *)

(** The part of [applyConfigValue] that talks to the secret store. *)
Lemma aws_part_preserves_files JSON_parse (packageName : option string)
    region_ key (value : option string) env :
  preserves files
    match truthy packageName with
    | None => throw PackageNameRequired
    | Some packageName =>
        let secretName := secretName_of packageName env in
        let region := region_ in
        try_catch
          (bind (secretsClient JSON_parse region secretName) (fun existingSecrets =>
           bind (lift (assign key (JStr <$> value) existingSecrets))
                (fun existingSecrets =>
           bind (send region (UpdateSecretCommand secretName
                                (Json.stringify existingSecrets)))
                (fun _ => ret tt))))
          (fun error =>
             match error with
             | ResourceNotFoundException =>
                 let fresh := match value with
                              | Some s => [(key, JStr s)]
                              | None => []
                              end in
                 bind (send region (CreateSecretCommand secretName
                                      (Json.stringify (JObj fresh))))
                      (fun _ => ret tt)
             | _ => throw error
             end)
    end.
Proof.
  destruct (truthy packageName); cbv zeta; auto 10 with frame.
  apply preserves_try_catch; [auto 10 with frame|].
  intros e. destruct e; auto 10 with frame.
Qed.

Lemma applyConfigValue_local JSON_parse config key value env target configDir w d o stored :
  String.eqb target "local" || String.eqb target "both" = true ->
  files w !! configDir = Some d ->
  local_document JSON_parse w configDir (env +:+ ".json") = JObj o ->
  parsedValue JSON_parse (Some value) = Some stored ->
  files (snd (applyConfigValue JSON_parse config key (Some value) env target configDir w))
  = <[configDir := <[env +:+ ".json" := Json.pretty (JObj (Obj.set key stored o))]> d]>
      (files w).
Proof.
  intros Htarget Hd Hdoc Hstored. unfold applyConfigValue. rewrite Htarget.
  pose proof (reads_document JSON_parse configDir (env +:+ ".json") w) as Hread.
  rewrite Hdoc in Hread.
  assert (Hlocal :
    runs (bind (try_catch (bind (readFile configDir (env +:+ ".json"))
                                (parse JSON_parse))
                          (fun _ => ret (JObj [])))
               (fun configData =>
                  bind (lift (assign key (parsedValue JSON_parse (Some value)) configData))
                       (fun configData =>
                          writeFile configDir (env +:+ ".json") (Json.pretty configData))))
         w (inr tt)
         (with_files
            (<[configDir := <[env +:+ ".json" :=
                                Json.pretty (JObj (Obj.set key stored o))]> d]> (files w))
            w)).
  { eapply runs_bind; [exact Hread|].
    rewrite Hstored. cbn [assign lift].
    eapply runs_bind; [apply runs_ret|].
    now apply runs_writeFile. }
  unfold bind at 1. rewrite Hlocal.
  destruct (String.eqb target "aws" || String.eqb target "both").
  - rewrite aws_part_preserves_files. reflexivity.
  - reflexivity.
Qed.

Lemma parsedValue_plain JSON_parse s :
  Str.startsWith "{" s = false -> Str.startsWith "[" s = false ->
  parsedValue JSON_parse (Some s) = Some (JStr s).
Proof.
  intros H1 H2. unfold parsedValue. rewrite H1, H2.
  now rewrite andb_false_r.
Qed.

(** The report around [applyConfigValue] in [setConfig] changes no file. *)
Lemma setConfig_report_files (m : M unit) msg w :
  files (snd (try_catch (bind m (fun _ => print msg))
                (fun error => bind (print (ErrFailedToSet error))
                                   (fun _ => throw error)) w))
  = files (snd (m w)).
Proof. unfold try_catch, bind. destruct (m w) as [[e|[]] w1]; reflexivity. Qed.



(* ===================================================================== *)
(** ** What the listing prints                                           *)
(* ===================================================================== *)

Lemma printed_environments_app (a b : list message) :
  printed_environments (a ++ b) = (printed_environments a ++ printed_environments b)%list.
Proof. unfold printed_environments. apply flat_map_app. Qed.

(** A loop whose body always returns and prints its item prints the
    items in order. *)
Lemma for_each_prints (body : string -> M unit) :
  (forall env w, exists w',
      body env w = (inr tt, w') /\
      printed_environments (console w')
      = (printed_environments (console w) ++ [env])%list) ->
  forall envs w, exists w',
      for_each envs body w = (inr tt, w') /\
      printed_environments (console w')
      = (printed_environments (console w) ++ envs)%list.
Proof.
  intros Hbody envs. induction envs as [|env envs IH]; intros w.
  - exists w. split; [reflexivity | now rewrite app_nil_r].
  - destruct (Hbody env w) as (w1 & Hrun1 & Hp1).
    destruct (IH w1) as (w2 & Hrun2 & Hp2).
    exists w2. split.
    + cbn [for_each]. unfold bind. now rewrite Hrun1.
    + rewrite Hp2, Hp1, <- app_assoc. reflexivity.
Qed.

Lemma print_environment_line env aws w :
  exists w',
    print (LogEnvironment env aws) w = (inr tt, w') /\
    printed_environments (console w')
    = (printed_environments (console w) ++ [env])%list.
Proof.
  eexists. split; [reflexivity|].
  cbn [console]. now rewrite printed_environments_app.
Qed.

(** Probing the store for one environment always returns. *)
Lemma probe_returns JSON_parse region secretName w :
  exists found w',
    try_catch (bind (secretsClient JSON_parse region secretName) (fun _ => ret true))
              (fun _ => ret false) w = (inr found, w')
    /\ console w' = console w.
Proof.
  pose proof (secretsClient_preserves_console JSON_parse region secretName w) as H.
  unfold try_catch, bind.
  destruct (secretsClient JSON_parse region secretName w) as [[e|v] w1];
    cbn [snd] in H; eauto.
Qed.

Lemma env_list_body_prints JSON_parse config options env w :
  exists w',
    match truthy (rc_packageName config) with
    | Some packageName =>
        if e_showAws options then
          let secretName := secretName_of packageName env in
          let region := default "us-east-1" (truthy (rc_awsRegion config)) in
          bind (try_catch (bind (secretsClient JSON_parse region secretName)
                                (fun _ => ret true))
                          (fun _ => ret false))
               (fun found => print (LogEnvironment env (Some found)))
        else print (LogEnvironment env None)
    | None => print (LogEnvironment env None)
    end w = (inr tt, w')
    /\ printed_environments (console w')
       = (printed_environments (console w) ++ [env])%list.
Proof.
  destruct (truthy (rc_packageName config)) as [packageName|];
    [destruct (e_showAws options)|]; try apply print_environment_line.
  cbv zeta.
  destruct (probe_returns JSON_parse
              (default "us-east-1" (truthy (rc_awsRegion config)))
              (secretName_of packageName env) w) as (found & w1 & Hrun & Hc).
  destruct (print_environment_line env (Some found) w1) as (w2 & Hrun2 & Hp).
  exists w2. split.
  - unfold bind at 1. now rewrite Hrun.
  - now rewrite Hp, Hc.
Qed.

(** C8. The environment lines printed by [envCommand list] and by the
    legacy [createEnvironment list] are exactly the environments derived
    from the names in the configuration directory, and ["default"] is
    never one of them, whatever the directory holds. *)
Theorem default_is_never_listed
    JSON_parse config u name options legacy w :
  let configDir :=
    default "./config" (e_configDir options ||| rc_configDirPath config) in
  let listed := environments_of (directory_listing w configDir) in
  let listed_legacy := environments_of (directory_listing w (l_configDir legacy)) in
  printed_environments
    (console (snd (envCommand JSON_parse config u "list" name options w)))
  = (printed_environments (console w) ++ listed)%list
  /\ printed_environments
       (console (snd (createEnvironment JSON_parse config u "list" name legacy w)))
     = (printed_environments (console w) ++ listed_legacy)%list
  /\ Forall (fun env => env <> "default") listed
  /\ Forall (fun env => env <> "default") listed_legacy
  /\ (forall files, Forall (fun env => env <> "default") (environments_of files)).
Proof.
  intros configDir listed listed_legacy.
  split; [|split; [|split; [|split]]];
    try apply default_never_listed.
  - subst listed. unfold directory_listing.
    destruct (files w !! configDir) as [d|] eqn:Hd.
    + destruct (for_each_prints _
                  (env_list_body_prints JSON_parse config options)
                  (environments_of (map fst (map_to_list d)))
                  (printing LogEnvironments w)) as (w1 & Hrun & Hp).
      assert (Hr : envCommand JSON_parse config u "list" name options w = (inr tt, w1)).
      { unfold envCommand. cbn [String.eqb Ascii.eqb Bool.eqb]. fold configDir.
        apply runs_try. unfold env_list.
        eapply runs_bind; [eapply runs_readdir; eassumption|].
        eapply runs_bind; [apply runs_print | exact Hrun]. }
      rewrite Hr. cbn [snd]. rewrite Hp.
      cbn [printing console]. rewrite printed_environments_app.
      cbn [printed_environments flat_map]. now rewrite app_nil_r.
    + assert (Hr : envCommand JSON_parse config u "list" name options w
                   = (inl (ENOENT configDir ""),
                      printing (ErrEnvironmentOperationFailed (ENOENT configDir "")) w)).
      { unfold envCommand. cbn [String.eqb Ascii.eqb Bool.eqb]. fold configDir.
        eapply runs_catch.
        - unfold env_list. eapply runs_bind_throws.
          eapply runs_readdir_missing; eassumption.
        - eapply runs_bind; [apply runs_print | apply runs_throw]. }
      rewrite Hr. cbn [snd printing console].
      rewrite printed_environments_app. reflexivity.
  - subst listed_legacy. unfold directory_listing.
    destruct (files w !! l_configDir legacy) as [d|] eqn:Hd.
    + destruct (for_each_prints _
                  (fun env => print_environment_line env None)
                  (environments_of (map fst (map_to_list d)))
                  (printing LogEnvironments w)) as (w1 & Hrun & Hp).
      assert (Hr : createEnvironment JSON_parse config u "list" name legacy w
                   = (inr tt, w1)).
      { unfold createEnvironment. cbn [String.eqb Ascii.eqb Bool.eqb].
        apply runs_try.
        eapply runs_bind; [eapply runs_readdir; eassumption|].
        eapply runs_bind; [apply runs_print | exact Hrun]. }
      rewrite Hr. cbn [snd]. rewrite Hp.
      cbn [printing console]. rewrite printed_environments_app.
      cbn [printed_environments flat_map]. now rewrite app_nil_r.
    + assert (Hr : createEnvironment JSON_parse config u "list" name legacy w
                   = (inl (ENOENT (l_configDir legacy) ""),
                      printing (ErrFailedToManageEnvironment
                                  (ENOENT (l_configDir legacy) "")) w)).
      { unfold createEnvironment. cbn [String.eqb Ascii.eqb Bool.eqb].
        eapply runs_catch.
        - eapply runs_bind_throws. eapply runs_readdir_missing; eassumption.
        - eapply runs_bind; [apply runs_print | apply runs_throw]. }
      rewrite Hr. cbn [snd printing console].
      rewrite printed_environments_app. reflexivity.
Qed.

(* ===================================================================== *)
(** ** Further primitives                                                *)
(* ===================================================================== *)

Lemma runs_writeFile_no_dir dir file content w :
  files w !! dir = None ->
  runs (writeFile dir file content) w (inl (ENOENT dir file)) w.
Proof. run_primitive. Qed.

Lemma runs_mkdir_fresh dir w :
  files w !! dir = None ->
  runs (mkdir dir) w (inr tt) (with_files (<[dir := ∅]> (files w)) w).
Proof. run_primitive. Qed.

Lemma runs_unlink dir file w d content :
  files w !! dir = Some d -> d !! file = Some content ->
  runs (unlink dir file) w (inr tt) (with_files (<[dir := delete file d]> (files w)) w).
Proof. run_primitive. Qed.

Lemma runs_unlink_missing dir file w d :
  files w !! dir = Some d -> d !! file = None ->
  runs (unlink dir file) w (inl (ENOENT dir file)) w.
Proof. run_primitive. Qed.

Lemma runs_access_no_dir dir file w :
  files w !! dir = None ->
  runs (access dir file) w (inl (ENOENT dir file)) w.
Proof.
  intros Hd. unfold access. eapply runs_bind_throws.
  now apply runs_readFile_no_dir.
Qed.

(** A file is absent when its directory is, or when the directory does
    not hold it. *)
Lemma absent_cases w dir file :
  file_of w dir file = None ->
  files w !! dir = None \/ exists d, files w !! dir = Some d /\ d !! file = None.
Proof.
  unfold file_of. destruct (files w !! dir) as [d|]; [|now left].
  intros H. right. now exists d.
Qed.

Lemma runs_readFile_absent dir file w :
  file_of w dir file = None ->
  runs (readFile dir file) w (inl (ENOENT dir file)) w.
Proof.
  intros H. destruct (absent_cases _ _ _ H) as [Hd|(d & Hd & Hf)].
  - now apply runs_readFile_no_dir.
  - eapply runs_readFile_missing; eassumption.
Qed.

Lemma runs_access_absent dir file w :
  file_of w dir file = None ->
  runs (access dir file) w (inl (ENOENT dir file)) w.
Proof.
  intros H. unfold access. eapply runs_bind_throws.
  now apply runs_readFile_absent.
Qed.

(* ===================================================================== *)
(** ** [awsCommand]: what is checked before anything is done             *)
(* ===================================================================== *)

(** X1. Without a package name (neither the option nor the process
    configuration gives one) every action of [awsCommand] fails with
    "Package name not provided" after printing the hint, and an action
    that is none of push, pull, sync and delete fails with "Unknown AWS
    action"; in both cases nothing is sent and neither the files nor the
    secrets change. *)
Theorem awsCommand_fails_fast JSON_parse config u action options w :
  (packageName_of config options = None ->
   awsCommand JSON_parse config u action options w
   = (inl PackageNameNotProvided, printing ErrPackageNameRequired w))
  /\ (forall packageName,
      packageName_of config options = Some packageName ->
      String.eqb action "push" = false -> String.eqb action "pull" = false ->
      String.eqb action "sync" = false -> String.eqb action "delete" = false ->
      awsCommand JSON_parse config u action options w
      = (inl (UnknownAction action),
         printing (ErrAwsOperationFailed (UnknownAction action)) w)).
Proof.
  split.
  - intros Hpkg. unfold awsCommand. rewrite Hpkg.
    eapply runs_bind; [apply runs_print | apply runs_throw].
  - intros packageName Hpkg H1 H2 H3 H4. unfold awsCommand.
    rewrite Hpkg, H1, H2, H3, H4.
    eapply runs_catch; [apply runs_throw|].
    eapply runs_bind; [apply runs_print|].
    eapply runs_bind; [apply runs_ret | apply runs_throw].
Qed.

Lemma awsCommand_fails_fast_example :
  let nameless := Rc None None None None in
  packageName_of nameless Example.staging = None
  /\ awsCommand Reader.read nameless Example.accepts "sync" Example.staging
       Example.diverged
     = (inl PackageNameNotProvided, printing ErrPackageNameRequired Example.diverged)
  /\ packageName_of Example.project Example.staging = Some "app"
  /\ awsCommand Reader.read Example.project Example.accepts "status" Example.staging
       Example.diverged
     = (inl (UnknownAction "status"),
        printing (ErrAwsOperationFailed (UnknownAction "status")) Example.diverged).
Proof.
  intros nameless.
  split; [reflexivity|]. split.
  - apply (proj1 (awsCommand_fails_fast Reader.read nameless Example.accepts "sync"
                    Example.staging Example.diverged)).
    reflexivity.
  - split; [reflexivity|].
    apply (proj2 (awsCommand_fails_fast Reader.read Example.project Example.accepts
                    "status" Example.staging Example.diverged) "app");
      reflexivity.
Defined.

(* ===================================================================== *)
(** ** Push and pull: the other paths                                    *)
(* ===================================================================== *)

Lemma writeFile_outcome dir file content w :
  (exists d, files w !! dir = Some d /\
             writeFile dir file content w
             = (inr tt, with_files (<[dir := <[file := content]> d]> (files w)) w))
  \/ (files w !! dir = None /\
      writeFile dir file content w = (inl (ENOENT dir file), w)).
Proof.
  destruct (files w !! dir) as [d|] eqn:Hd.
  - left. exists d. split; [reflexivity|]. now apply runs_writeFile.
  - right. split; [reflexivity|]. now apply runs_writeFile_no_dir.
Qed.

Lemma access_outcome dir file w :
  access dir file w = (inr tt, w) \/ access dir file w = (inl (ENOENT dir file), w).
Proof.
  destruct (file_of w dir file) as [content|] eqn:Hf.
  - left. unfold file_of in Hf. destruct (files w !! dir) as [d|] eqn:Hd; [|discriminate].
    eapply runs_access; eassumption.
  - right. now apply runs_access_absent.
Qed.

(** A handler that reports and rethrows changes neither the outcome nor
    the stores. *)
Lemma rethrow_effect {A : Type} (m : M A) (h : error -> M A) w :
  (forall e w', fst (h e w') = inl e /\ files (snd (h e w')) = files w'
                /\ secrets (snd (h e w')) = secrets w'
                /\ sent (snd (h e w')) = sent w') ->
  let r := try_catch m h w in
  fst r = fst (m w) /\ files (snd r) = files (snd (m w))
  /\ secrets (snd r) = secrets (snd (m w)) /\ sent (snd r) = sent (snd (m w)).
Proof.
  intros Hh. unfold try_catch. destruct (m w) as [[e|a] w1]; cbn [fst snd].
  - apply Hh.
  - repeat split.
Qed.

Lemma report_and_throw_effect {A : Type} msg e w :
  let r := bind (print msg) (fun _ => throw (A := A) e) w in
  fst r = inl e /\ files (snd r) = files w /\ secrets (snd r) = secrets w
  /\ sent (snd r) = sent w.
Proof. repeat split. Qed.

(** The [catch] block of [awsCommand]. *)
Lemma aws_failed_effect e w :
  let r := bind (print (ErrAwsOperationFailed e))
                (fun _ => bind (credentials_help e) (fun _ => throw (A := unit) e)) w in
  fst r = inl e /\ files (snd r) = files w /\ secrets (snd r) = secrets w
  /\ sent (snd r) = sent w.
Proof. destruct e; repeat split. Qed.

Lemma fetch_preserves_secrets region name : preserves secrets (fetch region name).
Proof. intros w. apply fetch_effect. Qed.

Lemma secretsClient_preserves_secrets JSON_parse region name :
  preserves secrets (secretsClient JSON_parse region name).
Proof.
  apply preserves_bind; [apply fetch_preserves_secrets|].
  intros payload. apply preserves_parse.
Qed.

Section PullFacts.

Variable JSON_parse : string -> option json.
Variable config : rc.
Variable u : user.
Variable options : aws_options.
Variable packageName : string.
Hypothesis Hpackage : packageName_of config options = Some packageName.

Let environment := environment_of config options.
Let configDir := configDir_of config options.
Let region := region_of config options.
Let secretName := secretName_of packageName environment.
Let file := environment +:+ ".json".

Lemma push_missing_run w :
  file_of w configDir file = None ->
  awsCommand JSON_parse config u "push" options w
  = (inl (ENOENT configDir file),
     printing (ErrAwsOperationFailed (ENOENT configDir file))
       (printing (ErrLocalConfigNotFound configDir file) w)).
Proof.
  intros Hf. unfold awsCommand. rewrite Hpackage.
  cbn [String.eqb Ascii.eqb Bool.eqb].
  eapply runs_catch.
  - unfold push. eapply runs_bind_throws. eapply runs_catch.
    + now apply runs_readFile_absent.
    + eapply runs_bind; [apply runs_print | apply runs_throw].
  - eapply runs_bind; [apply runs_print|].
    eapply runs_bind; [apply runs_ret | apply runs_throw].
Qed.

(** X2. A push whose local document is missing fails with the file-system
    error after printing "Local config not found": nothing is sent to the
    store, and neither the files nor the secrets change. *)
Theorem push_without_local_sends_nothing w :
  file_of w configDir file = None ->
  let r := awsCommand JSON_parse config u "push" options w in
  fst r = inl (ENOENT configDir file)
  /\ sent (snd r) = sent w
  /\ secrets (snd r) = secrets w
  /\ files (snd r) = files w
  /\ console (snd r)
     = (console w ++ [ErrLocalConfigNotFound configDir file;
                      ErrAwsOperationFailed (ENOENT configDir file)])%list.
Proof.
  intros Hf r. subst r. rewrite (push_missing_run w Hf).
  cbn [fst snd printing files secrets sent console].
  rewrite <- app_assoc. repeat split.
Qed.

(** The body of [pull] once the secret is read. *)
Lemma pull_write_step secrets_doc w d :
  files w !! configDir = Some d ->
  o_override options = true \/ d !! file = None
  \/ answer u (AskOverrideLocal environment) = true ->
  runs (let write :=
          bind (writeFile configDir file (Json.pretty secrets_doc))
               (fun _ => print (LogPulled configDir file)) in
        if negb (o_override options) then
          bind (try_catch (bind (access configDir file) (fun _ => ret true))
                          (fun _ => ret false))
               (fun present : bool =>
                  if present then
                    bind (confirm u (AskOverrideLocal environment))
                         (fun shouldOverride : bool =>
                            if negb shouldOverride then print LogOperationCancelled
                            else write)
                  else write)
        else write)
       w (inr tt)
       (printing (LogPulled configDir file)
          (with_files (<[configDir := <[file := Json.pretty secrets_doc]> d]> (files w)) w)).
Proof.
  intros Hd Hgo. cbv zeta.
  assert (Hwrite :
    runs (bind (writeFile configDir file (Json.pretty secrets_doc))
               (fun _ => print (LogPulled configDir file)))
         w (inr tt)
         (printing (LogPulled configDir file)
            (with_files (<[configDir := <[file := Json.pretty secrets_doc]> d]> (files w)) w))).
  { eapply runs_bind; [apply runs_writeFile; eassumption | apply runs_print]. }
  destruct (o_override options) eqn:Hov; cbn [negb]; [exact Hwrite|].
  destruct (d !! file) as [content|] eqn:Hf.
  - destruct Hgo as [Hgo|[Hgo|Hgo]]; try discriminate.
    eapply runs_bind.
    { apply runs_try. eapply runs_bind; [eapply runs_access; eassumption | apply runs_ret]. }
    eapply runs_bind; [apply runs_ret|]. rewrite Hgo. exact Hwrite.
  - eapply runs_bind.
    { eapply runs_catch; [|apply runs_ret].
      eapply runs_bind_throws. eapply runs_access_missing; eassumption. }
    exact Hwrite.
Qed.

Lemma pull_run w d payload secrets_doc :
  files w !! configDir = Some d ->
  credentials w = true ->
  secrets w !! (region, secretName) = Some (Secret payload None) ->
  JSON_parse payload = Some secrets_doc ->
  o_override options = true \/ d !! file = None
  \/ answer u (AskOverrideLocal environment) = true ->
  awsCommand JSON_parse config u "pull" options w
  = (inr tt,
     printing (LogPulled configDir file)
       (with_files (<[configDir := <[file := Json.pretty secrets_doc]> d]> (files w))
          (sending (Fetch region secretName) w))).
Proof.
  intros Hd Hc Hs Hp Hgo.
  apply awsCommand_pull with (packageName := packageName); [exact Hpackage|].
  unfold pull. apply runs_try.
  eapply runs_bind.
  { unfold secretsClient. eapply runs_bind; [eapply runs_fetch; eassumption|].
    unfold parse. rewrite Hp. apply runs_ret. }
  apply (pull_write_step secrets_doc (sending (Fetch region secretName) w) d);
    assumption.
Qed.

(** X3. A pull that goes ahead (with [override], or onto no local
    document, or once the overwrite is confirmed) replaces the local
    document by the pretty-printed secret; it reads the secret once and
    leaves the store as it is. *)
Theorem pull_overwrites_local w d payload secrets_doc :
  files w !! configDir = Some d ->
  credentials w = true ->
  secrets w !! (region, secretName) = Some (Secret payload None) ->
  JSON_parse payload = Some secrets_doc ->
  o_override options = true \/ d !! file = None
  \/ answer u (AskOverrideLocal environment) = true ->
  let r := awsCommand JSON_parse config u "pull" options w in
  fst r = inr tt
  /\ files (snd r) = <[configDir := <[file := Json.pretty secrets_doc]> d]> (files w)
  /\ secrets (snd r) = secrets w
  /\ sent (snd r) = (sent w ++ [Fetch region secretName])%list.
Proof.
  intros Hd Hc Hs Hp Hgo r. subst r.
  rewrite (pull_run w d payload secrets_doc) by assumption.
  repeat split.
Qed.

(** X4. Push followed by pull, both with [override]: the secret holds the
    local file as it was, and the local file is rewritten as the
    pretty-printed JSON value it held. *)
Theorem push_then_pull_normalises_local w d content doc :
  files w !! configDir = Some d ->
  d !! file = Some content ->
  JSON_parse content = Some doc ->
  credentials w = true ->
  state_of w region secretName = ACTIVE \/ state_of w region secretName = DELETED ->
  o_override options = true ->
  let w1 := snd (awsCommand JSON_parse config u "push" options w) in
  let r := awsCommand JSON_parse config u "pull" options w1 in
  fst r = inr tt
  /\ files (snd r) = <[configDir := <[file := Json.pretty doc]> d]> (files w)
  /\ secrets (snd r) = <[(region, secretName) := Secret content None]> (secrets w).
Proof.
  intros Hd Hf Hp Hc Hstate Hov w1 r.
  assert (Hw1 : files w1 = files w /\ credentials w1 = true
                /\ secrets w1 = <[(region, secretName) := Secret content None]> (secrets w)).
  { subst w1. unfold state_of in Hstate.
    destruct (secrets w !! (region, secretName)) as [[old [dd|]]|] eqn:Hs;
      cbn [DeletionDate] in Hstate.
    - destruct Hstate; discriminate.
    - rewrite (push_updates JSON_parse config u options packageName Hpackage
                 w d content old) by auto.
      repeat split. exact Hc.
    - rewrite (push_creates JSON_parse config u options packageName Hpackage
                 w d content) by auto.
      repeat split. exact Hc. }
  destruct Hw1 as (Hf1 & Hc1 & Hs1).
  subst r.
  rewrite (pull_run w1 d content doc).
  - cbn [fst snd printing with_files sending files secrets].
    rewrite Hf1, Hs1. repeat split.
  - now rewrite Hf1.
  - exact Hc1.
  - rewrite Hs1. apply lookup_insert_eq.
  - exact Hp.
  - now left.
Qed.

(** X5. Whatever happens, a pull never changes the secret store, and a
    pull that fails leaves every local file as it was. *)
Theorem pull_never_writes_on_failure w :
  let r := awsCommand JSON_parse config u "pull" options w in
  secrets (snd r) = secrets w
  /\ (forall e, fst r = inl e -> files (snd r) = files w).
Proof.
  intros r. subst r. unfold awsCommand. rewrite Hpackage.
  cbn [String.eqb Ascii.eqb Bool.eqb]. fold environment configDir region secretName.
  destruct (rethrow_effect
              (pull JSON_parse u configDir environment region secretName options)
              (fun error =>
                 bind (print (ErrAwsOperationFailed error))
                      (fun _ => bind (credentials_help error) (fun _ => throw error)))
              w aws_failed_effect) as (-> & -> & -> & _).
  unfold pull. fold file. cbv zeta.
  match goal with
  | |- context [try_catch ?m ?h w] =>
      destruct (rethrow_effect m h w
                  (fun e w' => report_and_throw_effect (ErrFailedToPull e) e w'))
        as (-> & -> & -> & _)
  end.
  match goal with
  | |- context [bind (secretsClient JSON_parse region secretName) ?k w] =>
      change (bind (secretsClient JSON_parse region secretName) k w)
        with (match secretsClient JSON_parse region secretName w with
              | (inl e, w') => (inl e, w')
              | (inr a, w') => k a w'
              end)
  end.
  pose proof (secretsClient_preserves_files JSON_parse region secretName w) as Hf1.
  pose proof (secretsClient_preserves_secrets JSON_parse region secretName w) as Hs1.
  destruct (secretsClient JSON_parse region secretName w) as [[e|secrets_doc] w1];
    cbn [fst snd] in *; [split; [assumption | intros; assumption]|].
  assert (Hwrite : forall w2,
    files w2 = files w -> secrets w2 = secrets w ->
    let r := bind (writeFile configDir file (Json.pretty secrets_doc))
                  (fun _ => print (LogPulled configDir file)) w2 in
    secrets (snd r) = secrets w
    /\ (forall e, fst r = inl e -> files (snd r) = files w)).
  { intros w2 Hf2 Hs2. unfold bind.
    destruct (writeFile_outcome configDir file (Json.pretty secrets_doc) w2)
      as [(d & Hd & Hw)|(Hd & Hw)]; rewrite Hw; cbn; split; auto; discriminate. }
  match goal with
  | |- secrets (snd ?x) = _ /\ _ => set (r := x)
  end.
  assert (Hcases :
    r = bind (writeFile configDir file (Json.pretty secrets_doc))
             (fun _ => print (LogPulled configDir file)) w1
    \/ r = (inr tt, printing LogOperationCancelled w1)).
  { subst r.
    destruct (bind (writeFile configDir file (Json.pretty secrets_doc))
                   (fun _ => print (LogPulled configDir file)) w1)
      as [res w2] eqn:Hw.
    destruct (o_override options); cbn [negb]; [left; exact Hw|].
    destruct (access_outcome configDir file w1) as [Ha|Ha].
    - destruct (answer u (AskOverrideLocal environment)) eqn:Hanswer.
      + left. eapply runs_bind.
        { apply runs_try. eapply runs_bind; [exact Ha | apply runs_ret]. }
        eapply runs_bind; [apply runs_ret|]. rewrite Hanswer. exact Hw.
      + right. eapply runs_bind.
        { apply runs_try. eapply runs_bind; [exact Ha | apply runs_ret]. }
        eapply runs_bind; [apply runs_ret|]. rewrite Hanswer. apply runs_print.
    - left. eapply runs_bind.
      { eapply runs_catch; [eapply runs_bind_throws; exact Ha | apply runs_ret]. }
      exact Hw. }
  destruct Hcases as [Hr|Hr]; rewrite Hr.
  - now apply Hwrite.
  - cbn. split; [exact Hs1 | discriminate].
Qed.

End PullFacts.

Lemma push_without_local_sends_nothing_example :
  let options := AwsOptions (Some "prod") None None None false None false None None in
  let r := awsCommand Reader.read Example.project Example.accepts "push" options
             Example.diverged in
  packageName_of Example.project options = Some "app"
  /\ file_of Example.diverged "./config" "prod.json" = None
  /\ fst r = inl (ENOENT "./config" "prod.json")
  /\ sent (snd r) = [] /\ secrets (snd r) = secrets Example.diverged.
Proof.
  intros options r.
  assert (H1 : packageName_of Example.project options = Some "app") by reflexivity.
  assert (H2 : file_of Example.diverged (configDir_of Example.project options)
                 (environment_of Example.project options +:+ ".json") = None)
    by reflexivity.
  pose proof (push_without_local_sends_nothing Reader.read Example.project
                Example.accepts options "app" H1 Example.diverged H2)
    as (Hfail & Hsent & Hsecrets & _).
  split; [exact H1|]. split; [exact H2|]. split; [exact Hfail|].
  split; [exact Hsent | exact Hsecrets].
Defined.

Lemma pull_overwrites_local_example :
  let options := AwsOptions (Some "staging") None None None true None false None None in
  let r := awsCommand Reader.read Example.project Example.declines "pull" options
             Example.diverged in
  packageName_of Example.project options = Some "app"
  /\ files Example.diverged !! "./config" = Some Example.config_dir
  /\ credentials Example.diverged = true
  /\ secrets Example.diverged !! ("us-east-1", "app/staging")
     = Some (Secret (Json.stringify Example.remote_doc) None)
  /\ Reader.read (Json.stringify Example.remote_doc) = Some Example.remote_doc
  /\ o_override options = true
  /\ fst r = inr tt
  /\ files (snd r)
     = {[ "./config" :=
            <["staging.json" := Json.pretty Example.remote_doc]> Example.config_dir ]}.
Proof.
  intros options r.
  assert (H1 : packageName_of Example.project options = Some "app") by reflexivity.
  assert (H2 : files Example.diverged !! configDir_of Example.project options
               = Some Example.config_dir) by reflexivity.
  assert (H3 : credentials Example.diverged = true) by reflexivity.
  assert (H4 : secrets Example.diverged
               !! (region_of Example.project options,
                   secretName_of "app" (environment_of Example.project options))
               = Some (Secret (Json.stringify Example.remote_doc) None))
    by reflexivity.
  assert (H5 : Reader.read (Json.stringify Example.remote_doc)
               = Some Example.remote_doc) by reflexivity.
  assert (H6 : o_override options = true) by reflexivity.
  pose proof (pull_overwrites_local Reader.read Example.project Example.declines
                options "app" H1 Example.diverged Example.config_dir
                (Json.stringify Example.remote_doc) Example.remote_doc
                H2 H3 H4 H5 (or_introl H6)) as (Hok & Hfiles & _).
  split; [exact H1|]. split; [exact H2|]. split; [exact H3|]. split; [exact H4|].
  split; [exact H5|]. split; [exact H6|]. split; [exact Hok|].
  subst r. rewrite Hfiles. vm_compute. reflexivity.
Defined.

Lemma pull_never_writes_on_failure_example :
  let options := AwsOptions (Some "prod") None None None true None false None None in
  let r := awsCommand Reader.read Example.project Example.accepts "pull" options
             Example.diverged in
  packageName_of Example.project options = Some "app"
  /\ fst r = inl ResourceNotFoundException
  /\ secrets (snd r) = secrets Example.diverged
  /\ files (snd r) = files Example.diverged.
Proof.
  intros options r.
  assert (H1 : packageName_of Example.project options = Some "app") by reflexivity.
  pose proof (pull_never_writes_on_failure Reader.read Example.project
                Example.accepts options "app" H1 Example.diverged)
    as (Hsecrets & Hfiles).
  assert (H2 : fst r = inl ResourceNotFoundException) by (vm_compute; reflexivity).
  split; [exact H1|]. split; [exact H2|]. split; [exact Hsecrets|].
  exact (Hfiles ResourceNotFoundException H2).
Defined.

Lemma push_then_pull_normalises_local_example :
  let options := AwsOptions (Some "staging") None None None true None false None None in
  let w1 := snd (awsCommand Reader.read Example.project Example.declines "push"
                   options Example.diverged) in
  let r := awsCommand Reader.read Example.project Example.declines "pull" options w1 in
  packageName_of Example.project options = Some "app"
  /\ files Example.diverged !! "./config" = Some Example.config_dir
  /\ Example.config_dir !! "staging.json" = Some (Json.pretty Example.local_doc)
  /\ Reader.read (Json.pretty Example.local_doc) = Some Example.local_doc
  /\ credentials Example.diverged = true
  /\ state_of Example.diverged "us-east-1" "app/staging" = ACTIVE
  /\ o_override options = true
  /\ fst r = inr tt
  /\ files (snd r) = files Example.diverged
  /\ secrets (snd r)
     = {[ ("us-east-1", "app/staging") := Secret (Json.pretty Example.local_doc) None ]}.
Proof.
  intros options w1 r.
  assert (H1 : packageName_of Example.project options = Some "app") by reflexivity.
  assert (H2 : files Example.diverged !! configDir_of Example.project options
               = Some Example.config_dir) by reflexivity.
  assert (H3 : Example.config_dir !! (environment_of Example.project options +:+ ".json")
               = Some (Json.pretty Example.local_doc)) by reflexivity.
  assert (H4 : Reader.read (Json.pretty Example.local_doc) = Some Example.local_doc)
    by reflexivity.
  assert (H5 : credentials Example.diverged = true) by reflexivity.
  assert (H6 : state_of Example.diverged "us-east-1" "app/staging" = ACTIVE)
    by reflexivity.
  assert (H7 : o_override options = true) by reflexivity.
  pose proof (push_then_pull_normalises_local Reader.read Example.project
                Example.declines options "app" H1 Example.diverged
                Example.config_dir (Json.pretty Example.local_doc) Example.local_doc
                H2 H3 H4 H5 (or_introl H6) H7) as (Hok & Hfiles & Hsecrets).
  split; [exact H1|]. split; [exact H2|]. split; [exact H3|]. split; [exact H4|].
  split; [exact H5|]. split; [exact H6|]. split; [exact H7|]. split; [exact Hok|].
  subst r w1. split.
  - rewrite Hfiles. vm_compute. reflexivity.
  - rewrite Hsecrets. vm_compute. reflexivity.
Defined.

(* ===================================================================== *)
(** ** Environments: create and delete                                   *)
(* ===================================================================== *)

Lemma truthy_idempotent a s : truthy a = Some s -> truthy (Some s) = Some s.
Proof. destruct a as [[|c a]|]; intros [= <-]; reflexivity. Qed.

Lemma or_else_first a b s : truthy a = Some s -> a ||| b = Some s.
Proof. intros H. unfold or_else. now rewrite H. Qed.

Section EnvFacts.

Variable JSON_parse : string -> option json.
Variable config : rc.
Variable u : user.
Variable options : env_options.
Variable name : option string.

Let configDir := default "./config" (e_configDir options ||| rc_configDirPath config).
Let n := match truthy name with
         | Some n => n
         | None => typed u AskEnvironmentName
         end.
Let file := n +:+ ".json".

Lemma runs_name w :
  runs match truthy name with
       | Some n => ret n
       | None => input u AskEnvironmentName
       end w (inr n) w.
Proof. subst n. destruct (truthy name); apply runs_ret. Qed.

Lemma runs_not_present w :
  file_of w configDir file = None ->
  runs (try_catch (bind (access configDir file) (fun _ => ret true))
                  (fun _ => ret false)) w (inr false) w.
Proof.
  intros Hf. eapply runs_catch; [|apply runs_ret].
  eapply runs_bind_throws. now apply runs_access_absent.
Qed.

(** Creating the directory when needed, then writing one file. *)
Lemma runs_mkdir_write {A : Type} content (k : M A) w r w' :
  runs k (with_files
            (<[configDir := <[file := content]> (default ∅ (files w !! configDir))]>
               (files w)) w) r w' ->
  runs (bind (mkdir configDir)
             (fun _ => bind (writeFile configDir file content) (fun _ => k))) w r w'.
Proof.
  destruct (files w !! configDir) as [d|] eqn:Hd; cbn [default]; intros Hk.
  - eapply runs_bind; [eapply runs_mkdir; eassumption|].
    eapply runs_bind; [apply runs_writeFile; eassumption | exact Hk].
  - eapply runs_bind; [now apply runs_mkdir_fresh|].
    eapply runs_bind.
    + apply runs_writeFile. cbn [with_files files]. apply lookup_insert_eq.
    + unfold with_files in *. cbn [files secrets credentials clock sent console] in *.
      now rewrite insert_insert_eq.
Qed.

Lemma create_fresh_run w :
  file_of w configDir file = None ->
  truthy (e_from options) = None ->
  e_withAws options && has_packageName config = false ->
  envCommand JSON_parse config u "create" name options w
  = (inr tt,
     printing (LogCreatedEnvironment n)
       (with_files
          (<[configDir := <[file := Json.pretty (JObj [("environment", JStr n)])]>
                            (default ∅ (files w !! configDir))]> (files w))
          w)).
Proof.
  intros Hf Hfrom Haws. unfold envCommand. cbn [String.eqb Ascii.eqb Bool.eqb].
  fold configDir. apply runs_try. unfold env_create.
  eapply runs_bind; [apply runs_name|].
  eapply runs_bind; [now apply runs_not_present|].
  cbn iota. rewrite Hfrom.
  eapply runs_bind; [apply runs_ret|].
  apply runs_mkdir_write.
  eapply runs_bind; [apply runs_print|].
  rewrite Haws. apply runs_ret.
Qed.



Lemma create_template_run w d from tc template :
  files w !! configDir = Some d ->
  d !! file = None ->
  truthy (e_from options) = Some from ->
  d !! (from +:+ ".json") = Some tc ->
  JSON_parse tc = Some template ->
  e_withAws options && has_packageName config = false ->
  envCommand JSON_parse config u "create" name options w
  = (inr tt,
     printing (LogCreatedEnvironment n)
       (with_files
          (<[configDir :=
               <[file := Json.pretty
                           (JObj (Obj.set "environment" (JStr n)
                                    (Obj.spread [] template)))]> d]> (files w))
          (printing (LogUsingTemplate from) w))).
Proof.
  intros Hd Hf Hfrom Ht Hp Haws. unfold envCommand.
  cbn [String.eqb Ascii.eqb Bool.eqb].
  fold configDir. apply runs_try. unfold env_create.
  eapply runs_bind; [apply runs_name|].
  eapply runs_bind.
  { apply runs_not_present. unfold file_of. now rewrite Hd. }
  cbn iota. rewrite Hfrom.
  eapply runs_bind.
  { apply runs_try.
    eapply runs_bind; [eapply runs_readFile; eassumption|].
    eapply runs_bind; [unfold parse; rewrite Hp; apply runs_ret|].
    eapply runs_bind; [apply runs_print | apply runs_ret]. }
  apply runs_mkdir_write.
  cbn [printing files]. rewrite Hd. cbn [default].
  eapply runs_bind; [apply runs_print|].
  rewrite Haws. apply runs_ret.
Qed.

(** X7. Creating an environment from a template writes the template's
    document with the [environment] field set to the new name: that field
    reads the new name, every other key reads what the template holds,
    and the template file itself is left as it is. *)
Theorem create_from_template_rewrites_environment w d from tc template :
  files w !! configDir = Some d ->
  d !! file = None ->
  truthy (e_from options) = Some from ->
  d !! (from +:+ ".json") = Some tc ->
  JSON_parse tc = Some (JObj template) ->
  Obj.wf template ->
  e_withAws options && has_packageName config = false ->
  let r := envCommand JSON_parse config u "create" name options w in
  let doc := Obj.set "environment" (JStr n) (Obj.spread [] (JObj template)) in
  fst r = inr tt
  /\ file_of (snd r) configDir file = Some (Json.pretty (JObj doc))
  /\ file_of (snd r) configDir (from +:+ ".json") = Some tc
  /\ Obj.get "environment" doc = Some (JStr n)
  /\ (forall k, k <> "environment" -> Obj.get k doc = Obj.get k template).
Proof.
  intros Hd Hf Hfrom Ht Hp Hwf Haws r doc. subst r.
  rewrite (create_template_run w d from tc (JObj template)) by assumption.
  cbn [fst snd printing with_files files].
  split; [reflexivity|]. split; [|split; [|split]].
  - unfold file_of. cbn [files printing with_files]. rewrite lookup_insert_eq. apply lookup_insert_eq.
  - unfold file_of. cbn [files printing with_files]. rewrite lookup_insert_eq.
    rewrite lookup_insert_ne; [exact Ht|]. intros Heq. congruence.
  - apply ObjFacts.get_set_eq.
  - intros k Hk. subst doc. rewrite ObjFacts.get_set_ne by assumption.
    rewrite ObjFacts.get_spread_object by assumption.
    now destruct (Obj.get k template).
Qed.

Lemma create_template_failure w from :
  file_of w configDir file = None ->
  truthy (e_from options) = Some from ->
  (forall tc, file_of w configDir (from +:+ ".json") = Some tc -> JSON_parse tc = None) ->
  envCommand JSON_parse config u "create" name options w
  = (inl TemplateNotFound,
     printing (ErrEnvironmentOperationFailed TemplateNotFound)
       (printing (ErrTemplateNotFound from) w)).
Proof.
  intros Hf Hfrom Hbad. unfold envCommand. cbn [String.eqb Ascii.eqb Bool.eqb].
  fold configDir.
  eapply runs_catch; [|eapply runs_bind; [apply runs_print | apply runs_throw]].
  unfold env_create.
  eapply runs_bind; [apply runs_name|].
  eapply runs_bind; [now apply runs_not_present|].
  cbn iota. rewrite Hfrom.
  eapply runs_bind_throws.
  destruct (file_of w configDir (from +:+ ".json")) as [tc|] eqn:Ht.
  - unfold file_of in Ht. destruct (files w !! configDir) as [d|] eqn:Hd; [|discriminate].
    eapply runs_catch.
    + eapply runs_bind; [eapply runs_readFile; eassumption|].
      eapply runs_bind_throws. unfold parse. rewrite (Hbad tc eq_refl). apply runs_throw.
    + eapply runs_bind; [apply runs_print | apply runs_throw].
  - eapply runs_catch.
    + eapply runs_bind_throws. now apply runs_readFile_absent.
    + eapply runs_bind; [apply runs_print | apply runs_throw].
Qed.

(** X8. When the template cannot be used (its file is missing, or holds
    text that is not JSON), creation fails with "Template not found" and
    mutates nothing: no file is written and no directory is created. *)
Theorem create_with_unusable_template_writes_nothing w from :
  file_of w configDir file = None ->
  truthy (e_from options) = Some from ->
  (forall tc, file_of w configDir (from +:+ ".json") = Some tc -> JSON_parse tc = None) ->
  let r := envCommand JSON_parse config u "create" name options w in
  fst r = inl TemplateNotFound
  /\ files (snd r) = files w
  /\ secrets (snd r) = secrets w
  /\ sent (snd r) = sent w.
Proof.
  intros Hf Hfrom Hbad r. subst r.
  rewrite (create_template_failure w from) by assumption.
  repeat split.
Qed.


End EnvFacts.


Lemma create_from_template_rewrites_environment_example :
  let options := EnvOptions None (Some "staging") false false false None in
  let r := envCommand Reader.read Example.project Example.declines "create"
             (Some "qa") options Example.diverged in
  files Example.diverged !! "./config" = Some Example.config_dir
  /\ Example.config_dir !! "qa.json" = None
  /\ Example.config_dir !! "staging.json" = Some (Json.pretty Example.local_doc)
  /\ Reader.read (Json.pretty Example.local_doc)
     = Some (JObj [("x", JNum 1); ("y", JNum 2)])
  /\ Obj.wf [("x", JNum 1); ("y", JNum 2)]
  /\ fst r = inr tt
  /\ file_of (snd r) "./config" "qa.json"
     = Some (Json.pretty
               (JObj [("x", JNum 1); ("y", JNum 2); ("environment", JStr "qa")])).
Proof.
  intros options r.
  assert (H1 : files Example.diverged
               !! default "./config"
                    (e_configDir options ||| rc_configDirPath Example.project)
               = Some Example.config_dir) by reflexivity.
  assert (H2 : Example.config_dir
               !! (match truthy (Some "qa") with
                   | Some n => n
                   | None => typed Example.declines AskEnvironmentName
                   end +:+ ".json") = None) by reflexivity.
  assert (H3 : truthy (e_from options) = Some "staging") by reflexivity.
  assert (H4 : Example.config_dir !! ("staging" +:+ ".json")
               = Some (Json.pretty Example.local_doc)) by reflexivity.
  assert (H5 : Reader.read (Json.pretty Example.local_doc)
               = Some (JObj [("x", JNum 1); ("y", JNum 2)])) by reflexivity.
  assert (H6 : Obj.wf [("x", JNum 1); ("y", JNum 2)]) by reflexivity.
  assert (H7 : e_withAws options && has_packageName Example.project = false)
    by reflexivity.
  pose proof (create_from_template_rewrites_environment Reader.read Example.project
                Example.declines options (Some "qa") Example.diverged
                Example.config_dir "staging" (Json.pretty Example.local_doc)
                [("x", JNum 1); ("y", JNum 2)] H1 H2 H3 H4 H5 H6 H7)
    as (Hok & Hnew & _).
  split; [exact H1|]. split; [exact H2|]. split; [exact H4|]. split; [exact H5|].
  split; [exact H6|]. split; [exact Hok|]. exact Hnew.
Defined.

Lemma create_with_unusable_template_writes_nothing_example :
  let options := EnvOptions None (Some "prod") false false false None in
  let r := envCommand Reader.read Example.project Example.declines "create"
             (Some "qa") options Example.diverged in
  file_of Example.diverged "./config" "qa.json" = None
  /\ file_of Example.diverged "./config" "prod.json" = None
  /\ fst r = inl TemplateNotFound
  /\ files (snd r) = files Example.diverged.
Proof.
  intros options r.
  assert (H1 : file_of Example.diverged
                 (default "./config" (e_configDir options ||| rc_configDirPath Example.project))
                 (match truthy (Some "qa") with
                  | Some n => n
                  | None => typed Example.declines AskEnvironmentName
                  end +:+ ".json") = None) by reflexivity.
  assert (H2 : truthy (e_from options) = Some "prod") by reflexivity.
  assert (H3 : forall tc,
             file_of Example.diverged
               (default "./config" (e_configDir options ||| rc_configDirPath Example.project))
               ("prod" +:+ ".json") = Some tc ->
             Reader.read tc = None) by (intros tc H; discriminate H).
  pose proof (create_with_unusable_template_writes_nothing Reader.read
                Example.project Example.declines options (Some "qa")
                Example.diverged "prod" H1 H2 H3) as (Hfail & Hfiles & _).
  split; [exact H1|]. split; [reflexivity|]. split; [exact Hfail | exact Hfiles].
Defined.


(* ===================================================================== *)
(** ** Deleting an environment                                           *)
(* ===================================================================== *)

Lemma credentials_help_preserves_files e : preserves files (credentials_help e).
Proof. destruct e; intros w; reflexivity. Qed.

Lemma deleteSecret_preserves_files config u environment options :
  preserves files (deleteSecret config u environment options).
Proof.
  unfold deleteSecret.
  destruct (packageName_of config options) as [packageName|].
  - apply preserves_try_catch.
    + apply preserves_bind.
      * unfold delete_confirmation, confirm.
        destruct (o_confirm options) as [[|]|]; apply preserves_ret.
      * intros [|]; cbn [negb]; [|apply print_preserves_files].
        apply preserves_bind.
        -- unfold deletion_choice, confirm.
           destruct (o_days options) as [days|].
           ++ destruct ((days <? 7)%Z || (days >? 30)%Z); auto with frame.
           ++ destruct (o_force options); auto with frame.
              apply preserves_bind; [apply preserves_ret|].
              intros [|]; apply preserves_ret.
        -- intros choice. unfold send_deletion.
           apply preserves_bind; [apply send_preserves_files|].
           intros response. apply preserves_bind; [apply print_preserves_files|].
           intros _. destruct response; apply print_preserves_files.
    + intros e. unfold delete_failed.
      apply preserves_bind; [|intros _; apply preserves_throw].
      destruct e; try apply print_preserves_files;
        (apply preserves_bind;
         [apply print_preserves_files | intros _; apply credentials_help_preserves_files]).
  - auto with frame.
Qed.

Lemma awsCommand_delete_preserves_files JSON_parse config u options :
  preserves files (awsCommand JSON_parse config u "delete" options).
Proof.
  unfold awsCommand.
  destruct (packageName_of config options) as [packageName|]; [|auto with frame].
  cbn [String.eqb Ascii.eqb Bool.eqb].
  apply preserves_try_catch; [apply deleteSecret_preserves_files|].
  intros e. apply preserves_bind; [apply print_preserves_files|].
  intros _. apply preserves_bind; [apply credentials_help_preserves_files|].
  intros _. apply preserves_throw.
Qed.

Section EnvDelete.

Variable JSON_parse : string -> option json.
Variable config : rc.
Variable u : user.
Variable options : env_options.
Variable name : option string.

Let configDir := default "./config" (e_configDir options ||| rc_configDirPath config).
Let n := match truthy name with
         | Some n => n
         | None => typed u AskEnvironmentToDelete
         end.
Let file := n +:+ ".json".

Lemma runs_name_to_delete w :
  runs match truthy name with
       | Some n => ret n
       | None => input u AskEnvironmentToDelete
       end w (inr n) w.
Proof. subst n. destruct (truthy name); apply runs_ret. Qed.

(** X10. [envCommand delete] asks first.  Declined, it prints "Cancelled"
    and changes nothing.  Confirmed, it removes [<name>.json] and nothing
    else when the file exists, and fails with the file-system error,
    again changing nothing, when it does not. *)
Theorem env_delete_removes_one_file w :
  let r := envCommand JSON_parse config u "delete" name options w in
  (answer u (AskDeleteEnvironment n) = false ->
   r = (inr tt, printing LogCancelled w))
  /\ (forall d content,
      answer u (AskDeleteEnvironment n) = true ->
      files w !! configDir = Some d -> d !! file = Some content ->
      e_withAws options && has_packageName config = false ->
      r = (inr tt,
           printing (LogDeletedEnvironment n)
             (with_files (<[configDir := delete file d]> (files w)) w)))
  /\ (answer u (AskDeleteEnvironment n) = true ->
      file_of w configDir file = None ->
      r = (inl (ENOENT configDir file),
           printing (ErrEnvironmentOperationFailed (ENOENT configDir file)) w)).
Proof.
  intros r. subst r. unfold envCommand. cbn [String.eqb Ascii.eqb Bool.eqb].
  fold configDir. unfold env_delete. split; [|split].
  - intros Hno. apply runs_try.
    eapply runs_bind; [apply runs_name_to_delete|].
    eapply runs_bind; [apply runs_ret|]. fold n. rewrite Hno. apply runs_print.
  - intros d content Hyes Hd Hf Haws. apply runs_try.
    eapply runs_bind; [apply runs_name_to_delete|].
    eapply runs_bind; [apply runs_ret|]. fold n. rewrite Hyes. cbn [negb].
    eapply runs_bind; [eapply runs_unlink; eassumption|].
    eapply runs_bind; [apply runs_print|].
    rewrite Haws. apply runs_ret.
  - intros Hyes Hf.
    eapply runs_catch; [|eapply runs_bind; [apply runs_print | apply runs_throw]].
    eapply runs_bind; [apply runs_name_to_delete|].
    eapply runs_bind; [apply runs_ret|]. fold n. rewrite Hyes. cbn [negb].
    eapply runs_bind_throws.
    destruct (absent_cases _ _ _ Hf) as [Hd|(d & Hd & Hfile)].
    + unfold unlink, bind, get_world, runs. now rewrite Hd.
    + eapply runs_unlink_missing; eassumption.
Qed.

(** X11. With [withAws] the deletion cascades to the secret, after the
    local file is removed: whatever the cascade does (it may be cancelled
    at its own prompt, or fail), the local file stays removed and no other
    file changes. *)
Theorem env_delete_cascade_is_not_rolled_back w d content :
  answer u (AskDeleteEnvironment n) = true ->
  files w !! configDir = Some d -> d !! file = Some content ->
  e_withAws options && has_packageName config = true ->
  let r := envCommand JSON_parse config u "delete" name options w in
  files (snd r) = <[configDir := delete file d]> (files w).
Proof.
  intros Hyes Hd Hf Haws r. subst r.
  unfold envCommand. cbn [String.eqb Ascii.eqb Bool.eqb]. fold configDir.
  set (w1 := printing (LogDeletedEnvironment n)
               (with_files (<[configDir := delete file d]> (files w)) w)).
  pose proof (awsCommand_delete_preserves_files JSON_parse config u
                (delete_options n options) w1) as Hkeep.
  destruct (awsCommand JSON_parse config u "delete" (delete_options n options) w1)
    as [res w2] eqn:Hcascade.
  cbn [snd] in Hkeep.
  assert (Hbody : env_delete JSON_parse config u configDir name options w = (res, w2)).
  { unfold env_delete.
    eapply runs_bind; [apply runs_name_to_delete|].
    eapply runs_bind; [apply runs_ret|]. fold n. rewrite Hyes. cbn [negb].
    eapply runs_bind; [eapply runs_unlink; eassumption|].
    eapply runs_bind; [apply runs_print|].
    rewrite Haws. exact Hcascade. }
  unfold try_catch. rewrite Hbody. destruct res as [e|[]]; cbn; exact Hkeep.
Qed.

End EnvDelete.

Lemma env_delete_cascade_is_not_rolled_back_example :
  let options := EnvOptions None None true false false None in
  let r := envCommand Reader.read Example.project
             (User (fun q => match q with
                             | AskDeleteEnvironment _ => true
                             | _ => false
                             end) (fun _ => "qa") 7 [])
             "delete" (Some "staging") options Example.diverged in
  files Example.diverged !! "./config" = Some Example.config_dir
  /\ Example.config_dir !! "staging.json" = Some (Json.pretty Example.local_doc)
  /\ e_withAws options && has_packageName Example.project = true
  /\ fst r = inr tt
  /\ file_of (snd r) "./config" "staging.json" = None
  /\ secrets (snd r) = secrets Example.diverged.
Proof.
  intros options r.
  set (u := User (fun q => match q with
                           | AskDeleteEnvironment _ => true
                           | _ => false
                           end) (fun _ => "qa") 7 []) in *.
  assert (H1 : answer u (AskDeleteEnvironment
                           match truthy (Some "staging") with
                           | Some n => n
                           | None => typed u AskEnvironmentToDelete
                           end) = true) by reflexivity.
  assert (H2 : files Example.diverged
               !! default "./config"
                    (e_configDir options ||| rc_configDirPath Example.project)
               = Some Example.config_dir) by reflexivity.
  assert (H3 : Example.config_dir
               !! (match truthy (Some "staging") with
                   | Some n => n
                   | None => typed u AskEnvironmentToDelete
                   end +:+ ".json")
               = Some (Json.pretty Example.local_doc)) by reflexivity.
  assert (H4 : e_withAws options && has_packageName Example.project = true)
    by reflexivity.
  pose proof (env_delete_cascade_is_not_rolled_back Reader.read Example.project u
                options (Some "staging") Example.diverged Example.config_dir
                (Json.pretty Example.local_doc) H1 H2 H3 H4) as Hfiles.
  split; [exact H2|]. split; [exact H3|]. split; [exact H4|].
  split; [vm_compute; reflexivity|]. split.
  - unfold file_of. subst r. rewrite Hfiles. vm_compute. reflexivity.
  - vm_compute. reflexivity.
Defined.

Lemma env_delete_removes_one_file_example :
  let r := envCommand Reader.read Example.project Example.accepts "delete"
             (Some "staging") Example.plain Example.diverged in
  answer Example.accepts (AskDeleteEnvironment "staging") = true
  /\ files Example.diverged !! "./config" = Some Example.config_dir
  /\ Example.config_dir !! "staging.json" = Some (Json.pretty Example.local_doc)
  /\ r = (inr tt,
          printing (LogDeletedEnvironment "staging")
            (with_files
               (<["./config" := delete "staging.json" Example.config_dir]>
                  (files Example.diverged))
               Example.diverged)).
Proof.
  intros r.
  pose proof (env_delete_removes_one_file Reader.read Example.project Example.accepts
                Example.plain (Some "staging") Example.diverged) as (_ & Hyes & _).
  split; [reflexivity|]. split; [reflexivity|]. split; [reflexivity|].
  apply (Hyes Example.config_dir (Json.pretty Example.local_doc)); reflexivity.
Defined.

(* ===================================================================== *)
(** ** The legacy [createEnvironment]                                    *)
(* ===================================================================== *)

(** X12. The legacy [createEnvironment create] does not look for an
    existing document: whatever [<name>.json] held, it is replaced by the
    one-field document [{environment: name}].  It does not create the
    directory either: without it the command fails with the file-system
    error. *)
Theorem legacy_create_overwrites JSON_parse config u name options w :
  let n := match truthy name with
           | Some n => n
           | None => typed u AskEnvironmentNameLegacy
           end in
  let dir := l_configDir options in
  let r := createEnvironment JSON_parse config u "create" name options w in
  truthy (l_template options) = None ->
  (forall d,
     files w !! dir = Some d ->
     fst r = inr tt
     /\ files (snd r)
        = <[dir := <[n +:+ ".json" := Json.pretty (JObj [("environment", JStr n)])]> d]>
            (files w))
  /\ (files w !! dir = None ->
      r = (inl (ENOENT dir (n +:+ ".json")),
           printing (ErrFailedToManageEnvironment (ENOENT dir (n +:+ ".json"))) w)).
Proof.
  intros n dir r Htemplate.
  assert (Hname : forall w0,
    runs match truthy name with
         | Some n => ret n
         | None => input u AskEnvironmentNameLegacy
         end w0 (inr n) w0).
  { intros w0. subst n. destruct (truthy name); apply runs_ret. }
  split.
  - intros d Hd.
    set (w1 := with_files
                 (<[dir := <[n +:+ ".json" :=
                               Json.pretty (JObj [("environment", JStr n)])]> d]> (files w))
                 w).
    assert (Hr : exists w2, r = (inr tt, w2) /\ files w2 = files w1).
    { destruct (truthy (rc_packageName config)) as [packageName|] eqn:Hpkg;
        [destruct (l_withSecrets options) eqn:Hws|].
      - exists (printing (LogSecretNameNote (secretName_of packageName n))
                  (printing (LogCreatedEnvironment n) w1)).
        split; [|reflexivity]. subst r. unfold createEnvironment.
        cbn [String.eqb Ascii.eqb Bool.eqb]. apply runs_try.
        eapply runs_bind; [apply Hname|].
        rewrite Htemplate. eapply runs_bind; [apply runs_ret|].
        eapply runs_bind; [apply runs_writeFile; eassumption|].
        eapply runs_bind; [apply runs_print|].
        rewrite Hpkg, Hws. apply runs_print.
      - exists (printing (LogCreatedEnvironment n) w1).
        split; [|reflexivity]. subst r. unfold createEnvironment.
        cbn [String.eqb Ascii.eqb Bool.eqb]. apply runs_try.
        eapply runs_bind; [apply Hname|].
        rewrite Htemplate. eapply runs_bind; [apply runs_ret|].
        eapply runs_bind; [apply runs_writeFile; eassumption|].
        eapply runs_bind; [apply runs_print|].
        rewrite Hpkg, Hws. apply runs_ret.
      - exists (printing (LogCreatedEnvironment n) w1).
        split; [|reflexivity]. subst r. unfold createEnvironment.
        cbn [String.eqb Ascii.eqb Bool.eqb]. apply runs_try.
        eapply runs_bind; [apply Hname|].
        rewrite Htemplate. eapply runs_bind; [apply runs_ret|].
        eapply runs_bind; [apply runs_writeFile; eassumption|].
        eapply runs_bind; [apply runs_print|].
        rewrite Hpkg. apply runs_ret. }
    destruct Hr as (w2 & -> & Hfiles). split; [reflexivity | exact Hfiles].
  - intros Hd. subst r. unfold createEnvironment.
    cbn [String.eqb Ascii.eqb Bool.eqb].
    eapply runs_catch; [|eapply runs_bind; [apply runs_print | apply runs_throw]].
    eapply runs_bind; [apply Hname|].
    rewrite Htemplate. eapply runs_bind; [apply runs_ret|].
    eapply runs_bind_throws. now apply runs_writeFile_no_dir.
Qed.

Lemma legacy_create_overwrites_example :
  let options := LegacyOptions "./config" None false in
  let r := createEnvironment Reader.read Example.project Example.declines "create"
             (Some "staging") options Example.diverged in
  truthy (l_template options) = None
  /\ files Example.diverged !! "./config" = Some Example.config_dir
  /\ file_of Example.diverged "./config" "staging.json"
     = Some (Json.pretty Example.local_doc)
  /\ fst r = inr tt
  /\ file_of (snd r) "./config" "staging.json"
     = Some (Json.pretty (JObj [("environment", JStr "staging")])).
Proof.
  intros options r.
  assert (H1 : truthy (l_template options) = None) by reflexivity.
  assert (H2 : files Example.diverged !! l_configDir options = Some Example.config_dir)
    by reflexivity.
  pose proof (legacy_create_overwrites Reader.read Example.project Example.declines
                (Some "staging") options Example.diverged H1) as (Hwrite & _).
  destruct (Hwrite Example.config_dir H2) as (Hok & Hfiles).
  split; [exact H1|]. split; [exact H2|]. split; [reflexivity|]. split; [exact Hok|].
  unfold file_of. subst r. rewrite Hfiles. vm_compute. reflexivity.
Defined.

(* ===================================================================== *)
(** ** Objects: assigning twice, and keys that stay distinct             *)
(* ===================================================================== *)

Module ObjMore.
Import Obj.

Lemma update_update k v1 v2 o : update k v2 (update k v1 o) = update k v2 o.
Proof.
  induction o as [|[k0 v0] o IH]; simpl; [reflexivity|].
  destruct (String.eqb k k0) eqn:E; simpl; rewrite E; [reflexivity|].
  now rewrite IH.
Qed.

Lemma update_insert_index i k v1 v2 o :
  get k o = None ->
  update k v2 (insert_index i k v1 o) = insert_index i k v2 o.
Proof.
  induction o as [|[k0 v0] o IH]; simpl.
  - now rewrite String.eqb_refl.
  - destruct (String.eqb k k0) eqn:E; [discriminate|]. intros Hget.
    destruct (array_index k0) as [j|]; [destruct (j <? i)%N|]; simpl;
      rewrite ?String.eqb_refl, ?E; try reflexivity.
    now rewrite IH.
Qed.

Lemma update_snoc k v1 v2 o :
  get k o = None -> update k v2 (o ++ [(k, v1)])%list = (o ++ [(k, v2)])%list.
Proof.
  induction o as [|[k0 v0] o IH]; simpl.
  - now rewrite String.eqb_refl.
  - destruct (String.eqb k k0) eqn:E; [discriminate|]. intros Hget.
    now rewrite IH.
Qed.

(** Assigning a key twice is assigning it the second value. *)
Lemma set_set k v1 v2 o : set k v2 (set k v1 o) = set k v2 o.
Proof.
  assert (Hhas : has k (set k v1 o) = true).
  { unfold has. now rewrite ObjFacts.get_set_eq. }
  unfold set at 1. rewrite Hhas. unfold set.
  destruct (has k o) eqn:Ho.
  - apply update_update.
  - apply ObjFacts.has_false in Ho. destruct (array_index k).
    + now apply update_insert_index.
    + now apply update_snoc.
Qed.

Lemma not_key_iff k o : existsb (String.eqb k) (keys o) = false <-> get k o = None.
Proof.
  induction o as [|[k0 v0] o IH]; simpl; [tauto|].
  destruct (String.eqb k k0); simpl; [split; discriminate | exact IH].
Qed.

Lemma keys_update k v o : keys (update k v o) = keys o.
Proof.
  induction o as [|[k0 v0] o IH]; simpl; [reflexivity|].
  destruct (String.eqb k k0); simpl; [reflexivity | now rewrite IH].
Qed.

Lemma wf_cons k v o : wf ((k, v) :: o) <-> get k o = None /\ wf o.
Proof.
  unfold wf. simpl. rewrite andb_true_iff, negb_true_iff, not_key_iff. tauto.
Qed.

Lemma wf_insert_index i k v o :
  get k o = None -> wf o -> wf (insert_index i k v o).
Proof.
  induction o as [|[k0 v0] o IH]; simpl; intros Hget Hwf.
  - reflexivity.
  - destruct (String.eqb_spec k k0) as [->|Hne]; [discriminate|].
    apply wf_cons in Hwf as [Hfresh Hwf].
    destruct (array_index k0) as [j|]; [destruct (j <? i)%N|].
    + apply wf_cons. split; [|now apply IH].
      rewrite ObjFacts.get_insert_index_ne; [exact Hfresh | congruence].
    + apply wf_cons. split; [|now apply wf_cons].
      simpl. destruct (String.eqb_spec k k0); [contradiction | exact Hget].
    + apply wf_cons. split; [|now apply wf_cons].
      simpl. destruct (String.eqb_spec k k0); [contradiction | exact Hget].
Qed.

Lemma wf_snoc k v o : get k o = None -> wf o -> wf (o ++ [(k, v)])%list.
Proof.
  induction o as [|[k0 v0] o IH]; simpl; intros Hget Hwf; [reflexivity|].
  destruct (String.eqb_spec k k0) as [->|Hne]; [discriminate|].
  apply wf_cons in Hwf as [Hfresh Hwf]. apply wf_cons. split; [|now apply IH].
  rewrite ObjFacts.get_snoc, Hfresh.
  destruct (String.eqb_spec k0 k); [congruence | reflexivity].
Qed.

(** An assignment keeps the keys of an object distinct. *)
Lemma wf_set k v o : wf o -> wf (set k v o).
Proof.
  intros Hwf. unfold set. destruct (has k o) eqn:Ho.
  - unfold wf. now rewrite keys_update.
  - apply ObjFacts.has_false in Ho. destruct (array_index k).
    + now apply wf_insert_index.
    + now apply wf_snoc.
Qed.

Lemma wf_fold_set es : forall target,
  wf target -> wf (fold_left (fun acc kv => set (fst kv) (snd kv) acc) es target).
Proof.
  induction es as [|[k v] es IH]; intros target Hwf; simpl; [exact Hwf|].
  apply IH. now apply wf_set.
Qed.

Lemma wf_spread target v : wf target -> wf (spread target v).
Proof. apply wf_fold_set. Qed.

End ObjMore.

(** Whatever the two documents hold, the merged document of a sync has
    no key twice. *)
Lemma merge_keys_are_distinct prefer localConfig awsConfig :
  Obj.wf (merge prefer localConfig awsConfig).
Proof.
  unfold merge. destruct (String.eqb prefer "local");
    repeat apply ObjMore.wf_spread; reflexivity.
Qed.

(* ===================================================================== *)
(** ** [setConfig]: the store side and the edges                         *)
(* ===================================================================== *)

Section SetFacts.

Variable JSON_parse : string -> option json.
Variable config : rc.
Variable u : user.
Variable options : set_options.
Variable key : option string.
Variable value : string.

Let env := default "local" (s_env options ||| NODE_ENV config).
Let target := default "local" (truthy (s_target options)).
Let configDir := default "./config" (s_configDir options ||| rc_configDirPath config).
Let file := env +:+ ".json".
Let region := default "us-east-1" (truthy (rc_awsRegion config)).

(** [setConfig] with one key: the report around [applyConfigValue]. *)
Lemma setConfig_single k w w' :
  s_interactive options = false ->
  truthy key = Some k ->
  runs (applyConfigValue JSON_parse config k (Some value) env target configDir)
       w (inr tt) w' ->
  setConfig JSON_parse config u key (Some value) options w
  = (inr tt, printing (LogConfigurationUpdated env) w').
Proof.
  intros Hmode Hkey Hrun. unfold setConfig. rewrite Hmode, Hkey.
  fold env target configDir. apply runs_try.
  eapply runs_bind; [exact Hrun | apply runs_print].
Qed.

Lemma setConfig_single_fails k w e w' :
  s_interactive options = false ->
  truthy key = Some k ->
  runs (applyConfigValue JSON_parse config k (Some value) env target configDir)
       w (inl e) w' ->
  setConfig JSON_parse config u key (Some value) options w
  = (inl e, printing (ErrFailedToSet e) w').
Proof.
  intros Hmode Hkey Hrun. unfold setConfig. rewrite Hmode, Hkey.
  fold env target configDir.
  eapply runs_catch; [eapply runs_bind_throws; exact Hrun|].
  eapply runs_bind; [apply runs_print | apply runs_throw].
Qed.


(** X14. Without a key, [setConfig] fails with "Key is required" before
    anything is read or written.  With a target that is none of [local],
    [aws] and [both], it stores nothing anywhere and still reports that
    the configuration was updated. *)
Theorem set_without_key_or_with_unknown_target w :
  s_interactive options = false ->
  (truthy key = None ->
   setConfig JSON_parse config u key (Some value) options w
   = (inl KeyRequired, printing (ErrFailedToSet KeyRequired) w))
  /\ (forall k,
      truthy key = Some k ->
      String.eqb target "local" = false -> String.eqb target "aws" = false ->
      String.eqb target "both" = false ->
      setConfig JSON_parse config u key (Some value) options w
      = (inr tt, printing (LogConfigurationUpdated env) w)).
Proof.
  intros Hmode. split.
  - intros Hkey. unfold setConfig. rewrite Hmode, Hkey.
    eapply runs_catch; [eapply runs_bind_throws; apply runs_throw|].
    eapply runs_bind; [apply runs_print | apply runs_throw].
  - intros k Hkey H1 H2 H3. apply setConfig_single with (k := k); [assumption..|].
    unfold applyConfigValue. rewrite H1, H2, H3. cbn [orb].
    eapply runs_bind; apply runs_ret.
Qed.

(** X15. With the target [both] and no package name, the local document
    is written first and the command then fails with "Package name
    required": the failure leaves the local change in place, and nothing
    is sent. *)
Theorem set_both_without_package_name_keeps_local_write w k d o stored :
  s_interactive options = false ->
  truthy key = Some k ->
  target = "both" ->
  truthy (rc_packageName config) = None ->
  files w !! configDir = Some d ->
  local_document JSON_parse w configDir file = JObj o ->
  parsedValue JSON_parse (Some value) = Some stored ->
  let r := setConfig JSON_parse config u key (Some value) options w in
  fst r = inl PackageNameRequired
  /\ files (snd r)
     = <[configDir := <[file := Json.pretty (JObj (Obj.set k stored o))]> d]> (files w)
  /\ sent (snd r) = sent w
  /\ secrets (snd r) = secrets w.
Proof.
  intros Hmode Hkey Htarget Hpkg Hd Hdoc Hstored r.
  assert (Hr : r = (inl PackageNameRequired,
             printing (ErrFailedToSet PackageNameRequired)
               (with_files
                  (<[configDir := <[file := Json.pretty (JObj (Obj.set k stored o))]> d]>
                     (files w)) w))).
  { subst r. apply setConfig_single_fails with (k := k); [assumption..|].
    unfold applyConfigValue. rewrite Htarget.
    cbn [String.eqb Ascii.eqb Bool.eqb orb].
    eapply runs_bind.
    { eapply runs_bind.
      { pose proof (reads_document JSON_parse configDir file w) as Hread.
        rewrite Hdoc in Hread. exact Hread. }
      rewrite Hstored. cbn [assign lift].
      eapply runs_bind; [apply runs_ret|].
      apply runs_writeFile. eassumption. }
    rewrite Hpkg. apply runs_throw. }
  rewrite Hr. repeat split.
Qed.

(** X16. Setting the same key twice in the local document leaves the
    file a single set of the second value would have written, provided the
    file written by the first set reads back as the document it prints. *)
Theorem set_twice_is_set_last w k d o stored1 stored2 value2 :
  s_interactive options = false ->
  truthy key = Some k ->
  target = "local" ->
  files w !! configDir = Some d ->
  local_document JSON_parse w configDir file = JObj o ->
  parsedValue JSON_parse (Some value) = Some stored1 ->
  parsedValue JSON_parse (Some value2) = Some stored2 ->
  JSON_parse (Json.pretty (JObj (Obj.set k stored1 o)))
  = Some (JObj (Obj.set k stored1 o)) ->
  let w1 := snd (setConfig JSON_parse config u key (Some value) options w) in
  files (snd (setConfig JSON_parse config u key (Some value2) options w1))
  = <[configDir := <[file := Json.pretty (JObj (Obj.set k stored2 o))]> d]> (files w).
Proof.
  intros Hmode Hkey Htarget Hd Hdoc Hs1 Hs2 Hback w1.
  assert (Ht : String.eqb target "local" || String.eqb target "both" = true)
    by now rewrite Htarget.
  assert (Hw1 : files w1
                = <[configDir := <[file := Json.pretty (JObj (Obj.set k stored1 o))]> d]>
                    (files w)).
  { subst w1. unfold setConfig. rewrite Hmode, Hkey. fold env target configDir.
    rewrite setConfig_report_files.
    now apply applyConfigValue_local. }
  unfold setConfig. rewrite Hmode, Hkey. fold env target configDir.
  rewrite setConfig_report_files.
  rewrite (applyConfigValue_local JSON_parse config k value2 env target configDir w1
             (<[file := Json.pretty (JObj (Obj.set k stored1 o))]> d)
             (Obj.set k stored1 o) stored2); try assumption.
  - rewrite Hw1, ObjMore.set_set, insert_insert_eq. f_equal.
    apply insert_insert_eq.
  - rewrite Hw1. apply lookup_insert_eq.
  - unfold local_document. rewrite Hw1, lookup_insert_eq, lookup_insert_eq.
    now rewrite Hback.
Qed.

End SetFacts.


Lemma set_without_key_or_with_unknown_target_example :
  let options := SetOptions (Some "staging") (Some "remote") None false in
  setConfig Reader.read Example.project Example.declines None (Some "1") options
    Example.diverged
  = (inl KeyRequired, printing (ErrFailedToSet KeyRequired) Example.diverged)
  /\ setConfig Reader.read Example.project Example.declines (Some "port") (Some "1")
       options Example.diverged
     = (inr tt, printing (LogConfigurationUpdated "staging") Example.diverged).
Proof.
  intros options. split.
  - apply (set_without_key_or_with_unknown_target Reader.read Example.project
             Example.declines options None "1" Example.diverged);
      reflexivity.
  - apply (set_without_key_or_with_unknown_target Reader.read Example.project
             Example.declines options (Some "port") "1" Example.diverged
             (eq_refl : s_interactive options = false)) with (k := "port");
      reflexivity.
Defined.

Lemma set_both_without_package_name_keeps_local_write_example :
  let options := SetOptions (Some "staging") (Some "both") None false in
  let anonymous := Rc None None None None in
  let r := setConfig Reader.read anonymous Example.declines
             (Some "ports") (Some "[1,2]") options Example.diverged in
  truthy (rc_packageName anonymous) = None
  /\ fst r = inl PackageNameRequired
  /\ files (snd r)
     = {[ "./config" :=
            <["staging.json" :=
                Json.pretty (JObj [("x", JNum 1); ("y", JNum 2);
                                   ("ports", JArr [JNum 1; JNum 2])])]>
              Example.config_dir ]}
  /\ sent (snd r) = []
  /\ secrets (snd r) = secrets Example.diverged.
Proof.
  intros options anonymous r.
  assert (H1 : s_interactive options = false) by reflexivity.
  assert (H2 : truthy (Some "ports") = Some "ports") by reflexivity.
  assert (H3 : default "local" (truthy (s_target options)) = "both") by reflexivity.
  assert (H4 : truthy (rc_packageName anonymous) = None) by reflexivity.
  assert (H5 : files Example.diverged
               !! default "./config" (s_configDir options ||| rc_configDirPath anonymous)
               = Some Example.config_dir) by reflexivity.
  assert (H6 : local_document Reader.read Example.diverged
                 (default "./config" (s_configDir options ||| rc_configDirPath anonymous))
                 (default "local" (s_env options ||| NODE_ENV anonymous) +:+ ".json")
               = JObj [("x", JNum 1); ("y", JNum 2)]) by (vm_compute; reflexivity).
  assert (H7 : parsedValue Reader.read (Some "[1,2]") = Some (JArr [JNum 1; JNum 2]))
    by (vm_compute; reflexivity).
  pose proof (set_both_without_package_name_keeps_local_write Reader.read anonymous
                Example.declines options (Some "ports") "[1,2]" Example.diverged
                "ports" Example.config_dir _ _ H1 H2 H3 H4 H5 H6 H7)
    as (Hr & Hf & Hsent & Hs).
  subst r. split; [exact H4|]. split; [exact Hr|].
  split; [rewrite Hf; vm_compute; reflexivity|].
  split; [exact Hsent | exact Hs].
Defined.

Lemma set_twice_is_set_last_example :
  let options := SetOptions (Some "staging") None None false in
  let w1 := snd (setConfig Reader.read Example.project Example.declines
                   (Some "x") (Some "[1,2]") options Example.diverged) in
  Reader.read (Json.pretty (JObj [("x", JArr [JNum 1; JNum 2]); ("y", JNum 2)]))
  = Some (JObj [("x", JArr [JNum 1; JNum 2]); ("y", JNum 2)])
  /\ files (snd (setConfig Reader.read Example.project Example.declines
                   (Some "x") (Some "on") options w1))
     = {[ "./config" :=
            <["staging.json" := Json.pretty (JObj [("x", JStr "on"); ("y", JNum 2)])]>
              Example.config_dir ]}.
Proof.
  intros options w1.
  assert (H1 : s_interactive options = false) by reflexivity.
  assert (H2 : truthy (Some "x") = Some "x") by reflexivity.
  assert (H3 : default "local" (truthy (s_target options)) = "local") by reflexivity.
  assert (H4 : files Example.diverged
               !! default "./config"
                    (s_configDir options ||| rc_configDirPath Example.project)
               = Some Example.config_dir) by reflexivity.
  assert (H5 : local_document Reader.read Example.diverged
                 (default "./config"
                    (s_configDir options ||| rc_configDirPath Example.project))
                 (default "local" (s_env options ||| NODE_ENV Example.project)
                  +:+ ".json")
               = JObj [("x", JNum 1); ("y", JNum 2)]) by (vm_compute; reflexivity).
  assert (H6 : parsedValue Reader.read (Some "[1,2]") = Some (JArr [JNum 1; JNum 2]))
    by (vm_compute; reflexivity).
  assert (H7 : parsedValue Reader.read (Some "on") = Some (JStr "on"))
    by (vm_compute; reflexivity).
  assert (H8 : Reader.read
                 (Json.pretty (JObj (Obj.set "x" (JArr [JNum 1; JNum 2])
                                       [("x", JNum 1); ("y", JNum 2)])))
               = Some (JObj (Obj.set "x" (JArr [JNum 1; JNum 2])
                               [("x", JNum 1); ("y", JNum 2)])))
    by (vm_compute; reflexivity).
  pose proof (set_twice_is_set_last Reader.read Example.project Example.declines
                options (Some "x") "[1,2]" Example.diverged "x" Example.config_dir
                _ _ _ "on" H1 H2 H3 H4 H5 H6 H7 H8) as Hfiles.
  split; [exact H8|].
  subst w1. rewrite Hfiles. vm_compute. reflexivity.
Defined.

(* ===================================================================== *)
(** ** Listing: from file names to environment names and back            *)
(* ===================================================================== *)

Module StrMore.
Import Str StrFacts.

Lemma append_nil_r s : s +:+ "" = s.
Proof. induction s as [|c s IH]; [reflexivity|]. now rewrite append_cons, IH. Qed.

Lemma append_assoc s t r : (s +:+ t) +:+ r = s +:+ (t +:+ r).
Proof. induction s as [|c s IH]; [reflexivity|]. now rewrite !append_cons, IH. Qed.

Lemma length_append s t :
  String.length (s +:+ t) = String.length s + String.length t.
Proof. induction s as [|c s IH]; [reflexivity|]. rewrite append_cons. simpl. now rewrite IH. Qed.

Lemma append_inj_r t : forall s s', s +:+ t = s' +:+ t -> s = s'.
Proof.
  induction s as [|c s IH]; intros [|c' s'] H.
  - reflexivity.
  - apply (f_equal String.length) in H. rewrite append_nil, append_cons in H.
    simpl in H. rewrite length_append in H. lia.
  - apply (f_equal String.length) in H. rewrite append_nil, append_cons in H.
    simpl in H. rewrite length_append in H. lia.
  - rewrite !append_cons in H. injection H as -> H. f_equal. now apply IH.
Qed.

Lemma prefix_refl_append p : forall t, String.prefix p (p +:+ t) = true.
Proof.
  induction p as [|a p IH]; intros t; [now destruct t|].
  rewrite append_cons. simpl. destruct (ascii_dec a a); [apply IH | contradiction].
Qed.

Lemma includes_unfold pat s :
  includes pat s =
  String.prefix pat s || match s with
                         | "" => false
                         | String _ s' => includes pat s'
                         end.
Proof. destruct s; reflexivity. Qed.

Lemma includes_append pat post : forall pre,
  includes pat post = true -> includes pat (pre +:+ post) = true.
Proof.
  induction pre as [|c pre IH]; intros H; [exact H|].
  rewrite append_cons, includes_unfold, IH by exact H. apply orb_true_r.
Qed.

Lemma includes_middle pat pre post : includes pat (pre +:+ pat +:+ post) = true.
Proof.
  apply includes_append. rewrite includes_unfold, prefix_refl_append. reflexivity.
Qed.

(** Where [pat] occurs, [replace] deletes one occurrence. *)
Lemma replace_includes pat : forall s,
  includes pat s = true ->
  exists pre post, s = pre +:+ pat +:+ post /\ replace pat "" s = pre +:+ post.
Proof.
  induction s as [|c s IH]; intros H; rewrite includes_unfold in H;
    rewrite (replace_unfold pat "");
    destruct (String.prefix pat _) eqn:Hp; try discriminate.
  - exists "", (drop (String.length pat) ""). split; [|reflexivity].
    rewrite append_nil. now apply prefix_drop.
  - exists "", (drop (String.length pat) (String c s)). split; [|reflexivity].
    rewrite append_nil. now apply prefix_drop.
  - destruct (IH H) as (pre & post & Hs & Hr).
    exists (String c pre), post. rewrite !append_cons. split; congruence.
Qed.

Lemma endsWith_unfold suf s :
  endsWith suf s =
  String.eqb suf s || match s with
                      | "" => false
                      | String _ s' => endsWith suf s'
                      end.
Proof. destruct s; reflexivity. Qed.

Lemma endsWith_append suf : forall s, endsWith suf (s +:+ suf) = true.
Proof.
  induction s as [|c s IH].
  - rewrite append_nil, endsWith_unfold, String.eqb_refl. reflexivity.
  - rewrite append_cons, endsWith_unfold, IH. apply orb_true_r.
Qed.

Lemma endsWith_split suf : forall s,
  endsWith suf s = true -> exists pre, s = pre +:+ suf.
Proof.
  induction s as [|c s IH]; intros H; rewrite endsWith_unfold in H;
    apply orb_prop in H as [H|H]; try discriminate.
  - apply String.eqb_eq in H as ->. now exists "".
  - apply String.eqb_eq in H as ->. now exists "".
  - destruct (IH H) as [pre ->]. now exists (String c pre).
Qed.

Lemma endsWith_includes suf s : endsWith suf s = true -> includes suf s = true.
Proof.
  intros H. apply endsWith_split in H as [pre ->].
  rewrite <- (append_nil_r suf) at 2. apply includes_middle.
Qed.

(** An occurrence of [.json] that is followed by anything is followed by
    a text that ends in [.json] itself, when the whole does: the pattern
    does not overlap itself. *)
Lemma json_suffix_after post : forall pre,
  endsWith ".json" (pre +:+ ".json" +:+ post) = true ->
  post = "" \/ endsWith ".json" post = true.
Proof.
  induction pre as [|c pre IH]; intros H.
  - rewrite append_nil in H. rewrite !append_cons, append_nil in H.
    cbn [endsWith String.eqb Ascii.eqb Bool.eqb andb orb] in H.
    rewrite endsWith_unfold in H.
    destruct post as [|a post]; [now left | right].
    cbn [String.eqb] in H. rewrite endsWith_unfold. exact H.
  - rewrite append_cons, endsWith_unfold in H. apply orb_prop in H as [H|H].
    + apply String.eqb_eq in H. apply (f_equal String.length) in H.
      simpl in H. rewrite !length_append in H. simpl in H. lia.
    + now apply IH.
Qed.

(** The environment name of [<n>.json] is [n], unless [n] holds [.json]. *)
Lemma replace_json n :
  includes ".json" n = false -> replace ".json" "" (n +:+ ".json") = n.
Proof.
  intros Hn.
  destruct (replace_includes ".json" (n +:+ ".json")) as (pre & post & Hs & Hr).
  { rewrite <- (append_nil_r ".json") at 2. apply includes_middle. }
  rewrite Hr.
  destruct (json_suffix_after post pre) as [->|Hpost].
  { rewrite <- Hs. apply endsWith_append. }
  - rewrite append_nil_r in *. symmetry. now apply (append_inj_r ".json").
  - apply endsWith_split in Hpost as [mid ->].
    rewrite <- !append_assoc in Hs. apply append_inj_r in Hs. subst n.
    rewrite append_assoc, includes_middle in Hn. discriminate.
Qed.

(** Conversely, only [<n>.json] has the environment name [n]. *)
Lemma replace_json_inv f n :
  endsWith ".json" f = true -> includes ".json" n = false ->
  replace ".json" "" f = n -> f = n +:+ ".json".
Proof.
  intros Hf Hn Hr.
  destruct (replace_includes ".json" f (endsWith_includes _ _ Hf))
    as (pre & post & -> & Hr').
  rewrite Hr' in Hr. subst n.
  destruct (json_suffix_after post pre Hf) as [->|Hpost].
  - now rewrite !append_nil_r.
  - apply endsWith_includes in Hpost.
    rewrite (includes_append _ _ pre Hpost) in Hn. discriminate.
Qed.

End StrMore.

Section Listing.

Variable JSON_parse : string -> option json.
Variable config : rc.
Variable u : user.
Variable options : env_options.

Let configDir := default "./config" (e_configDir options ||| rc_configDirPath config).

(** The names a directory listing holds are the files of the directory. *)
Lemma in_directory (d : gmap string string) f :
  In f (map fst (map_to_list d)) <-> is_Some (d !! f).
Proof.
  rewrite in_map_iff. split.
  - intros ([f' content] & <- & Hin). apply list_elem_of_In in Hin.
    apply elem_of_map_to_list in Hin. now exists content.
  - intros [content Hf]. exists (f, content). split; [reflexivity|].
    apply list_elem_of_In. now apply elem_of_map_to_list.
Qed.

Lemma listed_file fs n :
  includes ".json" n = false ->
  In n (environments_of fs) -> In (n +:+ ".json") fs.
Proof.
  intros Hn Hin. unfold environments_of in Hin.
  apply in_map_iff in Hin as (f & Hr & Hf).
  apply filter_In in Hf as [Hf Hkeep]. apply andb_prop in Hkeep as [Hsuf _].
  now rewrite <- (StrMore.replace_json_inv f n Hsuf Hn Hr).
Qed.

Lemma file_listed fs n :
  includes ".json" n = false -> n <> "default" ->
  In (n +:+ ".json") fs -> In n (environments_of fs).
Proof.
  intros Hn Hd Hin. unfold environments_of. apply in_map_iff.
  exists (n +:+ ".json"). split; [now apply StrMore.replace_json|].
  apply filter_In. split; [exact Hin|].
  rewrite StrMore.endsWith_append. cbn [andb].
  destruct (String.eqb_spec (n +:+ ".json") "default.json") as [Heq|]; [|reflexivity].
  exfalso. apply Hd. now apply (StrMore.append_inj_r ".json").
Qed.

Lemma env_list_run name w d :
  files w !! configDir = Some d ->
  exists w',
    envCommand JSON_parse config u "list" name options w = (inr tt, w')
    /\ printed_environments (console w')
       = (printed_environments (console w)
          ++ environments_of (map fst (map_to_list d)))%list.
Proof.
  intros Hd.
  destruct (for_each_prints _ (env_list_body_prints JSON_parse config options)
              (environments_of (map fst (map_to_list d)))
              (printing LogEnvironments w)) as (w1 & Hrun & Hp).
  exists w1. split.
  - unfold envCommand. cbn [String.eqb Ascii.eqb Bool.eqb]. fold configDir.
    apply runs_try. unfold env_list.
    eapply runs_bind; [eapply runs_readdir; eassumption|].
    eapply runs_bind; [apply runs_print | exact Hrun].
  - rewrite Hp. cbn [printing console]. rewrite printed_environments_app.
    cbn [printed_environments flat_map]. now rewrite app_nil_r.
Qed.

(** X17. [envCommand list] prints an environment exactly when its
    document is in the directory: for a name that does not hold [.json]
    and is not [default], the name is among the lines printed if and only
    if [<name>.json] is a file of the configuration directory. *)
Theorem list_prints_the_documents_of_the_directory name w d :
  files w !! configDir = Some d ->
  let r := envCommand JSON_parse config u "list" name options w in
  fst r = inr tt
  /\ exists listed,
       printed_environments (console (snd r))
       = (printed_environments (console w) ++ listed)%list
       /\ forall n, includes ".json" n = false -> n <> "default" ->
            (In n listed <-> is_Some (d !! (n +:+ ".json"))).
Proof.
  intros Hd r. subst r. destruct (env_list_run name w d Hd) as (w' & -> & Hp).
  cbn [fst snd]. split; [reflexivity|]. eexists. split; [exact Hp|].
  intros n Hn Hdef. rewrite <- in_directory. split.
  - now apply listed_file.
  - now apply file_listed.
Qed.


(** X19. An environment that was just deleted is no longer listed: after
    a confirmed deletion of an existing document, [envCommand list] does
    not print the name, provided the name does not hold [.json]. *)
Theorem deleted_environment_is_not_listed name name' w d content :
  let n := match truthy name with
           | Some n => n
           | None => typed u AskEnvironmentToDelete
           end in
  answer u (AskDeleteEnvironment n) = true ->
  files w !! configDir = Some d -> d !! (n +:+ ".json") = Some content ->
  e_withAws options && has_packageName config = false ->
  includes ".json" n = false ->
  let w1 := snd (envCommand JSON_parse config u "delete" name options w) in
  let r := envCommand JSON_parse config u "list" name' options w1 in
  fst r = inr tt
  /\ exists listed,
       printed_environments (console (snd r))
       = (printed_environments (console w) ++ listed)%list
       /\ ~ In n listed.
Proof.
  intros n Hyes Hd Hf Haws Hn w1 r.
  assert (Hw1 : w1 = printing (LogDeletedEnvironment n)
                       (with_files (<[configDir := delete (n +:+ ".json") d]> (files w)) w)).
  { subst w1.
    enough (H : envCommand JSON_parse config u "delete" name options w
                = (inr tt,
                   printing (LogDeletedEnvironment n)
                     (with_files (<[configDir := delete (n +:+ ".json") d]> (files w)) w)))
      by now rewrite H.
    unfold envCommand. cbn [String.eqb Ascii.eqb Bool.eqb]. fold configDir.
    unfold env_delete. apply runs_try.
    eapply runs_bind; [apply runs_name_to_delete|].
    eapply runs_bind; [apply runs_ret|]. fold n. rewrite Hyes. cbn [negb].
    eapply runs_bind; [eapply runs_unlink; eassumption|].
    eapply runs_bind; [apply runs_print|].
    rewrite Haws. apply runs_ret. }
  subst r. rewrite Hw1.
  destruct (env_list_run name'
              (printing (LogDeletedEnvironment n)
                 (with_files (<[configDir := delete (n +:+ ".json") d]> (files w)) w))
              (delete (n +:+ ".json") d)) as (w2 & -> & Hp).
  { cbn [printing with_files files]. apply lookup_insert_eq. }
  cbn [fst snd]. split; [reflexivity|]. eexists. split.
  - rewrite Hp. cbn [printing with_files console].
    rewrite printed_environments_app. cbn [printed_environments flat_map].
    now rewrite app_nil_r.
  - intros Hin. apply listed_file in Hin; [|exact Hn].
    apply in_directory in Hin as [c Hc]. rewrite lookup_delete_eq in Hc. discriminate.
Qed.

End Listing.

Lemma list_prints_the_documents_of_the_directory_example :
  let r := envCommand Reader.read Example.project Example.declines "list" None
             Example.plain Example.diverged in
  files Example.diverged !! "./config" = Some Example.config_dir
  /\ fst r = inr tt
  /\ exists listed,
       printed_environments (console (snd r))
       = (printed_environments (console Example.diverged) ++ listed)%list
       /\ forall n, includes ".json" n = false -> n <> "default" ->
            (In n listed <-> is_Some (Example.config_dir !! (n +:+ ".json"))).
Proof.
  intros r.
  assert (H : files Example.diverged
              !! default "./config"
                   (e_configDir Example.plain ||| rc_configDirPath Example.project)
              = Some Example.config_dir) by reflexivity.
  split; [exact H|].
  exact (list_prints_the_documents_of_the_directory Reader.read Example.project
           Example.declines Example.plain None Example.diverged Example.config_dir H).
Defined.


Lemma deleted_environment_is_not_listed_example :
  let w1 := snd (envCommand Reader.read Example.project Example.accepts "delete"
                   (Some "staging") Example.plain Example.diverged) in
  let r := envCommand Reader.read Example.project Example.accepts "list" None
             Example.plain w1 in
  Example.config_dir !! "staging.json" = Some (Json.pretty Example.local_doc)
  /\ fst r = inr tt
  /\ exists listed,
       printed_environments (console (snd r))
       = (printed_environments (console Example.diverged) ++ listed)%list
       /\ ~ In "staging" listed.
Proof.
  intros w1 r.
  assert (H1 : Example.config_dir !! ("staging" +:+ ".json")
               = Some (Json.pretty Example.local_doc)) by (vm_compute; reflexivity).
  split; [exact H1|].
  apply (deleted_environment_is_not_listed Reader.read Example.project Example.accepts
           Example.plain (Some "staging") None Example.diverged Example.config_dir
           (Json.pretty Example.local_doc));
    [reflexivity | reflexivity | exact H1 | reflexivity | reflexivity].
Defined.

(* ===================================================================== *)
(** ** Objects: the enumeration order                                    *)
(* ===================================================================== *)

Module ObjOrder.
Import Obj.

Import Order.
Local Notation p10 := pow10.

Lemma p10_pos n : (0 < p10 n)%N.
Proof. induction n; simpl pow10; lia. Qed.

Lemma p10_mono n m : n <= m -> (p10 n <= p10 m)%N.
Proof.
  induction 1 as [|m Hle IH]; [lia|]. simpl pow10. pose proof (p10_pos m). lia.
Qed.

Lemma digits_cons c s acc :
  digits (String c s) acc =
  if Nat.leb 48 (nat_of_ascii c) && Nat.leb (nat_of_ascii c) 57
  then digits s (acc * 10 + N.of_nat (nat_of_ascii c - 48))%N
  else None.
Proof. reflexivity. Qed.

Lemma digits_bounds : forall s acc r,
  digits s acc = Some r ->
  (acc * p10 (String.length s) <= r < (acc + 1) * p10 (String.length s))%N.
Proof.
  induction s as [|c s IH]; intros acc r H.
  - injection H as <-. simpl. lia.
  - rewrite digits_cons in H.
    destruct (Nat.leb 48 (nat_of_ascii c) && Nat.leb (nat_of_ascii c) 57) eqn:Hd;
      [|discriminate].
    apply andb_prop in Hd as [H1 H2]. apply Nat.leb_le in H1, H2.
    apply IH in H. cbn [String.length pow10].
    pose proof (p10_pos (String.length s)). nia.
Qed.

Lemma digits_same_length : forall s1 s2 a1 a2 r,
  String.length s1 = String.length s2 ->
  digits s1 a1 = Some r -> digits s2 a2 = Some r -> a1 = a2 /\ s1 = s2.
Proof.
  induction s1 as [|c1 s1 IH]; intros [|c2 s2] a1 a2 r Hlen H1 H2;
    try discriminate.
  - simpl in H1, H2. split; [congruence | reflexivity].
  - rewrite digits_cons in H1, H2.
    destruct (Nat.leb 48 (nat_of_ascii c1) && Nat.leb (nat_of_ascii c1) 57) eqn:Hd1;
      [|discriminate].
    destruct (Nat.leb 48 (nat_of_ascii c2) && Nat.leb (nat_of_ascii c2) 57) eqn:Hd2;
      [|discriminate].
    apply andb_prop in Hd1 as [L1 U1]. apply andb_prop in Hd2 as [L2 U2].
    apply Nat.leb_le in L1, U1, L2, U2.
    injection Hlen as Hlen.
    destruct (IH s2 _ _ r Hlen H1 H2) as [Hacc ->].
    assert (a1 = a2 /\ nat_of_ascii c1 = nat_of_ascii c2) as [-> Hc] by lia.
    split; [reflexivity|]. f_equal.
    rewrite <- (ascii_nat_embedding c1), <- (ascii_nat_embedding c2). now rewrite Hc.
Qed.

(** A canonical index text: its value, and how long it is. *)
Lemma array_index_text k i :
  array_index k = Some i ->
  digits k 0 = Some i
  /\ ((i = 0%N /\ k = "0")
      \/ (p10 (String.length k - 1) <= i < p10 (String.length k))%N).
Proof.
  destruct k as [|c rest]; [discriminate|]. unfold array_index.
  destruct (Ascii.eqb c "0" && negb (String.eqb rest "")) eqn:Hz; [discriminate|].
  destruct (digits (String c rest) 0) as [r|] eqn:Hd; [|discriminate].
  destruct (r <? 4294967295)%N; [|discriminate]. intros H. injection H as <-.
  split; [reflexivity|].
  pose proof Hd as Hb. rewrite digits_cons in Hb.
  destruct (Nat.leb 48 (nat_of_ascii c) && Nat.leb (nat_of_ascii c) 57) eqn:Hc;
    [|discriminate].
  apply andb_prop in Hc as [L U]. apply Nat.leb_le in L, U.
  apply digits_bounds in Hb.
  destruct (Ascii.eqb_spec c "0") as [->|Hne].
  - left. cbn [andb] in Hz. apply negb_false_iff, String.eqb_eq in Hz. subst rest.
    simpl in Hb. split; [lia | reflexivity].
  - right. replace (String.length (String c rest) - 1) with (String.length rest)
      by (simpl; lia).
    cbn [String.length pow10].
    assert (nat_of_ascii c <> 48).
    { intros Heq. apply Hne. rewrite <- (ascii_nat_embedding c), Heq. reflexivity. }
    pose proof (p10_pos (String.length rest)). nia.
Qed.

(** Two keys that are the same array index are the same key. *)
Lemma array_index_inj k1 k2 i :
  array_index k1 = Some i -> array_index k2 = Some i -> k1 = k2.
Proof.
  intros H1 H2.
  apply array_index_text in H1 as [D1 B1]. apply array_index_text in H2 as [D2 B2].
  assert (Hlen : String.length k1 = String.length k2).
  { assert (Hpos : forall k, digits k 0 = Some i -> k <> "" ->
                     (p10 (String.length k - 1) <= i < p10 (String.length k))%N ->
                     i <> 0%N).
    { intros k _ _ Hb. pose proof (p10_pos (String.length k - 1)). lia. }
    destruct B1 as [[-> ->]|B1], B2 as [[Hi ->]|B2]; try reflexivity.
    - pose proof (p10_pos (String.length k2 - 1)). lia.
    - pose proof (p10_pos (String.length k1 - 1)). lia.
    - destruct (Nat.lt_trichotomy (String.length k1) (String.length k2))
        as [Hlt|[Heq|Hgt]]; [|exact Heq|].
      + pose proof (p10_mono (String.length k1) (String.length k2 - 1)). lia.
      + pose proof (p10_mono (String.length k2) (String.length k1 - 1)). lia. }
  now destruct (digits_same_length k1 k2 0 0 i Hlen D1 D2).
Qed.

Lemma forallb_snoc {A} (P : A -> bool) l a :
  forallb P (l ++ [a])%list = forallb P l && P a.
Proof. rewrite forallb_app. simpl. now rewrite andb_true_r. Qed.

Lemma follows_plain k0 k : array_index k = None -> follows k0 k = true.
Proof. unfold follows. intros ->. now destruct (array_index k0). Qed.

Lemma ordered_snoc_plain k : forall ks,
  array_index k = None -> ordered ks = true -> ordered (ks ++ [k])%list = true.
Proof.
  intros ks Hk. induction ks as [|k0 ks IH]; simpl; [reflexivity|].
  intros H. apply andb_prop in H as [H1 H2].
  rewrite forallb_snoc, H1, follows_plain, IH by assumption. reflexivity.
Qed.

Lemma keys_insert_index (P : string -> bool) i k v : forall o,
  forallb P (keys (insert_index i k v o)) = P k && forallb P (keys o).
Proof.
  induction o as [|[k0 v0] o IH]; simpl; [reflexivity|].
  destruct (array_index k0) as [j|]; [destruct (j <? i)%N|]; simpl;
    rewrite ?IH; try reflexivity.
  destruct (P k), (P k0); reflexivity.
Qed.

(** What follows a key follows every smaller index as well. *)
Lemma follows_before k k0 i j ks :
  array_index k = Some i -> array_index k0 = Some j -> (i < j)%N ->
  forallb (follows k0) ks = true -> forallb (follows k) ks = true.
Proof.
  intros Hk Hk0 Hlt H. rewrite forallb_forall in *. intros x Hx.
  specialize (H x Hx). unfold follows in *. rewrite Hk. rewrite Hk0 in H.
  destruct (array_index x) as [m|]; [|reflexivity].
  apply N.ltb_lt in H. apply N.ltb_lt. lia.
Qed.

Lemma follows_index_plain k k0 i ks :
  array_index k = Some i -> array_index k0 = None ->
  forallb (follows k0) ks = true -> forallb (follows k) ks = true.
Proof.
  intros Hk Hk0 H. rewrite forallb_forall in *. intros x Hx.
  specialize (H x Hx). unfold follows in *. rewrite Hk. rewrite Hk0 in H.
  destruct (array_index x); [discriminate | reflexivity].
Qed.

Lemma ordered_insert_index i k v : forall o,
  array_index k = Some i -> get k o = None ->
  ordered (keys o) = true -> ordered (keys (insert_index i k v o)) = true.
Proof.
  intros o Hk. induction o as [|[k0 v0] o IH]; simpl; [reflexivity|].
  destruct (String.eqb_spec k k0) as [->|Hne]; [discriminate|].
  intros Hget H. apply andb_prop in H as [H1 H2].
  destruct (array_index k0) as [j|] eqn:Hk0; [destruct (j <? i)%N eqn:Hji|].
  - cbn [keys map fst ordered]. fold (keys (insert_index i k v o)).
    rewrite keys_insert_index, H1, IH by assumption.
    unfold follows. rewrite Hk0, Hk, Hji. reflexivity.
  - cbn [keys map fst ordered forallb]. fold (keys o). rewrite H1, H2.
    assert (Hlt : (i < j)%N).
    { apply N.ltb_ge in Hji. destruct (N.eq_dec i j) as [->|]; [|lia].
      exfalso. apply Hne. now apply (array_index_inj k k0 j). }
    rewrite (follows_before k k0 i j (keys o)) by assumption.
    unfold follows at 1. rewrite Hk, Hk0. apply N.ltb_lt in Hlt. now rewrite Hlt.
  - cbn [keys map fst ordered forallb]. fold (keys o). rewrite H1, H2.
    rewrite (follows_index_plain k k0 i (keys o)) by assumption.
    unfold follows at 1. rewrite Hk, Hk0. reflexivity.
Qed.

Lemma ordered_set k v o : ordered (keys o) = true -> ordered (keys (set k v o)) = true.
Proof.
  intros H. unfold set. destruct (has k o) eqn:Ho.
  - now rewrite ObjMore.keys_update.
  - apply ObjFacts.has_false in Ho. destruct (array_index k) as [i|] eqn:Hk.
    + now apply ordered_insert_index.
    + unfold keys. rewrite map_app. now apply ordered_snoc_plain.
Qed.

Lemma ordered_spread target v :
  ordered (keys target) = true -> ordered (keys (spread target v)) = true.
Proof.
  unfold spread. generalize (entries v). intros es. revert target.
  induction es as [|[k x] es IH]; intros target H; simpl; [exact H|].
  apply IH. now apply ordered_set.
Qed.

(** A new index above every key of the object goes to the end. *)
Lemma insert_index_end i k v : forall o,
  array_index k = Some i ->
  forallb (fun k0 => follows k0 k) (keys o) = true ->
  insert_index i k v o = (o ++ [(k, v)])%list.
Proof.
  intros o Hk. induction o as [|[k0 v0] o IH]; simpl; [reflexivity|].
  intros H. apply andb_prop in H as [H1 H2]. unfold follows in H1. rewrite Hk in H1.
  destruct (array_index k0) as [j|]; [|discriminate].
  rewrite H1. now rewrite IH.
Qed.

Lemma ordered_before k : forall ks1 ks2,
  ordered (ks1 ++ k :: ks2)%list = true ->
  forallb (fun k0 => follows k0 k) ks1 = true.
Proof.
  induction ks1 as [|k0 ks1 IH]; intros ks2; simpl; [reflexivity|].
  intros H. apply andb_prop in H as [H1 H2].
  rewrite forallb_app in H1. apply andb_prop in H1 as [_ H1]. simpl in H1.
  apply andb_prop in H1 as [H1 _]. rewrite H1. now apply (IH ks2).
Qed.

Lemma distinct_before k : forall ks1 ks2,
  distinct (ks1 ++ k :: ks2)%list = true -> existsb (String.eqb k) ks1 = false.
Proof.
  induction ks1 as [|k0 ks1 IH]; intros ks2; simpl; [reflexivity|].
  intros H. apply andb_prop in H as [H1 H2]. apply negb_true_iff in H1.
  rewrite existsb_app in H1. apply orb_false_elim in H1 as [_ H1]. simpl in H1.
  apply orb_false_elim in H1 as [H1 _].
  rewrite String.eqb_sym, H1. now apply (IH ks2).
Qed.

(** Copying an object whose keys are in enumeration order, key by key,
    gives the object back. *)
Lemma rebuild : forall rest acc,
  wf (acc ++ rest)%list -> ordered (keys (acc ++ rest)%list) = true ->
  fold_left (fun acc kv => set (fst kv) (snd kv) acc) rest acc = (acc ++ rest)%list.
Proof.
  induction rest as [|[k v] rest IH]; intros acc Hwf Hord; simpl.
  - now rewrite app_nil_r.
  - assert (Hset : set k v acc = (acc ++ [(k, v)])%list).
    { unfold wf, keys in Hwf. unfold keys in Hord. rewrite map_app in Hwf, Hord.
      simpl in Hwf, Hord.
      apply distinct_before in Hwf. apply ObjMore.not_key_iff in Hwf.
      unfold set, has. rewrite Hwf.
      destruct (array_index k) as [i|] eqn:Hk; [|reflexivity].
      apply insert_index_end; [exact Hk|]. now apply ordered_before in Hord. }
    rewrite Hset. rewrite IH; rewrite <- app_assoc; simpl; auto.
Qed.

Lemma spread_empty o :
  wf o -> ordered (keys o) = true -> spread [] (JObj o) = o.
Proof. intros Hwf Hord. unfold spread. cbn [entries]. now apply (rebuild o []). Qed.

Lemma update_same k v : forall o, get k o = Some v -> update k v o = o.
Proof.
  induction o as [|[k0 v0] o IH]; simpl; [reflexivity|].
  destruct (String.eqb_spec k k0) as [->|Hne]; [congruence|].
  intros H. now rewrite IH.
Qed.

Lemma get_member k v : forall o, wf o -> In (k, v) o -> get k o = Some v.
Proof.
  induction o as [|[k0 v0] o IH]; simpl; [contradiction|].
  intros Hwf Hin. apply ObjMore.wf_cons in Hwf as [Hfresh Hwf].
  destruct Hin as [Heq|Hin]; [injection Heq as -> ->; now rewrite String.eqb_refl|].
  destruct (String.eqb_spec k k0) as [->|Hne]; [|now apply IH].
  rewrite (IH Hwf Hin) in Hfresh. discriminate.
Qed.

(** Spreading an object over itself changes nothing. *)
Lemma spread_self o : wf o -> spread o (JObj o) = o.
Proof.
  intros Hwf. unfold spread. cbn [entries].
  assert (H : forall rest, (forall k v, In (k, v) rest -> get k o = Some v) ->
                fold_left (fun acc kv => set (fst kv) (snd kv) acc) rest o = o).
  { induction rest as [|[k v] rest IH]; intros Hall; simpl; [reflexivity|].
    assert (Hk : get k o = Some v) by (apply Hall; now left).
    unfold set at 2. unfold has. rewrite Hk. cbn [fst snd].
    rewrite (update_same k v o Hk). apply IH. intros k' v' Hin. apply Hall. now right. }
  apply H. intros k v. now apply get_member.
Qed.

Lemma ordered_merge prefer localConfig awsConfig :
  ordered (keys (merge prefer localConfig awsConfig)) = true.
Proof.
  unfold merge. destruct (String.eqb prefer "local");
    repeat apply ordered_spread; reflexivity.
Qed.

(** Merging a document with itself gives it back, when its keys are
    distinct and in enumeration order. *)
Lemma merge_same prefer o :
  wf o -> ordered (keys o) = true -> merge prefer (JObj o) (JObj o) = o.
Proof.
  intros Hwf Hord. unfold merge.
  destruct (String.eqb prefer "local");
    rewrite (spread_empty o Hwf Hord); now apply spread_self.
Qed.

End ObjOrder.

(* ===================================================================== *)
(** ** A second sync                                                     *)
(* ===================================================================== *)

Lemma print_preserves_credentials msg : preserves credentials (print msg).
Proof. intros w. reflexivity. Qed.

Lemma readFile_preserves_credentials dir file : preserves credentials (readFile dir file).
Proof.
  intros w. unfold readFile, bind, get_world.
  destruct (files w !! dir) as [d|]; [destruct (d !! file)|]; reflexivity.
Qed.

Lemma writeFile_preserves_credentials dir file content :
  preserves credentials (writeFile dir file content).
Proof.
  intros w. unfold writeFile, bind, get_world.
  destruct (files w !! dir) as [d|]; reflexivity.
Qed.

Lemma fetch_preserves_credentials region name : preserves credentials (fetch region name).
Proof.
  intros [f s cr t sn co].
  unfold fetch, transmit, record, bind, get_world, ret, throw.
  cbn [files secrets credentials clock sent console].
  destruct cr; cbn [fst snd files secrets credentials clock sent console];
    [|reflexivity].
  destruct (s !! (region, name)) as [[p [dd|]]|]; reflexivity.
Qed.

Lemma send_preserves_credentials region c : preserves credentials (send region c).
Proof.
  intros [f s cr t sn co].
  unfold send, transmit, record, bind, get_world, state_of, set_secrets, ret, throw.
  cbn [files secrets credentials clock sent console].
  destruct cr; cbn [fst snd files secrets credentials clock sent console];
    [|reflexivity].
  destruct c as [name payload|name payload|name mode];
    destruct (s !! (region, name)) as [[p [dd|]]|];
    try destruct mode; reflexivity.
Qed.

Lemma sync_preserves_credentials JSON_parse configDir environment region secretName options :
  preserves credentials (sync JSON_parse configDir environment region secretName options).
Proof.
  unfold sync, secretsClient.
  repeat first
    [ apply print_preserves_credentials
    | apply readFile_preserves_credentials
    | apply writeFile_preserves_credentials
    | apply fetch_preserves_credentials
    | apply send_preserves_credentials
    | apply preserves_parse
    | apply preserves_ret
    | apply preserves_throw
    | apply preserves_try_catch; [|intros ?]
    | apply preserves_bind; [|intros ?]
    | match goal with |- preserves _ (match ?e with _ => _ end) => destruct e end ].
Qed.

Section SyncTwice.

Variable JSON_parse : string -> option json.
Variable config : rc.
Variable u : user.
Variable options : aws_options.
Variable packageName : string.
Hypothesis Hpackage : packageName_of config options = Some packageName.

Let environment := environment_of config options.
Let configDir := configDir_of config options.
Let region := region_of config options.
Let secretName := secretName_of packageName environment.
Let file := environment +:+ ".json".
Let prefer := default "local" (truthy (o_prefer options)).

(** X20. A second sync changes nothing more.  When the two texts written
    by a sync read back as the merged document, syncing again right away
    leaves every file and every secret as the first sync left them; it
    reads the secret once and sends one update holding the same text. *)
Theorem second_sync_changes_nothing w d :
  files w !! configDir = Some d ->
  credentials w = true ->
  state_of w region secretName = ACTIVE \/ state_of w region secretName = DELETED ->
  let merged :=
    merge prefer (local_document JSON_parse w configDir file)
                 (remote_document JSON_parse w region secretName) in
  JSON_parse (Json.pretty (JObj merged)) = Some (JObj merged) ->
  JSON_parse (Json.stringify (JObj merged)) = Some (JObj merged) ->
  let w1 := snd (awsCommand JSON_parse config u "sync" options w) in
  let r := awsCommand JSON_parse config u "sync" options w1 in
  fst r = inr tt
  /\ files (snd r) = files w1
  /\ secrets (snd r) = secrets w1
  /\ sent (snd r)
     = (sent w1 ++ [Fetch region secretName;
                    Send region (UpdateSecretCommand secretName
                                   (Json.stringify (JObj merged)))])%list.
Proof.
  intros Hd Hc Hstate merged Hpretty Hcompact w1 r.
  destruct (sync_run JSON_parse config u options packageName Hpackage w d Hd Hc Hstate)
    as (_ & Hf1 & Hs1 & _).
  fold environment configDir region secretName file prefer in Hf1, Hs1.
  fold merged in Hf1, Hs1. fold w1 in Hf1, Hs1.
  assert (Hc1 : credentials w1 = true).
  { subst w1. unfold awsCommand. rewrite Hpackage.
    cbn [String.eqb Ascii.eqb Bool.eqb].
    rewrite <- Hc. apply preserves_try_catch.
    - apply sync_preserves_credentials.
    - intros e. apply preserves_bind; [apply print_preserves_credentials|].
      intros _. apply preserves_bind; [|intros _; apply preserves_throw].
      destruct e; first [apply print_preserves_credentials | apply preserves_ret]. }
  assert (Hd1 : files w1 !! configDir
                = Some (<[file := Json.pretty (JObj merged)]> d)).
  { rewrite Hf1. apply lookup_insert_eq. }
  assert (Hsecret : secrets w1 !! (region, secretName)
                    = Some (Secret (Json.stringify (JObj merged)) None)).
  { rewrite Hs1. apply lookup_insert_eq. }
  assert (Hlocal : local_document JSON_parse w1 configDir file = JObj merged).
  { unfold local_document. now rewrite Hd1, lookup_insert_eq, Hpretty. }
  assert (Hremote : remote_document JSON_parse w1 region secretName = JObj merged).
  { unfold remote_document. now rewrite Hsecret, Hcompact. }
  assert (Hsame : merge prefer (JObj merged) (JObj merged) = merged).
  { apply ObjOrder.merge_same.
    - unfold merged, merge. destruct (String.eqb prefer "local");
        repeat apply ObjMore.wf_spread; reflexivity.
    - apply ObjOrder.ordered_merge. }
  destruct (sync_run JSON_parse config u options packageName Hpackage w1 _ Hd1 Hc1)
    as (Hok & Hf2 & Hs2 & Hn2).
  { left. change (state_of w1 region secretName = ACTIVE).
    unfold state_of. now rewrite Hsecret. }
  fold environment configDir region secretName file prefer in Hf2, Hs2, Hn2.
  rewrite Hlocal, Hremote, Hsame in Hf2, Hs2, Hn2. fold r in Hok, Hf2, Hs2, Hn2.
  split; [exact Hok|]. split; [|split].
  - rewrite Hf2, Hf1, insert_insert_eq. f_equal. apply insert_insert_eq.
  - rewrite Hs2, Hs1. apply insert_insert_eq.
  - rewrite Hn2, Hsecret. reflexivity.
Qed.

End SyncTwice.

Lemma second_sync_changes_nothing_example :
  let merged := [("y", JNum 2); ("z", JNum 3); ("x", JNum 1)] in
  let w1 := snd (awsCommand Reader.read Example.project Example.declines "sync"
                   Example.staging Example.diverged) in
  let r := awsCommand Reader.read Example.project Example.declines "sync"
             Example.staging w1 in
  Reader.read (Json.pretty (JObj merged)) = Some (JObj merged)
  /\ Reader.read (Json.stringify (JObj merged)) = Some (JObj merged)
  /\ fst r = inr tt
  /\ files (snd r) = files w1
  /\ secrets (snd r) = secrets w1.
Proof.
  intros merged w1 r.
  assert (H1 : packageName_of Example.project Example.staging = Some "app")
    by reflexivity.
  assert (H2 : files Example.diverged !! configDir_of Example.project Example.staging
               = Some Example.config_dir) by reflexivity.
  assert (H3 : credentials Example.diverged = true) by reflexivity.
  assert (H4 : state_of Example.diverged (region_of Example.project Example.staging)
                 (secretName_of "app" (environment_of Example.project Example.staging))
               = ACTIVE) by reflexivity.
  assert (H5 : Reader.read (Json.pretty (JObj merged)) = Some (JObj merged))
    by (vm_compute; reflexivity).
  assert (H6 : Reader.read (Json.stringify (JObj merged)) = Some (JObj merged))
    by (vm_compute; reflexivity).
  assert (Hm : merge (default "local" (truthy (o_prefer Example.staging)))
                 (local_document Reader.read Example.diverged
                    (configDir_of Example.project Example.staging)
                    (environment_of Example.project Example.staging +:+ ".json"))
                 (remote_document Reader.read Example.diverged
                    (region_of Example.project Example.staging)
                    (secretName_of "app"
                       (environment_of Example.project Example.staging)))
               = merged) by (vm_compute; reflexivity).
  pose proof (second_sync_changes_nothing Reader.read Example.project Example.declines
                Example.staging "app" H1 Example.diverged Example.config_dir
                H2 H3 (or_introl H4)) as H.
  cbv zeta in H. rewrite Hm in H.
  destruct (H H5 H6) as (Hok & Hf & Hs & _).
  split; [exact H5|]. split; [exact H6|]. split; [exact Hok|]. split; assumption.
Defined.

(* ===================================================================== *)
(** ** What a deletion can reach                                         *)
(* ===================================================================== *)

(** A delete command reaches the one secret it names, and a refused one
    reaches nothing. *)
Lemma send_delete_effect region name mode w :
  let r := send region (DeleteSecretCommand name mode) w in
  sent (snd r) = (sent w ++ [Send region (DeleteSecretCommand name mode)])%list
  /\ (forall other, other <> (region, name) ->
      secrets (snd r) !! other = secrets w !! other)
  /\ (forall e, fst r = inl e -> secrets (snd r) = secrets w).
Proof.
  destruct w as [f s cr t sn co].
  unfold send, transmit, record, bind, get_world, state_of, set_secrets, ret, throw.
  cbn [files secrets credentials clock sent console].
  destruct cr; cbn [fst snd files secrets credentials clock sent console];
    [|repeat split].
  destruct (s !! (region, name)) as [[p [dd|]]|]; try destruct mode;
    cbn [fst snd files secrets credentials clock sent console DeletionDate];
    repeat split; try discriminate; intros other Hne.
  - now apply lookup_delete_ne.
  - now apply lookup_insert_ne.
Qed.

Lemma send_deletion_reach region secretName choice w :
  let r := try_catch (send_deletion region secretName choice)
                     (delete_failed secretName) w in
  sent (snd r) = (sent w ++ [Send region (deleteParams secretName choice)])%list
  /\ (forall other, other <> (region, secretName) ->
      secrets (snd r) !! other = secrets w !! other)
  /\ (forall e, fst r = inl e -> secrets (snd r) = secrets w).
Proof.
  unfold try_catch, send_deletion, bind, deleteParams.
  set (mode := if fst choice then _ else _).
  pose proof (send_delete_effect region secretName mode w) as (Hsent & Hother & Hfail).
  destruct (send region (DeleteSecretCommand secretName mode) w) as [[e|response] w1];
    cbn [fst snd] in *.
  - pose proof (delete_failed_effect secretName e w1) as (_ & Hn & Hs & _).
    rewrite Hn, Hs. split; [exact Hsent|]. split; [exact Hother|].
    intros _ _. now apply (Hfail e).
  - destruct response; cbn [print fst snd sent secrets];
      (split; [exact Hsent|]); (split; [exact Hother|]); discriminate.
Qed.

(** X21. What [deleteSecret] can reach.  It never changes a local file.
    It sends nothing, or one delete command for the secret
    [<package>/<environment>] in the region of the options; no other
    secret changes, and when the command fails no secret changes at
    all. *)
Theorem delete_reaches_one_secret config u environment options w packageName :
  packageName_of config options = Some packageName ->
  let region := region_of config options in
  let secretName := secretName_of packageName environment in
  let r := deleteSecret config u environment options w in
  files (snd r) = files w
  /\ (sent (snd r) = sent w
      \/ exists mode,
           sent (snd r)
           = (sent w ++ [Send region (DeleteSecretCommand secretName mode)])%list)
  /\ (forall other, other <> (region, secretName) ->
      secrets (snd r) !! other = secrets w !! other)
  /\ (forall e, fst r = inl e -> secrets (snd r) = secrets w).
Proof.
  intros Hpkg region secretName r.
  split; [apply deleteSecret_preserves_files|].
  subst r. unfold deleteSecret. rewrite Hpkg. fold region secretName.
  assert (Hquiet : forall (out : error + unit) w',
            sent w' = sent w -> secrets w' = secrets w ->
            (sent (snd (out, w')) = sent w
             \/ exists mode,
                  sent (snd (out, w'))
                  = (sent w ++ [Send region (DeleteSecretCommand secretName mode)])%list)
            /\ (forall other, other <> (region, secretName) ->
                secrets (snd (out, w')) !! other = secrets w !! other)
            /\ (forall e, fst (out, w') = inl e -> secrets (snd (out, w')) = secrets w)).
  { intros out w' Hn Hs. cbn [fst snd]. rewrite Hs. auto. }
  assert (Hsend : forall choice,
            let r := try_catch (send_deletion region secretName choice)
                               (delete_failed secretName) w in
            (sent (snd r) = sent w
             \/ exists mode,
                  sent (snd r)
                  = (sent w ++ [Send region (DeleteSecretCommand secretName mode)])%list)
            /\ (forall other, other <> (region, secretName) ->
                secrets (snd r) !! other = secrets w !! other)
            /\ (forall e, fst r = inl e -> secrets (snd r) = secrets w)).
  { intros choice r.
    destruct (send_deletion_reach region secretName choice w) as (Hn & Ho & Hf).
    split; [right; eexists; exact Hn|]. split; assumption. }
  assert (Hc : exists confirmed,
            delete_confirmation u secretName options w = (inr confirmed, w)).
  { unfold delete_confirmation, confirm, ret.
    destruct (o_confirm options) as [[|]|]; eauto. }
  destruct Hc as [[|] Hc].
  - assert (Hchoice :
              deletion_choice u options w
              = (inl InvalidRecoveryWindow, printing ErrInvalidRecoveryWindow w)
              \/ exists choice, deletion_choice u options w = (inr choice, w)).
    { unfold deletion_choice, confirm.
      destruct (o_days options) as [days|].
      - destruct ((days <? 7)%Z || (days >? 30)%Z); [left | right; eauto].
        reflexivity.
      - right. destruct (o_force options); [eauto|].
        unfold bind, ret. destruct (answer u AskForceDeletion); eauto. }
    destruct Hchoice as [Hchoice|[choice Hchoice]].
    + unfold try_catch, bind. rewrite Hc. cbn [negb]. rewrite Hchoice.
      now apply Hquiet.
    + replace (try_catch _ _ w)
        with (try_catch (send_deletion region secretName choice)
                        (delete_failed secretName) w).
      * apply Hsend.
      * unfold try_catch, bind. rewrite Hc. cbn [negb]. now rewrite Hchoice.
  - unfold try_catch, bind. rewrite Hc. cbn [negb]. now apply Hquiet.
Qed.

Lemma delete_reaches_one_secret_example :
  let r := deleteSecret Example.project Example.accepts "staging" Example.staging
             Example.diverged in
  packageName_of Example.project Example.staging = Some "app"
  /\ files (snd r) = files Example.diverged
  /\ (sent (snd r) = sent Example.diverged
      \/ exists mode,
           sent (snd r)
           = (sent Example.diverged
              ++ [Send "us-east-1" (DeleteSecretCommand "app/staging" mode)])%list)
  /\ (forall other, other <> ("us-east-1", "app/staging") ->
      secrets (snd r) !! other = secrets Example.diverged !! other)
  /\ (forall e, fst r = inl e -> secrets (snd r) = secrets Example.diverged).
Proof.
  intros r.
  assert (H : packageName_of Example.project Example.staging = Some "app")
    by reflexivity.
  split; [exact H|].
  exact (delete_reaches_one_secret Example.project Example.accepts "staging"
           Example.staging Example.diverged "app" H).
Defined.

(* ===================================================================== *)
(** ** The interactive mode of [setConfig]                               *)
(* ===================================================================== *)

Lemma interactive_configs_wf : forall pairs configs,
  Obj.wf configs -> Obj.wf (interactive_configs pairs configs).
Proof.
  induction pairs as [|[k v] pairs IH]; intros configs Hwf; simpl; [exact Hwf|].
  destruct (String.eqb k ""); [exact Hwf|]. apply IH. now apply ObjMore.wf_set.
Qed.

Lemma interactive_configs_no_empty_key : forall pairs configs,
  Obj.get "" configs = None -> Obj.get "" (interactive_configs pairs configs) = None.
Proof.
  induction pairs as [|[k v] pairs IH]; intros configs H; simpl; [exact H|].
  destruct (String.eqb_spec k "") as [->|Hne]; [exact H|].
  apply IH. rewrite ObjFacts.get_set_ne by congruence. exact H.
Qed.

Lemma interactive_configs_stop v rest : forall entries configs,
  Forall (fun kv => fst kv <> "") entries ->
  interactive_configs (entries ++ ("", v) :: rest) configs
  = interactive_configs entries configs.
Proof.
  induction entries as [|[k x] entries IH]; intros configs Hall; simpl; [reflexivity|].
  apply Forall_cons in Hall as [Hk Hall]. cbn [fst] in Hk.
  destruct (String.eqb_spec k ""); [contradiction|]. now apply IH.
Qed.

Lemma interactive_configs_snoc k v : forall entries configs,
  Forall (fun kv => fst kv <> "") entries -> k <> "" ->
  interactive_configs (entries ++ [(k, v)]) configs
  = Obj.set k (JStr v) (interactive_configs entries configs).
Proof.
  induction entries as [|[k0 x] entries IH]; intros configs Hall Hk; simpl.
  - destruct (String.eqb_spec k ""); [contradiction | reflexivity].
  - apply Forall_cons in Hall as [Hk0 Hall]. cbn [fst] in Hk0.
    destruct (String.eqb_spec k0 ""); [contradiction|]. now apply IH.
Qed.



(* ===================================================================== *)
(** ** Variable names of the [env] format                                *)
(* ===================================================================== *)

Lemma upper_char_not_lower c : Str.is_lower (Str.upper_char c) = false.
Proof.
  unfold Str.upper_char. destruct (Str.is_lower c) eqn:Hc; [|exact Hc].
  unfold Str.is_lower in *. apply andb_prop in Hc as [L U].
  apply Nat.leb_le in L, U.
  rewrite nat_ascii_embedding by lia.
  apply andb_false_iff. left. apply Nat.leb_gt. lia.
Qed.

Lemma toUpperCase_append s t :
  Str.toUpperCase (s +:+ t) = Str.toUpperCase s +:+ Str.toUpperCase t.
Proof.
  induction s as [|c s IH]; [reflexivity|].
  rewrite StrFacts.append_cons. simpl Str.toUpperCase.
  now rewrite StrFacts.append_cons, IH.
Qed.

Lemma replace_upper_append s t :
  Str.replace_upper (s +:+ t) = Str.replace_upper s +:+ Str.replace_upper t.
Proof.
  induction s as [|c s IH]; [reflexivity|].
  rewrite StrFacts.append_cons. simpl Str.replace_upper.
  destruct (Str.is_upper c); rewrite !StrFacts.append_cons, IH; reflexivity.
Qed.

Lemma envKey_append s t : envKey (s +:+ t) = envKey s +:+ envKey t.
Proof. unfold envKey. now rewrite replace_upper_append, toUpperCase_append. Qed.

(** The characters of a string. *)
Lemma envKey_chars_not_lower key :
  Forall (fun c => Str.is_lower c = false) (list_ascii_of_string (envKey key)).
Proof.
  unfold envKey. generalize (Str.replace_upper key). intros s.
  induction s as [|c s IH]; simpl; constructor; [apply upper_char_not_lower | exact IH].
Qed.

(** X23. The variable names of the [env] format hold no lowercase
    letter, and the naming is not one to one: a key written in camel case
    and the same key written with an underscore and a lowercase letter
    give the same variable name, so two entries of one document can come
    out under one name. *)
Theorem envKey_is_uppercase_and_collides :
  (forall key,
     Forall (fun c => Str.is_lower c = false) (list_ascii_of_string (envKey key)))
  /\ (forall before c after,
      Str.is_lower c = true ->
      envKey (before +:+ String (Str.upper_char c) after)
      = envKey (before +:+ String "_" (String c after))
      /\ before +:+ String (Str.upper_char c) after
         <> before +:+ String "_" (String c after)).
Proof.
  split; [apply envKey_chars_not_lower|].
  intros before c after Hc.
  assert (Hup : Str.is_upper (Str.upper_char c) = true).
  { unfold Str.upper_char. rewrite Hc. unfold Str.is_lower in Hc. unfold Str.is_upper.
    apply andb_prop in Hc as [L U]. apply Nat.leb_le in L, U.
    rewrite nat_ascii_embedding by lia.
    apply andb_true_intro. split; apply Nat.leb_le; lia. }
  assert (Hlow : Str.is_upper c = false).
  { unfold Str.is_lower in Hc. unfold Str.is_upper.
    apply andb_prop in Hc as [L U]. apply Nat.leb_le in L.
    apply andb_false_iff. right. apply Nat.leb_gt. lia. }
  split.
  - rewrite !envKey_append. f_equal. unfold envKey.
    simpl Str.replace_upper. rewrite Hup, Hlow.
    change (Str.is_upper "_") with false. cbn iota.
    simpl Str.toUpperCase. rewrite (StrFacts.upper_char_upper _ Hup). reflexivity.
  - intros Heq. apply String.app_inj in Heq. injection Heq as Heq _.
    rewrite Heq in Hup. discriminate.
Qed.

Lemma envKey_is_uppercase_and_collides_example :
  Str.is_lower "u" = true
  /\ envKey "apiUrl" = envKey "api_url"
  /\ envKey "apiUrl" = "API_URL".
Proof.
  assert (H : Str.is_lower "u" = true) by reflexivity.
  destruct envKey_is_uppercase_and_collides as [_ Hcollide].
  destruct (Hcollide "api" "u"%char "rl" H) as [Heq _].
  split; [exact H|]. split; [exact Heq | reflexivity].
Defined.

(* ===================================================================== *)
(** ** The two [env] formats                                             *)
(* ===================================================================== *)

Lemma replace_upper_plain : forall key,
  Forall (fun c => Str.is_upper c = false) (list_ascii_of_string key) ->
  Str.replace_upper key = key.
Proof.
  induction key as [|c key IH]; intros H; [reflexivity|].
  simpl in H. apply Forall_cons in H as [Hc H].
  simpl. rewrite Hc. f_equal. now apply IH.
Qed.

Lemma envValue_stringify value :
  (forall s, value <> JStr s) -> envValue value = Json.stringify value.
Proof.
  intros H. destruct value as [| [|] | n | s | l | o]; try reflexivity.
  now destruct (H s).
Qed.

(** X24. [mergeConfigs] and [getConfig] both have an [env] format, and
    the two differ: [mergeConfigs] uppercases the key as it is and writes
    every value as JSON text.  On a document whose keys hold no uppercase
    letter and whose values are not strings the two outputs are the same;
    a string value comes out quoted by [mergeConfigs] and bare by
    [getConfig], and a camel-case key gets its underscore from [getConfig]
    only. *)
Theorem env_formats_agree_on_plain_documents :
  (forall doc,
     Forall (fun kv =>
               Forall (fun c => Str.is_upper c = false) (list_ascii_of_string (fst kv))
               /\ forall s, snd kv <> JStr s) doc ->
     merged_output (Some "env") (JObj doc) = format_output (Some "env") (JObj doc))
  /\ (forall key s,
      merged_output (Some "env") (JObj [(key, JStr s)])
      = inr (Str.toUpperCase key +:+ "=" +:+ Json.quoted s)
      /\ format_output (Some "env") (JObj [(key, JStr s)])
         = inr (envKey key +:+ "=" +:+ s))
  /\ (forall output merged,
      output <> Some "env" -> merged_output output merged = inr (Json.pretty merged)).
Proof.
  split; [|split].
  - intros doc Hdoc. unfold merged_output, format_output. simpl. do 2 f_equal.
    apply map_ext_in. intros [k v] Hin. cbn [fst snd].
    rewrite Forall_forall in Hdoc. apply list_elem_of_In in Hin.
    destruct (Hdoc _ Hin) as [Hk Hv]. cbn [fst snd] in Hk, Hv.
    unfold envKey. rewrite (replace_upper_plain k Hk).
    now rewrite (envValue_stringify v Hv).
  - intros key s. split; reflexivity.
  - intros output merged Hne. unfold merged_output.
    destruct output as [s|]; [|reflexivity].
    destruct (String.eqb_spec s "env") as [->|Hs]; [congruence|].
    repeat (destruct s as [|[[|] [|] [|] [|] [|] [|] [|] [|]] s];
            try reflexivity; try congruence).
Qed.

Lemma env_formats_agree_on_plain_documents_example :
  merged_output (Some "env") (JObj [("port", JNum 80); ("tls", JBool true)])
  = format_output (Some "env") (JObj [("port", JNum 80); ("tls", JBool true)])
  /\ merged_output (Some "env") (JObj [("apiUrl", JStr "x")])
     <> format_output (Some "env") (JObj [("apiUrl", JStr "x")]).
Proof.
  destruct env_formats_agree_on_plain_documents as (Hsame & _ & _).
  split.
  - apply Hsame. repeat constructor; cbn; intros; discriminate.
  - vm_compute. discriminate.
Defined.

(* ===================================================================== *)
(** ** Running the commands that report in words of their own            *)
(* ===================================================================== *)

Section Tells.
Context {A B : Type}.

Lemma tells_ret (a : A) s : tells (Told.ret a) s (inr a) s.
Proof. reflexivity. Qed.

Lemma tells_throw (e : failure) s : tells (Told.throw (A := A) e) s (inl e) s.
Proof. reflexivity. Qed.

Lemma tells_bind (m : Told.T A) (k : A -> Told.T B) s a s1 r s2 :
  tells m s (inr a) s1 -> tells (k a) s1 r s2 -> tells (Told.bind m k) s r s2.
Proof. unfold tells, Told.bind. now intros ->. Qed.

Lemma tells_bind_throws (m : Told.T A) (k : A -> Told.T B) s e s1 :
  tells m s (inl e) s1 -> tells (Told.bind m k) s (inl e) s1.
Proof. unfold tells, Told.bind. now intros ->. Qed.

Lemma tells_try (m : Told.T A) h s a s1 :
  tells m s (inr a) s1 -> tells (Told.try_catch m h) s (inr a) s1.
Proof. unfold tells, Told.try_catch. now intros ->. Qed.

Lemma tells_catch (m : Told.T A) h s e s1 r s2 :
  tells m s (inl e) s1 -> tells (h e) s1 r s2 -> tells (Told.try_catch m h) s r s2.
Proof. unfold tells, Told.try_catch. now intros ->. Qed.

Lemma tells_call (m : M A) w log a w1 :
  runs m w (inr a) w1 -> tells (Told.call m) (w, log) (inr a) (w1, log).
Proof. unfold tells, runs, Told.call. cbn [fst snd]. now intros ->. Qed.

Lemma tells_call_throws (m : M A) w log e w1 :
  runs m w (inl e) w1 -> tells (Told.call m) (w, log) (inl (Thrown e)) (w1, log).
Proof. unfold tells, runs, Told.call. cbn [fst snd]. now intros ->. Qed.

End Tells.

Lemma tells_print r w log :
  tells (Told.print r) (w, log) (inr tt) (w, (log ++ [r])%list).
Proof. reflexivity. Qed.

(* ===================================================================== *)
(** ** [initMysterio]                                                    *)
(* ===================================================================== *)

Lemma json_name_inj a b : a +:+ ".json" = b +:+ ".json" -> a = b.
Proof. apply StrMore.append_inj_r. Qed.

(** What the directory holds once the environment documents are written. *)
Lemma environment_documents_other f : forall envs d,
  (forall env, In env envs -> f <> env +:+ ".json") ->
  environment_documents envs d !! f = d !! f.
Proof.
  induction envs as [|env envs IH]; intros d Hf; [reflexivity|].
  cbn [environment_documents fold_left]. fold (environment_documents envs).
  rewrite IH by (intros e He; apply Hf; now right).
  apply lookup_insert_ne. intros Heq. now apply (Hf env); [left|].
Qed.

Lemma environment_documents_written env : forall envs d,
  In env envs ->
  environment_documents envs d !! (env +:+ ".json")
  = Some (Json.pretty (defaultConfig env)).
Proof.
  induction envs as [|env0 envs IH]; intros d Hin; [contradiction|].
  cbn [environment_documents fold_left]. fold (environment_documents envs).
  destruct (in_dec string_dec env envs) as [Hlater|Hlast]; [now apply IH|].
  destruct Hin as [->|]; [|contradiction].
  rewrite environment_documents_other.
  - apply lookup_insert_eq.
  - intros e He Heq. apply json_name_inj in Heq. now subst.
Qed.

Lemma environment_documents_lookup envs d f :
  (exists env, In env envs /\ f = env +:+ ".json"
               /\ environment_documents envs d !! f
                  = Some (Json.pretty (defaultConfig env)))
  \/ ((forall env, In env envs -> f <> env +:+ ".json")
      /\ environment_documents envs d !! f = d !! f).
Proof.
  destruct (in_dec string_dec f (map (fun env => env +:+ ".json") envs)) as [Hin|Hout].
  - left. apply in_map_iff in Hin as (env & <- & Hin).
    exists env. split; [exact Hin|]. split; [reflexivity|].
    now apply environment_documents_written.
  - right. assert (H : forall env, In env envs -> f <> env +:+ ".json").
    { intros env Hin ->. apply Hout. apply in_map_iff. now exists env. }
    split; [exact H | now apply environment_documents_other].
Qed.

(** The directory after the documents and the package document: what it
    holds under a name depends on what it held under that name only, and
    writing them once more changes nothing. *)
Lemma package_over_documents_lookup envs pkg d d' f :
  d !! f = d' !! f ->
  (<["default.json" := pkg]> (environment_documents envs d)) !! f
  = (<["default.json" := pkg]> (environment_documents envs d')) !! f.
Proof.
  intros Hf. destruct (decide (f = "default.json")) as [->|Hne].
  - now rewrite !lookup_insert_eq.
  - rewrite !lookup_insert_ne by congruence.
    destruct (environment_documents_lookup envs d f)
      as [(env & Hin & -> & ->)|[Hother ->]].
    + symmetry. now apply environment_documents_written.
    + now rewrite environment_documents_other.
Qed.

Lemma package_over_documents_again envs pkg d :
  <["default.json" := pkg]>
    (environment_documents envs
       (<["default.json" := pkg]> (environment_documents envs d)))
  = <["default.json" := pkg]> (environment_documents envs d).
Proof.
  apply map_eq. intros f. destruct (decide (f = "default.json")) as [->|Hne].
  - now rewrite !lookup_insert_eq.
  - rewrite !lookup_insert_ne by congruence.
    destruct (environment_documents_lookup envs
                (<["default.json" := pkg]> (environment_documents envs d)) f)
      as [(env & Hin & -> & ->)|[Hother ->]].
    + symmetry. now apply environment_documents_written.
    + now rewrite lookup_insert_ne by congruence.
Qed.

Section InitFacts.

Variable u : replies.
Variable options : init_options.

Let packageName :=
  match truthy (i_packageName options) with
  | Some p => p
  | None => entered_packageName u
  end.
Let configDir := i_configDir options.
Let package_document :=
  Json.pretty (JObj (defined [("packageName", Some (JStr packageName));
                              ("region", JStr <$> i_awsRegion options)])).
Let rc_document :=
  Json.pretty (JObj (defined [("packageName", Some (JStr packageName));
                              ("configDirPath", Some (JStr configDir));
                              ("awsRegion", JStr <$> i_awsRegion options)])).

(** The files after an initialisation. *)
Let configured (f : gmap string (gmap string string)) :=
  <[configDir := <["default.json" := package_document]>
                   (environment_documents (i_environments options)
                      (default ∅ (f !! configDir)))]> f.
Let initialised (f : gmap string (gmap string string)) :=
  <[cwd := <[".mysteriorc" := rc_document]> (default ∅ (configured f !! cwd))]>
    (configured f).

Lemma tells_environment_documents log : forall envs w d,
  files w !! configDir = Some d ->
  tells (Told.for_each envs (fun env =>
           Told.call (writeFile configDir (env +:+ ".json")
                        (Json.pretty (defaultConfig env)))))
        (w, log) (inr tt)
        (with_files (<[configDir := environment_documents envs d]> (files w)) w, log).
Proof.
  induction envs as [|env envs IH]; intros w d Hd.
  - cbn [Told.for_each environment_documents fold_left].
    rewrite insert_id by exact Hd. destruct w. apply tells_ret.
  - cbn [Told.for_each environment_documents fold_left].
    fold (environment_documents envs).
    eapply tells_bind.
    + apply tells_call. apply runs_writeFile. exact Hd.
    + pose proof (IH (with_files
                        (<[configDir := <[env +:+ ".json" :=
                                            Json.pretty (defaultConfig env)]> d]>
                           (files w)) w)
                     (<[env +:+ ".json" := Json.pretty (defaultConfig env)]> d)) as H.
      cbn [with_files files secrets credentials clock sent console] in H.
      unfold with_files. rewrite insert_insert_eq in H.
      apply H. apply lookup_insert_eq.
Qed.

Lemma init_run w log :
  is_Some (files w !! cwd) \/ configDir = cwd ->
  initMysterio u options (w, log)
  = (inr tt,
     (with_files (initialised (files w)) w,
      (log ++ [LogInitialized packageName configDir (i_environments options)])%list)).
Proof.
  intros Hcwd. unfold initMysterio. fold packageName configDir.
  apply tells_try.
  set (d0 := default ∅ (files w !! configDir)).
  set (w0 := with_files (<[configDir := d0]> (files w)) w).
  assert (Hmk : runs (mkdir configDir) w (inr tt) w0).
  { subst w0 d0. destruct (files w !! configDir) as [d|] eqn:Hd; cbn [default].
    - rewrite insert_id by exact Hd. destruct w. eapply runs_mkdir. exact Hd.
    - now apply runs_mkdir_fresh. }
  eapply tells_bind; [apply tells_call; exact Hmk|].
  eapply tells_bind.
  { apply (tells_environment_documents log (i_environments options) w0 d0).
    subst w0. cbn [with_files files]. apply lookup_insert_eq. }
  set (d1 := environment_documents (i_environments options) d0).
  eapply tells_bind.
  { apply tells_call. apply runs_writeFile with (d := d1).
    cbn [with_files files]. apply lookup_insert_eq. }
  assert (Hfiles : <[configDir := <["default.json" := package_document]> d1]>
                     (files (with_files (<[configDir := d1]> (files w0)) w0))
                   = configured (files w)).
  { subst w0. cbn [with_files files]. now rewrite !insert_insert_eq. }
  cbn [with_files files secrets credentials clock sent console] in Hfiles |- *.
  fold package_document. rewrite Hfiles.
  assert (Hc : exists c, configured (files w) !! cwd = Some c).
  { unfold configured. destruct (decide (configDir = cwd)) as [->|Hne].
    - rewrite lookup_insert_eq. eauto.
    - rewrite lookup_insert_ne by exact Hne.
      destruct Hcwd as [[c Hc]|]; [eauto | contradiction]. }
  destruct Hc as [c Hc].
  eapply tells_bind.
  { apply tells_call. apply runs_writeFile with (d := c). exact Hc. }
  unfold initialised. rewrite Hc. cbn [default with_files files secrets credentials
                                        clock sent console].
  fold rc_document. apply tells_print.
Qed.

Lemma not_rc_file env : ".mysteriorc" <> env +:+ ".json".
Proof.
  intros Heq. pose proof (StrMore.endsWith_append ".json" env) as H.
  rewrite <- Heq in H. discriminate.
Qed.

(** The configuration directory after an initialisation. *)
Lemma initialised_config_dir f file :
  file <> ".mysteriorc" ->
  exists D,
    initialised f !! configDir = Some D
    /\ D !! file
       = (<["default.json" := package_document]>
            (environment_documents (i_environments options)
               (default ∅ (f !! configDir)))) !! file.
Proof.
  intros Hfile. unfold initialised.
  destruct (decide (configDir = cwd)) as [Heq|Hne].
  - rewrite <- Heq. rewrite lookup_insert_eq. eexists. split; [reflexivity|].
    rewrite lookup_insert_ne by congruence.
    unfold configured. now rewrite lookup_insert_eq.
  - rewrite lookup_insert_ne by congruence. unfold configured.
    rewrite lookup_insert_eq. eauto.
Qed.

Lemma initialised_cwd f :
  exists C, initialised f !! cwd = Some C /\ C !! ".mysteriorc" = Some rc_document.
Proof.
  unfold initialised. rewrite lookup_insert_eq. eexists. split; [reflexivity|].
  apply lookup_insert_eq.
Qed.

Lemma initialised_elsewhere f dir :
  dir <> configDir -> dir <> cwd -> initialised f !! dir = f !! dir.
Proof.
  intros H1 H2. unfold initialised, configured.
  now rewrite !lookup_insert_ne by congruence.
Qed.

(** X25. [initMysterio] writes, without asking and over whatever is
    there, one document [{environment, debug}] per environment given,
    [debug] being true for [local] only; then the package document under
    [default.json], so that an environment named [default] ends up with
    the package document; then [.mysteriorc] in the working directory.
    Nothing is sent and no secret changes. *)
Theorem init_writes_every_document w log :
  is_Some (files w !! cwd) \/ configDir = cwd ->
  let r := initMysterio u options (w, log) in
  let w' := fst (snd r) in
  fst r = inr tt
  /\ (forall env, In env (i_environments options) -> env <> "default" ->
      file_of w' configDir (env +:+ ".json")
      = Some (Json.pretty
                (JObj [("environment", JStr env);
                       ("debug", JBool (String.eqb env "local"))])))
  /\ file_of w' configDir "default.json" = Some package_document
  /\ file_of w' cwd ".mysteriorc" = Some rc_document
  /\ secrets w' = secrets w /\ sent w' = sent w.
Proof.
  intros Hcwd r w'. subst w' r. rewrite (init_run w log Hcwd).
  cbn [fst snd]. split; [reflexivity|].
  split; [|split; [|split; [|split; reflexivity]]].
  - intros env Hin Hdef. unfold file_of. cbn [with_files files].
    destruct (initialised_config_dir (files w) (env +:+ ".json")) as (D & -> & ->).
    { intros Heq. now apply (not_rc_file env). }
    rewrite lookup_insert_ne.
    + now apply environment_documents_written.
    + change "default.json" with ("default" +:+ ".json").
      intros Heq. apply json_name_inj in Heq. now subst.
  - unfold file_of. cbn [with_files files].
    destruct (initialised_config_dir (files w) "default.json") as (D & -> & ->);
      [discriminate|].
    apply lookup_insert_eq.
  - unfold file_of. cbn [with_files files].
    now destruct (initialised_cwd (files w)) as (C & -> & ->).
Qed.

(** X26. Initialising twice is initialising once: a second
    [initMysterio] with the same options and the same package name leaves
    every file as the first left it. *)
Theorem init_twice_is_init_once w log :
  is_Some (files w !! cwd) \/ configDir = cwd ->
  let s1 := snd (initMysterio u options (w, log)) in
  let r := initMysterio u options s1 in
  fst r = inr tt /\ files (fst (snd r)) = files (fst s1).
Proof.
  intros Hcwd s1 r. subst r s1. rewrite (init_run w log Hcwd). cbn [snd].
  rewrite init_run.
  2:{ left. cbn [with_files files]. destruct (initialised_cwd (files w)) as (C & -> & _).
      eauto. }
  cbn [fst snd with_files files]. split; [reflexivity|].
  set (envs := i_environments options).
  set (f := files w).
  set (d0 := default ∅ (f !! configDir)).
  destruct (decide (configDir = cwd)) as [Heq|Hne].
  - (* the working directory is the configuration directory *)
    assert (H1 : initialised f
                 = <[cwd := <[".mysteriorc" := rc_document]>
                              (<["default.json" := package_document]>
                                 (environment_documents envs d0))]> f).
    { unfold initialised, configured. fold envs d0. rewrite <- Heq.
      rewrite lookup_insert_eq. cbn [default]. unfold id. now rewrite insert_insert_eq. }
    rewrite H1. unfold initialised, configured. fold envs. rewrite <- Heq.
    rewrite !lookup_insert_eq. cbn [default]; unfold id. rewrite !insert_insert_eq.
    f_equal. apply map_eq. intros file.
    destruct (decide (file = ".mysteriorc")) as [->|Hfile].
    + now rewrite !lookup_insert_eq.
    + rewrite !(lookup_insert_ne _ ".mysteriorc") by congruence.
      transitivity
        ((<["default.json" := package_document]>
            (environment_documents envs
               (<["default.json" := package_document]>
                  (environment_documents envs d0)))) !! file).
      * apply package_over_documents_lookup. unfold id.
        now rewrite (lookup_insert_ne _ ".mysteriorc") by congruence.
      * now rewrite package_over_documents_again.
  - (* they are two directories *)
    assert (H1 : configured (initialised f) = initialised f).
    { unfold configured at 1. fold envs.
      assert (Hd : initialised f !! configDir
                   = Some (<["default.json" := package_document]>
                             (environment_documents envs d0))).
      { unfold initialised. rewrite lookup_insert_ne by congruence.
        unfold configured. now rewrite lookup_insert_eq. }
      rewrite Hd. cbn [default]; unfold id. rewrite package_over_documents_again.
      now apply insert_id. }
    unfold initialised at 1. rewrite H1.
    destruct (initialised_cwd f) as (C & HC & Hrc).
    rewrite HC. cbn [default]; unfold id.
    rewrite (insert_id C) by exact Hrc. now apply insert_id.
Qed.


End InitFacts.

Lemma init_writes_every_document_example :
  let options := InitOptions (Some "app") "./config" ["local"; "default"; "staging"]
                             (Some "us-east-1") in
  let u := Replies (fun _ => true) "typed" in
  let w := World {[ "." := ∅ ]} ∅ true 0 [] [] in
  let r := initMysterio u options (w, []) in
  let w' := fst (snd r) in
  is_Some (files w !! cwd)
  /\ fst r = inr tt
  /\ file_of w' "./config" "staging.json"
     = Some (Json.pretty (JObj [("environment", JStr "staging"); ("debug", JBool false)]))
  /\ file_of w' "./config" "default.json"
     = Some (Json.pretty (JObj [("packageName", JStr "app");
                                ("region", JStr "us-east-1")]))
  /\ file_of w' "." ".mysteriorc"
     = Some (Json.pretty (JObj [("packageName", JStr "app");
                                ("configDirPath", JStr "./config");
                                ("awsRegion", JStr "us-east-1")])).
Proof.
  intros options u w r w'.
  assert (H : is_Some (files w !! cwd)) by (vm_compute; eauto).
  destruct (init_writes_every_document u options w [] (or_introl H))
    as (Hok & Hdocs & Hpkg & Hrc & _).
  split; [exact H|]. split; [exact Hok|]. split; [|split; [exact Hpkg | exact Hrc]].
  apply (Hdocs "staging"); [cbn; auto | discriminate].
Defined.

Lemma init_twice_is_init_once_example :
  let options := InitOptions None "." ["local"; "default"] None in
  let u := Replies (fun _ => true) "typed" in
  let w := World ∅ ∅ true 0 [] [] in
  let s1 := snd (initMysterio u options (w, [])) in
  let r := initMysterio u options s1 in
  i_configDir options = cwd
  /\ fst r = inr tt /\ files (fst (snd r)) = files (fst s1).
Proof.
  intros options u w s1 r.
  assert (H : i_configDir options = cwd) by reflexivity.
  split; [exact H|].
  exact (init_twice_is_init_once u options w [] (or_intror H)).
Defined.


(* ===================================================================== *)
(** ** [createSecret]                                                    *)
(* ===================================================================== *)

Section SecretFacts.

Variable JSON_parse : string -> option json.
Variable config : rc.
Variable u : replies.
Variable environment : string.
Variable options : secret_options.

Let region := default "us-east-1" (c_region options ||| rc_awsRegion config).
Let configDir := default "./config" (c_configDir options ||| rc_configDirPath config).
Let file := environment +:+ ".json".

(** The [catch] block of [createSecret]. *)
Let failed (error : failure) : Told.T unit :=
  Told.bind
    match error with
    | Thrown ResourceExistsException => Told.ret tt
    | Thrown CredentialsProviderError =>
        Told.bind (Told.print (ErrFailedToCreateSecret error))
                  (fun _ => Told.print (Said LogCredentialsHelp))
    | _ => Told.print (ErrFailedToCreateSecret error)
    end
    (fun _ => Told.throw error).

Lemma createSecret_with_package packageName s :
  c_packageName options ||| rc_packageName config = Some packageName ->
  createSecret JSON_parse config u environment options s
  = Told.try_catch
      (Told.bind (initial_value JSON_parse u environment configDir options)
         (fun secretValue =>
            Told.bind (create_or_override u region
                         (secretName_of packageName environment) secretValue options)
              (fun stored =>
                 if (stored : bool)
                 then offer_local_config u environment configDir options
                 else Told.ret tt)))
      failed s.
Proof. intros Hpkg. unfold createSecret. now rewrite Hpkg. Qed.

Lemma initial_value_given text v s :
  truthy (c_initialValues options) = Some text -> JSON_parse text = Some v ->
  tells (initial_value JSON_parse u environment configDir options) s (inr text) s.
Proof. intros Hi Hp. unfold initial_value. rewrite Hi, Hp. apply tells_ret. Qed.

(** X28. [createSecret] stops before the store on input it cannot use:
    without a package name it fails with "Package name not provided", and
    with initial values that are not JSON it fails with "Initial values
    must be valid JSON"; in both cases nothing is sent, and the files and
    the secrets are as they were. *)
Theorem createSecret_rejects_before_sending w log :
  (c_packageName options ||| rc_packageName config = None ->
   createSecret JSON_parse config u environment options (w, log)
   = (inl (Thrown PackageNameNotProvided),
      (w, (log ++ [Said ErrPackageNameRequired])%list)))
  /\ (forall packageName text,
      c_packageName options ||| rc_packageName config = Some packageName ->
      truthy (c_initialValues options) = Some text ->
      JSON_parse text = None ->
      createSecret JSON_parse config u environment options (w, log)
      = (inl InitialValuesNotJSON,
         (w, (log ++ [ErrInvalidInitialValues;
                      ErrFailedToCreateSecret InitialValuesNotJSON])%list))).
Proof.
  split.
  - intros Hpkg. unfold createSecret. rewrite Hpkg.
    eapply tells_bind; [apply tells_print | apply tells_throw].
  - intros packageName text Hpkg Hi Hp.
    rewrite (createSecret_with_package packageName) by exact Hpkg.
    eapply tells_catch.
    + eapply tells_bind_throws. unfold initial_value. rewrite Hi, Hp.
      eapply tells_bind; [apply tells_print | apply tells_throw].
    + unfold failed. eapply tells_bind; [apply tells_print|].
      rewrite <- app_assoc. apply tells_throw.
Qed.

(** The local document is offered once the secret is stored, unless it
    exists or nobody can be asked; it is written when the offer is
    accepted. *)
Let created (w : world) : world :=
  with_files
    (<[configDir := <[file := Json.pretty (JObj [("environment", JStr environment)])]>
                      (default ∅ (files w !! configDir))]> (files w)) w.

Lemma offer_not_made w log :
  file_of w configDir file <> None \/ c_confirm options = Some false
  \/ agrees u (AskCreateLocalConfig environment) = false ->
  tells (offer_local_config u environment configDir options) (w, log) (inr tt) (w, log).
Proof.
  intros Hcase. unfold offer_local_config. fold file.
  destruct (file_of w configDir file) as [content|] eqn:Hf.
  - apply tells_try. apply tells_call.
    unfold file_of in Hf. destruct (files w !! configDir) as [d|] eqn:Hd; [|discriminate].
    eapply runs_access; eassumption.
  - eapply tells_catch.
    + apply tells_call_throws. now apply runs_access_absent.
    + destruct Hcase as [Hex|[Hflag|Hno]]; [congruence| |].
      * rewrite Hflag. apply tells_ret.
      * destruct (c_confirm options) as [[|]|]; try apply tells_ret;
          (unfold ask; eapply tells_bind; [apply tells_ret|]; rewrite Hno;
           apply tells_ret).
Qed.

Lemma offer_accepted w log :
  file_of w configDir file = None -> c_confirm options <> Some false ->
  agrees u (AskCreateLocalConfig environment) = true ->
  tells (offer_local_config u environment configDir options) (w, log) (inr tt)
        (created w, (log ++ [LogCreatedLocalConfig configDir file])%list).
Proof.
  intros Hf Hflag Hyes. unfold offer_local_config. fold file.
  eapply tells_catch.
  - apply tells_call_throws. now apply runs_access_absent.
  - assert (Hrun :
      tells (Told.bind (ask u (AskCreateLocalConfig environment)) (fun createConfig =>
               if (createConfig : bool) then
                 Told.bind (Told.call (mkdir configDir)) (fun _ =>
                 Told.bind (Told.call (writeFile configDir file
                              (Json.pretty (JObj [("environment", JStr environment)]))))
                           (fun _ => Told.print (LogCreatedLocalConfig configDir file)))
               else Told.ret tt))
            (w, log) (inr tt)
            (created w, (log ++ [LogCreatedLocalConfig configDir file])%list)).
    { unfold ask. eapply tells_bind; [apply tells_ret|]. rewrite Hyes.
      unfold created.
      destruct (files w !! configDir) as [d|] eqn:Hd; cbn [default].
      - eapply tells_bind; [apply tells_call; eapply runs_mkdir; exact Hd|].
        eapply tells_bind; [apply tells_call; apply runs_writeFile; exact Hd|].
        apply tells_print.
      - eapply tells_bind; [apply tells_call; now apply runs_mkdir_fresh|].
        eapply tells_bind.
        + apply tells_call. apply runs_writeFile. cbn [with_files files].
          apply lookup_insert_eq.
        + cbn [with_files files secrets credentials clock sent console].
          rewrite insert_insert_eq. apply tells_print. }
    destruct (c_confirm options) as [[|]|]; [exact Hrun | congruence | exact Hrun].
Qed.

(** Whatever the answer, the offer returns and reaches no secret. *)
Lemma offer_local_config_effect w log :
  exists w' log',
    tells (offer_local_config u environment configDir options) (w, log)
          (inr tt) (w', log')
    /\ secrets w' = secrets w /\ sent w' = sent w.
Proof.
  destruct (file_of w configDir file) as [content|] eqn:Hf.
  { exists w, log. split; [|split; reflexivity].
    apply offer_not_made. left. congruence. }
  destruct (c_confirm options) as [[|]|] eqn:Hflag.
  2:{ exists w, log. split; [|split; reflexivity]. apply offer_not_made. auto. }
  all: destruct (agrees u (AskCreateLocalConfig environment)) eqn:Hyes.
  all: try (exists w, log; split; [|split; reflexivity]; apply offer_not_made; now auto).
  all: exists (created w), (log ++ [LogCreatedLocalConfig configDir file])%list;
    (split; [|split; reflexivity]); apply offer_accepted; congruence.
Qed.

Variable packageName : string.
Hypothesis Hpackage : c_packageName options ||| rc_packageName config = Some packageName.

Let secretName := secretName_of packageName environment.

Lemma create_stores value w log :
  credentials w = true -> secrets w !! (region, secretName) = None ->
  tells (create_or_override u region secretName value options) (w, log) (inr true)
        (with_secrets (<[(region, secretName) := Secret value None]> (secrets w))
           (sending (Send region (CreateSecretCommand secretName value)) w),
         (log ++ [LogSecretCreated secretName region])%list).
Proof.
  intros Hc Hs. unfold create_or_override. apply tells_try.
  eapply tells_bind; [apply tells_call; now apply runs_create|].
  eapply tells_bind; [apply tells_print | apply tells_ret].
Qed.

(** X29. When the secret exists already, [createSecret] never replaces
    it unasked.  With the confirmation flag [false] it fails with the
    store's "already exists" error, reported once and not as a failed
    creation.  Asked and declined, it returns normally after "Operation
    cancelled", and no local document is offered.  Asked and accepted, it
    sends the update, and the secret then holds the initial value.  In
    the first two cases the secret and the files are as they were. *)
Theorem createSecret_on_existing_secret w log text v old :
  truthy (c_initialValues options) = Some text -> JSON_parse text = Some v ->
  credentials w = true ->
  secrets w !! (region, secretName) = Some (Secret old None) ->
  let create := Send region (CreateSecretCommand secretName text) in
  let update := Send region (UpdateSecretCommand secretName text) in
  let r := createSecret JSON_parse config u environment options (w, log) in
  (c_confirm options = Some false ->
   r = (inl (Thrown ResourceExistsException),
        (sending create w, (log ++ [ErrSecretExists secretName])%list)))
  /\ (c_confirm options <> Some false ->
      agrees u (AskOverrideExisting secretName) = false ->
      r = (inr tt, (sending create w, (log ++ [Said LogOperationCancelled])%list)))
  /\ (c_confirm options <> Some false ->
      agrees u (AskOverrideExisting secretName) = true ->
      fst r = inr tt
      /\ secrets (fst (snd r))
         = <[(region, secretName) := Secret text None]> (secrets w)
      /\ sent (fst (snd r)) = (sent w ++ [create; update])%list).
Proof.
  intros Hi Hp Hc Hs create update r. subst r.
  rewrite (createSecret_with_package packageName) by exact Hpackage.
  fold secretName.
  assert (Hexists :
            tells (Told.call (send region (CreateSecretCommand secretName text)))
                  (w, log) (inl (Thrown ResourceExistsException)) (sending create w, log)).
  { apply tells_call_throws. eapply runs_create_exists; eassumption. }
  split; [|split].
  - intros Hflag. eapply tells_catch.
    + eapply tells_bind; [eapply initial_value_given; eassumption|].
      eapply tells_bind_throws. unfold create_or_override.
      eapply tells_catch; [eapply tells_bind_throws; exact Hexists|].
      rewrite Hflag. eapply tells_bind; [apply tells_print | apply tells_throw].
    + unfold failed. eapply tells_bind; [apply tells_ret | apply tells_throw].
  - intros Hflag Hno. apply tells_try.
    eapply tells_bind; [eapply initial_value_given; eassumption|].
    eapply (tells_bind _ _ _ false); [|apply tells_ret].
    unfold create_or_override.
    eapply tells_catch; [eapply tells_bind_throws; exact Hexists|].
    assert (Hdeclined :
              tells (Told.bind (ask u (AskOverrideExisting secretName)) (fun override =>
                       if negb override
                       then Told.bind (Told.print (Said LogOperationCancelled))
                                      (fun _ => Told.ret false)
                       else Told.bind
                              (Told.call (send region
                                            (UpdateSecretCommand secretName text)))
                              (fun _ => Told.bind
                                          (Told.print (LogSecretUpdated secretName region))
                                          (fun _ => Told.ret true))))
                    (sending create w, log) (inr false)
                    (sending create w, (log ++ [Said LogOperationCancelled])%list)).
    { unfold ask. eapply tells_bind; [apply tells_ret|]. rewrite Hno. cbn [negb].
      eapply tells_bind; [apply tells_print | apply tells_ret]. }
    destruct (c_confirm options) as [[|]|]; [exact Hdeclined | congruence | exact Hdeclined].
  - intros Hflag Hyes.
    set (w2 := with_secrets (<[(region, secretName) := Secret text None]> (secrets w))
                 (sending update (sending create w))).
    destruct (offer_local_config_effect w2 (log ++ [LogSecretUpdated secretName region])%list)
      as (w3 & log3 & Hoffer & Hsecrets & Hsent).
    assert (Hrun : Told.try_catch
                     (Told.bind (initial_value JSON_parse u environment configDir options)
                        (fun secretValue =>
                           Told.bind (create_or_override u region secretName
                                        secretValue options)
                             (fun stored =>
                                if (stored : bool)
                                then offer_local_config u environment configDir options
                                else Told.ret tt)))
                     failed (w, log) = (inr tt, (w3, log3))).
    { apply tells_try.
      eapply tells_bind; [eapply initial_value_given; eassumption|].
      eapply (tells_bind _ _ _ true); [|exact Hoffer].
      unfold create_or_override.
      eapply tells_catch; [eapply tells_bind_throws; exact Hexists|].
      assert (Haccepted :
                tells (Told.bind (ask u (AskOverrideExisting secretName)) (fun override =>
                         if negb override
                         then Told.bind (Told.print (Said LogOperationCancelled))
                                        (fun _ => Told.ret false)
                         else Told.bind
                                (Told.call (send region
                                              (UpdateSecretCommand secretName text)))
                                (fun _ => Told.bind
                                            (Told.print (LogSecretUpdated secretName region))
                                            (fun _ => Told.ret true))))
                      (sending create w, log) (inr true)
                      (w2, (log ++ [LogSecretUpdated secretName region])%list)).
      { unfold ask. eapply tells_bind; [apply tells_ret|]. rewrite Hyes. cbn [negb].
        eapply tells_bind.
        - apply tells_call.
          apply (runs_update region secretName text (sending create w) old);
            assumption.
        - eapply tells_bind; [apply tells_print | apply tells_ret]. }
      destruct (c_confirm options) as [[|]|]; [exact Haccepted | congruence | exact Haccepted]. }
    rewrite Hrun. cbn [fst snd]. rewrite Hsecrets, Hsent. subst w2.
    cbn [with_secrets sending secrets sent]. rewrite <- app_assoc.
    repeat split.
Qed.

(** X30. Without initial values, [createSecret] takes them from the
    local document.  With the confirmation flag [false] nobody is asked:
    the text of [<environment>.json] becomes the secret as it is, whether
    or not it is JSON, and when there is no such file the secret is [{}]
    and no local document is created.  When the user can be asked, there
    is no local document and the offer to create one is accepted, the
    secret is [{}] and the local document becomes [{environment}]. *)
Theorem createSecret_takes_the_local_document w log :
  truthy (c_initialValues options) = None ->
  credentials w = true ->
  secrets w !! (region, secretName) = None ->
  let r := createSecret JSON_parse config u environment options (w, log) in
  let stored value :=
    with_secrets (<[(region, secretName) := Secret value None]> (secrets w))
      (sending (Send region (CreateSecretCommand secretName value)) w) in
  (forall content,
     c_confirm options = Some false ->
     file_of w configDir file = Some content ->
     r = (inr tt,
          (stored content,
           (log ++ [LogUsingConfig configDir file;
                    LogSecretCreated secretName region])%list)))
  /\ (c_confirm options = Some false ->
      file_of w configDir file = None ->
      r = (inr tt,
           (stored "{}", (log ++ [LogSecretCreated secretName region])%list)))
  /\ (c_confirm options <> Some false ->
      file_of w configDir file = None ->
      agrees u (AskCreateLocalConfig environment) = true ->
      r = (inr tt,
           (with_files
              (<[configDir :=
                   <[file := Json.pretty (JObj [("environment", JStr environment)])]>
                     (default ∅ (files w !! configDir))]> (files w))
              (stored "{}"),
            (log ++ [LogSecretCreated secretName region;
                     LogCreatedLocalConfig configDir file])%list))).
Proof.
  intros Hi Hc Hs r stored. subst r.
  rewrite (createSecret_with_package packageName) by exact Hpackage.
  fold secretName.
  assert (Habsent : file_of w configDir file = None ->
            tells (initial_value JSON_parse u environment configDir options)
                  (w, log) (inr "{}") (w, log)).
  { intros Hf. unfold initial_value. rewrite Hi. fold file.
    eapply tells_catch; [|apply tells_ret].
    eapply tells_bind_throws. apply tells_call_throws. now apply runs_access_absent. }
  split; [|split].
  - intros content Hflag Hf. apply tells_try.
    unfold file_of in Hf. destruct (files w !! configDir) as [d|] eqn:Hd; [|discriminate].
    eapply tells_bind.
    { unfold initial_value. rewrite Hi, Hflag. fold file. apply tells_try.
      eapply tells_bind; [apply tells_call; eapply runs_access; eassumption|].
      eapply tells_bind; [apply tells_ret|]. cbn iota.
      eapply tells_bind; [apply tells_call; eapply runs_readFile; eassumption|].
      eapply tells_bind; [apply tells_print | apply tells_ret]. }
    eapply tells_bind; [now apply create_stores|].
    rewrite <- app_assoc. apply offer_not_made. auto.
  - intros Hflag Hf. apply tells_try.
    eapply tells_bind; [now apply Habsent|].
    eapply tells_bind; [now apply create_stores|].
    apply offer_not_made. auto.
  - intros Hflag Hf Hyes. apply tells_try.
    eapply tells_bind; [now apply Habsent|].
    eapply tells_bind; [now apply create_stores|].
    replace (log ++ [LogSecretCreated secretName region;
                     LogCreatedLocalConfig configDir file])%list
      with ((log ++ [LogSecretCreated secretName region])
            ++ [LogCreatedLocalConfig configDir file])%list
      by (now rewrite <- app_assoc).
    apply (offer_accepted (stored "{}")); assumption.
Qed.

End SecretFacts.

Lemma createSecret_rejects_before_sending_example :
  let anonymous := Rc None None None None in
  let u := Replies (fun _ => true) "typed" in
  let plain := SecretOptions None None None None None in
  let broken := SecretOptions None None None (Some "{oops") None in
  createSecret Reader.read anonymous u "staging" plain (Example.diverged, [])
  = (inl (Thrown PackageNameNotProvided),
     (Example.diverged, [Said ErrPackageNameRequired]))
  /\ createSecret Reader.read Example.project u "staging" broken (Example.diverged, [])
     = (inl InitialValuesNotJSON,
        (Example.diverged,
         [ErrInvalidInitialValues; ErrFailedToCreateSecret InitialValuesNotJSON])).
Proof.
  intros anonymous u plain broken. split.
  - apply (createSecret_rejects_before_sending Reader.read anonymous u "staging" plain
             Example.diverged []). reflexivity.
  - apply (createSecret_rejects_before_sending Reader.read Example.project u "staging"
             broken Example.diverged []) with (packageName := "app") (text := "{oops");
      [reflexivity | reflexivity | vm_compute; reflexivity].
Defined.

Lemma createSecret_on_existing_secret_example :
  let u := Replies (fun _ => false) "typed" in
  let options := SecretOptions None None None (Some "[1]") None in
  let r := createSecret Reader.read Example.project u "staging" options
             (Example.diverged, []) in
  Reader.read "[1]" = Some (JArr [JNum 1])
  /\ secrets Example.diverged !! ("us-east-1", "app/staging")
     = Some (Secret (Json.stringify Example.remote_doc) None)
  /\ r = (inr tt,
          (sending (Send "us-east-1" (CreateSecretCommand "app/staging" "[1]"))
             Example.diverged,
           [Said LogOperationCancelled])).
Proof.
  intros u options r.
  assert (H1 : Reader.read "[1]" = Some (JArr [JNum 1])) by (vm_compute; reflexivity).
  assert (H2 : secrets Example.diverged !! ("us-east-1", "app/staging")
               = Some (Secret (Json.stringify Example.remote_doc) None))
    by (vm_compute; reflexivity).
  split; [exact H1|]. split; [exact H2|].
  destruct (createSecret_on_existing_secret Reader.read Example.project u "staging"
              options "app" eq_refl Example.diverged [] "[1]" (JArr [JNum 1])
              (Json.stringify Example.remote_doc) eq_refl H1 eq_refl H2)
    as (_ & Hdeclined & _).
  apply Hdeclined; [discriminate | reflexivity].
Defined.

Lemma createSecret_takes_the_local_document_example :
  let u := Replies (fun _ => true) "typed" in
  let options := SecretOptions None None None None (Some false) in
  let w := World {[ "./config" := Example.config_dir ]} ∅ true 0 [] [] in
  let r := createSecret Reader.read Example.project u "staging" options (w, []) in
  file_of w "./config" "staging.json" = Some (Json.pretty Example.local_doc)
  /\ fst r = inr tt
  /\ secrets (fst (snd r))
     = {[ ("us-east-1", "app/staging") := Secret (Json.pretty Example.local_doc) None ]}
  /\ files (fst (snd r)) = files w.
Proof.
  intros u options w r.
  assert (H1 : file_of w "./config" "staging.json" = Some (Json.pretty Example.local_doc))
    by (vm_compute; reflexivity).
  split; [exact H1|].
  destruct (createSecret_takes_the_local_document Reader.read Example.project u "staging"
              options "app" eq_refl w [] eq_refl eq_refl eq_refl) as (Hfile & _ & _).
  subst r. rewrite (Hfile (Json.pretty Example.local_doc) eq_refl H1).
  cbn [fst snd]. split; [reflexivity|]. split; [|reflexivity].
  vm_compute. reflexivity.
Defined.

(* ===================================================================== *)
(** ** The [env] format, against the words of the specification          *)
(* ===================================================================== *)

Module ProjectionFacts.
Import Projection.

(** The letters: the capitals are the characters [A] to [Z], and the
    capital of a small letter is 32 places before it. *)
Lemma is_capital_upper c : is_capital c = Str.is_upper c.
Proof. destruct c as [[] [] [] [] [] [] [] []]; reflexivity. Qed.

Lemma to_capital_upper c : to_capital c = Str.upper_char c.
Proof. destruct c as [[] [] [] [] [] [] [] []]; reflexivity. Qed.

Lemma prefix_capitals_replace key : prefix_capitals key = Str.replace_upper key.
Proof.
  induction key as [|c key IH]; simpl; [reflexivity|].
  now rewrite is_capital_upper, IH.
Qed.

Lemma uppercase_toUpperCase s : uppercase s = Str.toUpperCase s.
Proof.
  induction s as [|c s IH]; simpl; [reflexivity|].
  now rewrite to_capital_upper, IH.
Qed.

Lemma envKey_upper_snake_case key : envKey key = upper_snake_case key.
Proof.
  unfold envKey, upper_snake_case.
  now rewrite prefix_capitals_replace, uppercase_toUpperCase.
Qed.

(** The lines: one under the other is what [join] with a line feed
    gives. *)
Lemma lines_join ls : Str.join Str.NL ls = lines ls.
Proof.
  unfold Str.join. induction ls as [|l ls IH]; [reflexivity|].
  destruct ls as [|l' ls]; [reflexivity|].
  change (l +:+ Str.NL +:+ String.concat Str.NL (l' :: ls)
          = l +:+ newline +:+ lines (l' :: ls)).
  now rewrite IH.
Qed.

End ProjectionFacts.

(** The numbers: the program's text of an integer and the numeral of the
    specification are both the digits of the number without a leading
    zero, and there is one such text. *)
Module NumeralFacts.
Import Projection.

Local Notation reads s v := (Obj.digits s 0 = Some v).

Lemma digit_read d s acc :
  (d < 10)%N ->
  Obj.digits (String (digit d) s) acc = Obj.digits s (acc * 10 + d)%N.
Proof.
  intros Hd.
  assert (H : (d = 0 \/ d = 1 \/ d = 2 \/ d = 3 \/ d = 4 \/ d = 5 \/ d = 6
               \/ d = 7 \/ d = 8 \/ d = 9)%N) by lia.
  repeat (destruct H as [->|H]; [reflexivity|]). now subst.
Qed.

Lemma digit_not_zero d : (1 <= d < 10)%N -> digit d <> "0"%char.
Proof.
  intros Hd.
  assert (H : (d = 1 \/ d = 2 \/ d = 3 \/ d = 4 \/ d = 5 \/ d = 6
               \/ d = 7 \/ d = 8 \/ d = 9)%N) by lia.
  repeat (destruct H as [->|H]; [discriminate|]). now subst.
Qed.

Lemma read_snoc d : forall s acc v,
  (d < 10)%N ->
  Obj.digits s acc = Some v ->
  Obj.digits (s +:+ String (digit d) "") acc = Some (v * 10 + d)%N.
Proof.
  induction s as [|c s IH]; intros acc v Hd H.
  - rewrite StrFacts.append_nil, digit_read by exact Hd.
    cbn in H. injection H as <-. reflexivity.
  - rewrite StrFacts.append_cons, ObjOrder.digits_cons.
    rewrite ObjOrder.digits_cons in H.
    destruct (Nat.leb 48 (nat_of_ascii c) && Nat.leb (nat_of_ascii c) 57);
      [|discriminate].
    now apply IH.
Qed.

Lemma numeral_rest : forall more n rest,
  numeral more n rest = numeral more n "" +:+ rest.
Proof.
  induction more as [|more IH]; intros n rest; cbn [numeral].
  - reflexivity.
  - destruct (n <? 10)%N; [reflexivity|].
    rewrite IH, (IH _ (String _ "")), StrMore.append_assoc. reflexivity.
Qed.

Lemma numeral_reads : forall more n,
  (n < Order.pow10 (S more))%N -> reads (numeral more n "") n.
Proof.
  induction more as [|more IH]; intros n Hn; cbn [numeral].
  - cbn in Hn. rewrite digit_read by (apply N.mod_lt; lia).
    cbn [Obj.digits]. f_equal. rewrite N.mod_small; lia.
  - destruct (N.ltb_spec n 10) as [Hsmall|Hbig].
    + rewrite digit_read by (apply N.mod_lt; lia).
      cbn [Obj.digits]. f_equal. rewrite N.mod_small; lia.
    + rewrite numeral_rest.
      assert (Hq : (n / 10 < Order.pow10 (S more))%N).
      { apply N.Div0.div_lt_upper_bound. cbn [Order.pow10] in Hn |- *. lia. }
      rewrite (read_snoc (n mod 10) _ 0%N (n / 10)%N);
        [|apply N.mod_lt; lia | now apply IH].
      f_equal. pose proof (N.div_mod n 10). lia.
Qed.

Lemma numeral_headed : forall more n,
  (1 <= n < Order.pow10 (S more))%N -> headed (numeral more n "").
Proof.
  induction more as [|more IH]; intros n Hn; cbn [numeral].
  - cbn in Hn. exists (digit (n mod 10)), "". split; [reflexivity|].
    apply digit_not_zero. rewrite N.mod_small; lia.
  - destruct (N.ltb_spec n 10) as [Hsmall|Hbig].
    + exists (digit (n mod 10)), "". split; [reflexivity|].
      apply digit_not_zero. rewrite N.mod_small; lia.
    + rewrite numeral_rest.
      destruct (IH (n / 10)%N) as (c & rest & -> & Hc).
      { split.
        - apply N.div_le_lower_bound; lia.
        - apply N.Div0.div_lt_upper_bound. cbn [Order.pow10] in Hn |- *. lia. }
      exists c, (rest +:+ String (digit (n mod 10)) ""). split; [reflexivity | exact Hc].
Qed.

(** One text only reads as a given number and starts with a digit that
    is not zero. *)
Lemma headed_bounds c rest v :
  reads (String c rest) v -> c <> "0"%char ->
  (Order.pow10 (String.length rest) <= v < Order.pow10 (S (String.length rest)))%N.
Proof.
  intros H Hc. rewrite ObjOrder.digits_cons in H.
  destruct (Nat.leb 48 (nat_of_ascii c) && Nat.leb (nat_of_ascii c) 57) eqn:Hd;
    [|discriminate].
  apply andb_prop in Hd as [L U]. apply Nat.leb_le in L, U.
  apply ObjOrder.digits_bounds in H.
  assert (nat_of_ascii c <> 48).
  { intros Heq. apply Hc. rewrite <- (ascii_nat_embedding c), Heq. reflexivity. }
  cbn [Order.pow10]. pose proof (ObjOrder.p10_pos (String.length rest)). nia.
Qed.

Lemma headed_unique s1 s2 v :
  reads s1 v -> reads s2 v -> headed s1 -> headed s2 -> s1 = s2.
Proof.
  intros R1 R2 (c1 & r1 & -> & H1) (c2 & r2 & -> & H2).
  pose proof (headed_bounds c1 r1 v R1 H1) as B1.
  pose proof (headed_bounds c2 r2 v R2 H2) as B2.
  assert (Hlen : String.length r1 = String.length r2).
  { destruct (Nat.lt_trichotomy (String.length r1) (String.length r2))
      as [Hlt|[Heq|Hgt]]; [|exact Heq|].
    - pose proof (ObjOrder.p10_mono (S (String.length r1)) (String.length r2)). lia.
    - pose proof (ObjOrder.p10_mono (S (String.length r2)) (String.length r1)). lia. }
  apply (ObjOrder.digits_same_length _ _ 0%N 0%N v); [|assumption..].
  cbn [String.length]. now rewrite Hlen.
Qed.

(** The text the standard conversion gives. *)
Local Ltac read_digit k IH :=
  rewrite <- IH;
  match goal with
  | |- Obj.digits (String _ ?s) ?a = ?r =>
      change (Obj.digits (String (digit k) s) a = r)
  end;
  rewrite digit_read by lia; f_equal; lia.

Lemma uint_read_from : forall d acc,
  Obj.digits (NilEmpty.string_of_uint d) (Npos acc)
  = Some (Npos (Pos.of_uint_acc d acc)).
Proof.
  induction d; intros acc; cbn [NilEmpty.string_of_uint Pos.of_uint_acc];
    [ reflexivity
    | read_digit 0%N IHd | read_digit 1%N IHd | read_digit 2%N IHd
    | read_digit 3%N IHd | read_digit 4%N IHd | read_digit 5%N IHd
    | read_digit 6%N IHd | read_digit 7%N IHd | read_digit 8%N IHd
    | read_digit 9%N IHd ].
Qed.

Lemma uint_reads : forall d,
  reads (NilEmpty.string_of_uint d) (Pos.of_uint d).
Proof.
  induction d; cbn [NilEmpty.string_of_uint Pos.of_uint]; [reflexivity|..].
  1: match goal with
     | |- Obj.digits (String _ ?s) ?a = ?r =>
         change (Obj.digits (String (digit 0) s) a = r)
     end; rewrite digit_read by lia; exact IHd.
  all: rewrite <- uint_read_from;
    match goal with
    | |- Obj.digits (String ?c ?s) ?a = ?r =>
        let k := eval vm_compute in (N_of_ascii c - 48)%N in
        change (Obj.digits (String (digit k) s) a = r)
    end;
    rewrite digit_read by lia; reflexivity.
Qed.

Lemma nzhead_headed d :
  match Decimal.nzhead d with
  | Decimal.D0 _ => False
  | _ => True
  end.
Proof. induction d; cbn; auto. Qed.

Lemma to_uint_headed p : headed (NilEmpty.string_of_uint (Pos.to_uint p)).
Proof.
  assert (Hnorm : Pos.to_uint p = Decimal.unorm (Pos.to_uint p)).
  { rewrite <- DecimalPos.Unsigned.to_of, DecimalPos.Unsigned.of_to. reflexivity. }
  pose proof (DecimalPos.Unsigned.to_uint_nonzero p) as Hnz.
  pose proof (nzhead_headed (Pos.to_uint p)) as Hhead.
  unfold Decimal.unorm in Hnorm.
  destruct (Decimal.nzhead (Pos.to_uint p)) eqn:E; rewrite Hnorm;
    try contradiction; try (now destruct Hnz);
    cbn [NilEmpty.string_of_uint]; eexists; eexists; (split; [reflexivity | discriminate]).
Qed.

(** The two texts of a number that has at most 21 digits. *)
Lemma positive_text p :
  (Npos p < Order.pow10 21)%N ->
  NilZero.string_of_uint (Pos.to_uint p) = numeral 20 (Npos p) "".
Proof.
  intros Hp.
  assert (Hs : NilZero.string_of_uint (Pos.to_uint p)
               = NilEmpty.string_of_uint (Pos.to_uint p)).
  { pose proof (DecimalPos.Unsigned.to_uint_nonnil p).
    unfold NilZero.string_of_uint. now destruct (Pos.to_uint p). }
  rewrite Hs. apply (headed_unique _ _ (Npos p)).
  - rewrite <- (DecimalPos.Unsigned.of_to p). apply uint_reads.
  - now apply numeral_reads.
  - apply to_uint_headed.
  - apply numeral_headed. lia.
Qed.

Lemma decimal_of_Z n :
  (Z.abs n < 1000000000000000000000)%Z -> Str.of_Z n = decimal n.
Proof.
  intros Hn. unfold Str.of_Z, decimal. destruct n as [|p|p].
  - reflexivity.
  - cbn [Z.ltb Z.compare Z.abs_N Z.to_int NilZero.string_of_int].
    apply positive_text. change (Order.pow10 21) with 1000000000000000000000%N. lia.
  - cbn [Z.ltb Z.compare Z.abs_N Z.to_int NilZero.string_of_int]. f_equal.
    apply positive_text. change (Order.pow10 21) with 1000000000000000000000%N. lia.
Qed.

End NumeralFacts.

Lemma envValue_scalar_or_json value :
  Projection.safe_numbers value = true ->
  envValue value =
  if Projection.is_scalar value then Projection.literal value
  else Json.stringify value.
Proof.
  destruct value as [| [|] | n | s | l | o]; try reflexivity.
  intros Hn. cbn [Projection.safe_numbers] in Hn. apply Z.leb_le in Hn.
  unfold Projection.max_safe_integer in Hn.
  cbn [envValue Json.typeof_object Json.to_text Projection.is_scalar Projection.literal].
  apply NumeralFacts.decimal_of_Z. lia.
Qed.


